(** * Express-auth-api: the authenticated request pipeline

  A shallow embedding of the request-authentication code of the
  repository: the [AppError] class, the global error handler, the
  [User] and [Product] models with their schema rules, the [protect],
  [authorize] and [optionalAuth] middleware, and the authentication and
  product controllers.  Asynchronous handlers are modelled as state
  passing over the document store; the libraries the code calls
  (bcryptjs, jsonwebtoken) are an interface the development is
  parametric in. *)

From Stdlib Require Import String Ascii List ZArith Bool Lia DecimalString.
From Stdlib Require Import DecimalPos.
Import ListNotations.
Open Scope string_scope.
Open Scope Z_scope.
Set Warnings "-register-all".

(** ** JavaScript string primitives *)

Module Js.

(** A value is truthy when it is a non-empty string. *)
Definition truthy (s : string) : bool :=
  match s with "" => false | _ => true end.

(** [s.startsWith(p)] *)
Definition startsWith (s p : string) : bool := String.prefix p s.

(** [s.split(sep)] for a one-character separator: the pieces between
    the separators, empty pieces included. *)
Fixpoint split (sep : ascii) (s : string) : list string :=
  match s with
  | "" => [""]
  | String c r =>
      if Ascii.eqb c sep then "" :: split sep r
      else match split sep r with
           | [] => [String c ""]
           | h :: t => String c h :: t
           end
  end.

(** [a[i]], [None] standing for [undefined]. *)
Definition index {A} (l : list A) (i : nat) : option A := nth_error l i.

Definition is_upper (c : ascii) : bool :=
  let n := nat_of_ascii c in (Nat.leb 65 n && Nat.leb n 90)%bool.
Definition is_lower (c : ascii) : bool :=
  let n := nat_of_ascii c in (Nat.leb 97 n && Nat.leb n 122)%bool.
Definition is_digit (c : ascii) : bool :=
  let n := nat_of_ascii c in (Nat.leb 48 n && Nat.leb n 57)%bool.
Definition is_space (c : ascii) : bool :=
  let n := nat_of_ascii c in
  (Nat.eqb n 32 || (Nat.leb 9 n && Nat.leb n 13))%bool.

Definition lower_char (c : ascii) : ascii :=
  if is_upper c then ascii_of_nat (nat_of_ascii c + 32) else c.
Definition upper_char (c : ascii) : ascii :=
  if is_lower c then ascii_of_nat (nat_of_ascii c - 32) else c.

Fixpoint map_chars (f : ascii -> ascii) (s : string) : string :=
  match s with
  | "" => ""
  | String c r => String (f c) (map_chars f r)
  end.

(** [s.toLowerCase()] and [s.toUpperCase()] on ASCII text. *)
Definition toLowerCase : string -> string := map_chars lower_char.
Definition toUpperCase : string -> string := map_chars upper_char.

Fixpoint trimStart (s : string) : string :=
  match s with
  | String c r => if is_space c then trimStart r else s
  | "" => ""
  end.

Fixpoint trimEnd (s : string) : string :=
  match s with
  | "" => ""
  | String c r =>
      match trimEnd r with
      | "" => if is_space c then "" else String c ""
      | r' => String c r'
      end
  end.

(** [s.trim()] *)
Definition trim (s : string) : string := trimEnd (trimStart s).

(** [`${n}`] for an integer. *)
Definition ofZ (n : Z) : string := NilZero.string_of_int (Z.to_int n).

(** [parts.join(sep)] *)
Fixpoint join (sep : string) (l : list string) : string :=
  match l with
  | [] => ""
  | [x] => x
  | x :: r => x ++ sep ++ join sep r
  end.

End Js.

(** The numbers of the configuration and of the page arithmetic: the
    results of [parseInt(v, 10)], of [Math.ceil] and of the products and
    differences of such values.  They are doubles: a whole number is
    kept exactly up to 2^53 and rounded to the nearest double beyond,
    to an infinity from 2^1024 on.  [Fin z] stands for the double [z];
    negative zero is not told from zero (both are falsy, and both print
    as [0]). *)
Module JsNum.

Inductive number : Type :=
| Fin (z : Z)
| Inf (negative : bool)
| NaN.

Definition digit_value (c : ascii) : option Z :=
  if Js.is_digit c then Some (Z.of_nat (nat_of_ascii c) - 48) else None.

(** The value of the longest prefix of digits, [acc] the value read so
    far ([None]: no digit yet). *)
Fixpoint digits (acc : option Z) (s : string) : option Z :=
  match s with
  | String c r =>
      match digit_value c with
      | Some d =>
          digits (Some (10 * match acc with Some a => a | None => 0 end + d)) r
      | None => acc
      end
  | "" => acc
  end.

(** The whole number a string denotes: leading white space, an
    optional sign, then the longest run of decimal digits; [None] when
    there is no digit.  An absent value prints as [undefined], which
    has none. *)
Definition mathInt (v : option string) : option Z :=
  match v with
  | None => None
  | Some s =>
      match Js.trimStart s with
      | String "-" r => option_map Z.opp (digits None r)
      | String "+" r => digits None r
      | s' => digits None s'
      end
  end.

(** [n / d] in units of [2 ^ e], as a fraction. *)
Definition scale (n d e : Z) : Z * Z :=
  (n * 2 ^ Z.max 0 (- e), d * 2 ^ Z.max 0 e).

(** The double nearest to the rational [n / d], for [0 < n] and
    [0 < d], ties going to the even significand: its significand [m]
    and exponent [e], the value being [m * 2 ^ e].  The significand has
    53 bits, fewer at the least exponent, that of the subnormal
    numbers. *)
Definition nearest (n d : Z) : Z * Z :=
  let e1 := Z.log2 n - Z.log2 d - 53 in
  let e :=
    Z.max (let '(n1, d1) := scale n d e1 in
           if n1 / d1 <? 2 ^ 53 then e1 else e1 + 1)
          (- 1074) in
  let '(n', d') := scale n d e in
  let m := n' / d' in
  let r := n' mod d' in
  (if (d' <? 2 * r) || ((2 * r =? d') && Z.odd m) then m + 1 else m, e).

(** The double nearest to the whole number [z]. *)
Definition round_int (z : Z) : number :=
  if z =? 0 then Fin 0
  else
    let '(m, e) := nearest (Z.abs z) 1 in
    let v := if 0 <=? e then m * 2 ^ e else m / 2 ^ (- e) in
    if 2 ^ 1024 <=? v then Inf (z <? 0) else Fin (Z.sgn z * v).

(** [parseInt(v, 10)]: the double nearest to the whole number read,
    [NaN] when there is none. *)
Definition parseInt (v : option string) : number :=
  match mathInt v with
  | Some z => round_int z
  | None => NaN
  end.

Definition truthy (x : number) : bool :=
  match x with
  | Fin z => negb (z =? 0)
  | Inf _ => true
  | NaN => false
  end.

(** [x || d] *)
Definition or (x d : number) : number := if truthy x then x else d.

(** [x * y] *)
Definition mul (x y : number) : number :=
  match x, y with
  | NaN, _ | _, NaN => NaN
  | Fin a, Fin b => round_int (a * b)
  | Inf s, Fin b | Fin b, Inf s => if b =? 0 then NaN else Inf (xorb s (b <? 0))
  | Inf s, Inf t => Inf (xorb s t)
  end.

(** [x - y] *)
Definition sub (x y : number) : number :=
  match x, y with
  | NaN, _ | _, NaN => NaN
  | Fin a, Fin b => round_int (a - b)
  | Inf s, Fin _ => Inf s
  | Fin _, Inf t => Inf (negb t)
  | Inf s, Inf t => if Bool.eqb s t then NaN else Inf s
  end.

(** [Math.ceil(a / b)] for whole numbers [a] and [b <> 0]: the
    quotient is rounded to the nearest double before the ceiling is
    taken. *)
Definition ceil_quot (a b : Z) : number :=
  if a =? 0 then Fin 0
  else
    let '(m, e) := nearest (Z.abs a) (Z.abs b) in
    let negative := xorb (a <? 0) (b <? 0) in
    let v :=
      if 0 <=? e then m * 2 ^ e
      else if negative then m / 2 ^ (- e)
      else - ((- m) / 2 ^ (- e)) in
    if 2 ^ 1024 <=? v then Inf negative
    else Fin (if negative then - v else v).

(** [Math.ceil(x / y)]; a zero divisor is taken for the positive
    zero. *)
Definition ceil_div (x y : number) : number :=
  match x, y with
  | NaN, _ | _, NaN => NaN
  | Fin a, Fin b =>
      if b =? 0 then (if a =? 0 then NaN else Inf (a <? 0)) else ceil_quot a b
  | Fin _, Inf _ => Fin 0
  | Inf s, Fin b => Inf (xorb s (b <? 0))
  | Inf _, Inf _ => NaN
  end.

End JsNum.

(** ** Regular expressions of the schemas

  The two patterns of the models are written as terms and matched by
  derivatives. *)

Module Re.

Inductive re : Type :=
| Empty                       (* matches nothing *)
| Eps                         (* matches the empty string *)
| Class (p : ascii -> bool)   (* one character of a class *)
| Seq (a b : re)
| Alt (a b : re)
| Star (a : re).

Definition Opt (a : re) : re := Alt a Eps.
Definition Plus (a : re) : re := Seq a (Star a).

Fixpoint nullable (r : re) : bool :=
  match r with
  | Empty => false
  | Eps => true
  | Class _ => false
  | Seq a b => nullable a && nullable b
  | Alt a b => nullable a || nullable b
  | Star _ => true
  end.

Fixpoint deriv (c : ascii) (r : re) : re :=
  match r with
  | Empty | Eps => Empty
  | Class p => if p c then Eps else Empty
  | Seq a b =>
      if nullable a then Alt (Seq (deriv c a) b) (deriv c b)
      else Seq (deriv c a) b
  | Alt a b => Alt (deriv c a) (deriv c b)
  | Star a => Seq (deriv c a) (Star a)
  end.

(** [^r$] tested on the whole of [s]. *)
Fixpoint matches (r : re) (s : string) : bool :=
  match s with
  | "" => nullable r
  | String c t => matches (deriv c r) t
  end.

(** [\w] *)
Definition word (c : ascii) : bool :=
  (Js.is_upper c || Js.is_lower c || Js.is_digit c || Ascii.eqb c "_")%bool.
Definition one (x : ascii) (c : ascii) : bool := Ascii.eqb c x.
(** [[.-]] *)
Definition dot_dash (c : ascii) : bool :=
  (Ascii.eqb c "." || Ascii.eqb c "-")%bool.

(** [\w+([.-]?\w+)*] *)
Definition words : re :=
  Seq (Plus (Class word)) (Star (Seq (Opt (Class dot_dash)) (Plus (Class word)))).

(** [/^\w+([.-]?\w+)*@\w+([.-]?\w+)*(\.\w{2,3})+$/] of the user schema. *)
Definition email_re : re :=
  Seq words
    (Seq (Class (one "@"))
       (Seq words
          (Plus (Seq (Class (one "."))
                   (Seq (Class word) (Seq (Class word) (Opt (Class word)))))))).

(** [/^[A-Z0-9-]+$/] of the product schema. *)
Definition sku_re : re :=
  Plus (Class (fun c => (Js.is_upper c || Js.is_digit c || Ascii.eqb c "-")%bool)).

End Re.

(** ** JSON values, cookies and responses *)

Inductive json : Type :=
| JNull
| JBool (b : bool)
| JNum (n : Z)
| JStr (s : string)
| JArr (items : list json)
| JObj (fields : list (string * json)).

(** [k] names a property of [j] at any depth. *)
Fixpoint has_key (k : string) (j : json) : bool :=
  match j with
  | JArr items => existsb (has_key k) items
  | JObj fields =>
      existsb (fun kv => String.eqb (fst kv) k || has_key k (snd kv))%bool fields
  | _ => false
  end.

(** [delete o.k] *)
Definition delete_key (k : string) (j : json) : json :=
  match j with
  | JObj fields => JObj (filter (fun kv => negb (String.eqb (fst kv) k)) fields)
  | _ => j
  end.

Definition json_opt {A} (f : A -> json) (o : option A) : json :=
  match o with Some a => f a | None => JNull end.

Record Cookie : Type := mkCookie {
  cookieName : string;
  cookieValue : string;
  cookieExpires : Z;            (* milliseconds since the epoch *)
  cookieHttpOnly : bool;
  cookieSecure : bool;
  cookieSameSite : option string
}.

Record Response : Type := mkResponse {
  resStatus : Z;
  resBody : json;
  resCookies : list Cookie
}.

Module StatusCodes.
Definition OK : Z := 200.
Definition CREATED : Z := 201.
Definition BAD_REQUEST : Z := 400.
Definition UNAUTHORIZED : Z := 401.
Definition NOT_FOUND : Z := 404.
End StatusCodes.

(** ** Errors (utils/AppError.js) *)

(** An error object in flight, with the properties the error handler
    reads. *)
Record JsError : Type := mkJsError {
  errName : string;
  errMessage : string;
  errStatusCode : option Z;
  errStatus : option string;
  errIsOperational : bool;
  errDetails : option json;
  errCode : option Z;
  errKeyValue : list (string * string);
  errErrors : list (string * string);
  errPath : option string;
  errValue : option string
}.

(** [new AppError(message, statusCode)]; the class keeps the [name] of
    [Error]. *)
Definition AppError (message : string) (statusCode : Z) : JsError :=
  {| errName := "Error";
     errMessage := message;
     errStatusCode := Some statusCode;
     errStatus := Some (if Js.startsWith (Js.ofZ statusCode) "4" then "fail" else "error");
     errIsOperational := true;
     errDetails := None;
     errCode := None;
     errKeyValue := [];
     errErrors := [];
     errPath := None; errValue := None |}.

(** An error thrown by the runtime or a library: only a name and a
    message. *)
Definition thrown (name message : string) : JsError :=
  {| errName := name; errMessage := message; errStatusCode := None;
     errStatus := None; errIsOperational := false; errDetails := None;
     errCode := None; errKeyValue := []; errErrors := [];
     errPath := None; errValue := None |}.

Definition TypeError (message : string) : JsError := thrown "TypeError" message.

(** The driver's E11000 error for a unique index. *)
Definition MongoDuplicateKey (field value : string) : JsError :=
  {| errName := "MongoServerError";
     errMessage := "E11000 duplicate key error";
     errStatusCode := None; errStatus := None; errIsOperational := false;
     errDetails := None; errCode := Some 11000;
     errKeyValue := [(field, value)]; errErrors := [];
     errPath := None; errValue := None |}.

(** Mongoose's [ValidationError], one message per failing path. *)
Definition ValidationError (errors : list (string * string)) : JsError :=
  {| errName := "ValidationError";
     errMessage := "Validation failed";
     errStatusCode := None; errStatus := None; errIsOperational := false;
     errDetails := None; errCode := None; errKeyValue := [];
     errErrors := errors; errPath := None; errValue := None |}.

(** Mongoose's [CastError] for a value that does not fit its path. *)
Definition CastError (path value : string) : JsError :=
  {| errName := "CastError";
     errMessage := "Cast failed for value " ++ value ++ " at path " ++ path;
     errStatusCode := None; errStatus := None; errIsOperational := false;
     errDetails := None; errCode := None; errKeyValue := []; errErrors := [];
     errPath := Some path; errValue := Some value |}.

(** ** Global error handler (middleware/errorHandler.js) *)

Definition handleDuplicateKeyError (err : JsError) : JsError :=
  let field := match errKeyValue err with
               | (k, _) :: _ => k
               | [] => "undefined"
               end in
  AppError (field ++ " already exists") 400.

Definition handleValidationError (err : JsError) : JsError :=
  let errors := map snd (errErrors err) in
  AppError ("Invalid input data: " ++ Js.join ". " errors) 400.

(** An absent property prints as [undefined] in a template string. *)
Definition str_undefined (x : option string) : string :=
  match x with Some s => s | None => "undefined" end.

Definition handleCastError (err : JsError) : JsError :=
  AppError ("Invalid " ++ str_undefined (errPath err) ++ ": "
            ++ str_undefined (errValue err)) 400.

Definition handleJWTError : JsError :=
  AppError "Invalid token. Please log in again." 401.

Definition handleJWTExpiredError : JsError :=
  AppError "Your token has expired. Please log in again." 401.

(** [x || d] on an optional number and an optional string. *)
Definition num_or (x : option Z) (d : Z) : Z :=
  match x with Some n => if n =? 0 then d else n | None => d end.
Definition str_or (x : option string) (d : string) : string :=
  match x with Some s => if Js.truthy s then s else d | None => d end.

(** The enumerable properties of the error that the model tracks, as
    the development response serialises them.  An [AppError] has the
    four its constructor sets.  An error of a library has its own (the
    code and key of a duplicate-key error, the failing paths of a
    validation error, the path and value of a cast error), then the
    [statusCode] and [status] the handler has just set on it. *)
Definition error_json (err : JsError) : json :=
  if errIsOperational err then
    JObj [("statusCode", json_opt JNum (errStatusCode err));
          ("status", json_opt JStr (errStatus err));
          ("isOperational", JBool true);
          ("details", json_opt (fun d => d) (errDetails err))]
  else
    JObj ((match errCode err with Some c => [("code", JNum c)] | None => [] end)
          ++ (match errKeyValue err with
              | [] => []
              | kv => [("keyValue", JObj (map (fun e => (fst e, JStr (snd e))) kv))]
              end)
          ++ (match errErrors err with
              | [] => []
              | es =>
                  [("errors",
                    JObj (map (fun e => (fst e,
                                         JObj [("name", JStr "ValidatorError");
                                               ("message", JStr (snd e));
                                               ("path", JStr (fst e))])) es))]
              end)
          ++ (match errPath err with Some x => [("path", JStr x)] | None => [] end)
          ++ (match errValue err with Some x => [("value", JStr x)] | None => [] end)
          ++ [("statusCode", json_opt JNum (errStatusCode err));
              ("status", json_opt JStr (errStatus err))]).

(** The stack trace of the development response is produced by the host
    and is left out of the body: a development answer is modelled up to
    its [stack]. *)
Definition sendErrorDev (err : JsError) : Response :=
  {| resStatus := num_or (errStatusCode err) 500;
     resBody := JObj [("status", json_opt JStr (errStatus err));
                      ("error", error_json err);
                      ("message", JStr (errMessage err))];
     resCookies := [] |}.

Definition sendErrorProd (err : JsError) : Response :=
  if errIsOperational err then
    {| resStatus := num_or (errStatusCode err) 500;
       resBody := JObj ([("status", json_opt JStr (errStatus err));
                         ("message", JStr (errMessage err))]
                        ++ match errDetails err with
                           | Some d => [("details", d)]
                           | None => []
                           end);
       resCookies := [] |}
  else
    {| resStatus := 500;
       resBody := JObj [("status", JStr "error");
                        ("message", JStr "Something went wrong!")];
       resCookies := [] |}.

Definition errorHandler (isDevelopment : bool) (err0 : JsError) : Response :=
  let err :=
    {| errName := errName err0; errMessage := errMessage err0;
       errStatusCode := Some (num_or (errStatusCode err0) 500);
       errStatus := Some (str_or (errStatus err0) "error");
       errIsOperational := errIsOperational err0;
       errDetails := errDetails err0; errCode := errCode err0;
       errKeyValue := errKeyValue err0; errErrors := errErrors err0;
       errPath := errPath err0; errValue := errValue err0 |} in
  if isDevelopment then sendErrorDev err
  else
    let error := err in
    let error :=
      if (String.eqb (errName err) "MongoServerError"
          && match errCode err with Some c => c =? 11000 | None => false end)%bool
      then handleDuplicateKeyError err else error in
    let error :=
      if String.eqb (errName err) "ValidationError"
      then handleValidationError err else error in
    let error :=
      if String.eqb (errName err) "CastError"
      then handleCastError err else error in
    let error :=
      if String.eqb (errName err) "JsonWebTokenError"
      then handleJWTError else error in
    let error :=
      if String.eqb (errName err) "TokenExpiredError"
      then handleJWTExpiredError else error in
    sendErrorProd error.

(** ** Configuration (config/config.js) *)

Record ProcessEnv : Type := mkProcessEnv {
  NODE_ENV : option string;
  JWT_SECRET : option string;
  JWT_EXPIRE : option string
}.

Module config.
Definition isDevelopment (pe : ProcessEnv) : bool :=
  match NODE_ENV pe with Some e => String.eqb e "development" | None => false end.
Definition isProduction (pe : ProcessEnv) : bool :=
  match NODE_ENV pe with Some e => String.eqb e "production" | None => false end.
Definition jwt_secret (pe : ProcessEnv) : string :=
  str_or (JWT_SECRET pe) "default-secret-change-in-production".
Definition jwt_expiresIn (pe : ProcessEnv) : string :=
  str_or (JWT_EXPIRE pe) "7d".
End config.

(** What a handler reads from its surroundings: the process environment,
    the clock ([Date.now()], in milliseconds) and the salt drawn by
    [bcrypt.genSalt(12)]. *)
Record Env : Type := mkEnv {
  penv : ProcessEnv;
  now : Z;
  salt : string
}.

(** ** The libraries the code calls *)

(** The claims of a token: [{ id, role }]. *)
Record TokenPayload : Type := mkPayload {
  tokId : nat;
  tokRole : string
}.

(** bcryptjs and jsonwebtoken.  [jwt_verify token secret now] is either
    the decoded claims or the error the library throws
    ([JsonWebTokenError], [TokenExpiredError]).  [jwt.sign] throws on
    options it refuses, as an [expiresIn] that is no time span:
    [jwt_sign_error payload secret expiresIn now] is then the error it
    throws; when it is [None] the call returns
    [jwt_sign payload secret expiresIn now]. *)
Class Externals : Type := {
  bcrypt_hash : string -> string -> string;
  bcrypt_compare : string -> string -> bool;
  jwt_sign : TokenPayload -> string -> string -> Z -> string;
  jwt_sign_error : TokenPayload -> string -> string -> Z -> option JsError;
  jwt_verify : string -> string -> Z -> JsError + TokenPayload
}.

(** ** User model (models/User.js) *)

Module User.

(** A user document.  Identifiers are ObjectIds, modelled as numbers.
    [password] is [None] on a document loaded without that path. *)
Record doc : Type := mkDoc {
  _id : nat;
  name : string;
  email : string;
  password : option string;
  role : string;
  isActive : bool;
  lastLogin : option Z;
  createdAt : Z;
  updatedAt : Z
}.

Definition set_password (p : option string) (d : doc) : doc :=
  {| _id := _id d; name := name d; email := email d; password := p;
     role := role d; isActive := isActive d; lastLogin := lastLogin d;
     createdAt := createdAt d; updatedAt := updatedAt d |}.

Definition set_lastLogin (t : Z) (d : doc) : doc :=
  {| _id := _id d; name := name d; email := email d; password := password d;
     role := role d; isActive := isActive d; lastLogin := Some t;
     createdAt := createdAt d; updatedAt := updatedAt d |}.

Definition set_updatedAt (t : Z) (d : doc) : doc :=
  {| _id := _id d; name := name d; email := email d; password := password d;
     role := role d; isActive := isActive d; lastLogin := lastLogin d;
     createdAt := createdAt d; updatedAt := t |}.

(** Field selection of a query.  [password] has [select: false], so the
    default projection leaves it out, as [select('-password')] does;
    [select('+password')] loads it. *)
Inductive Projection : Type := Default | MinusPassword | PlusPassword.

Definition project (p : Projection) (d : doc) : doc :=
  match p with
  | PlusPassword => d
  | Default | MinusPassword => set_password None d
  end.

(** A query is the stored document it will load, if any; [select]
    decides which paths come back. *)
Definition Query : Type := option doc.

Definition select (p : Projection) (q : Query) : option doc :=
  option_map (project p) q.

Definition findOne (cond : doc -> bool) (coll : list doc) : Query :=
  find cond coll.

Definition findById (coll : list doc) (id : nat) : Query :=
  findOne (fun d => Nat.eqb (_id d) id) coll.

(** [statics.findByEmail].  Mongoose casts the condition by the schema,
    which lower-cases the email once more and also trims it; here the
    lower-cased email is compared as it stands.  The two agree on an
    email without surrounding white space, and the statements on
    lookups that could tell them apart are restricted to such emails. *)
Definition findByEmail (coll : list doc) (email0 : string) : Query :=
  findOne (fun d => String.eqb (email d) (Js.toLowerCase email0)) coll.

(** [statics.findActiveUsers] *)
Definition findActiveUsers (coll : list doc) : list doc :=
  map (project Default) (filter isActive coll).

(** The [fullProfile] virtual. *)
Definition fullProfile (d : doc) : json :=
  JObj [("id", JNum (Z.of_nat (_id d)));
        ("name", JStr (name d));
        ("email", JStr (email d));
        ("role", JStr (role d));
        ("createdAt", JNum (createdAt d))].

(** [toObject()] with virtuals: the loaded paths, then the virtuals
    (the version key is left out). *)
Definition toObject (d : doc) : json :=
  JObj ([("_id", JNum (Z.of_nat (_id d)));
         ("name", JStr (name d));
         ("email", JStr (email d))]
        ++ match password d with
           | Some p => [("password", JStr p)]
           | None => []
           end
        ++ [("role", JStr (role d));
            ("isActive", JBool (isActive d))]
        ++ match lastLogin d with
           | Some t => [("lastLogin", JNum t)]
           | None => []
           end
        ++ [("createdAt", JNum (createdAt d));
            ("updatedAt", JNum (updatedAt d));
            ("fullProfile", fullProfile d);
            ("id", JNum (Z.of_nat (_id d)))]).

(** [methods.toJSON]: remove sensitive data from JSON output. *)
Definition toJSON (d : doc) : json :=
  let userObject := toObject d in
  delete_key "password" userObject.

(** Schema validators, one message for the first failing rule of a
    path.  A required string fails when absent or empty. *)
Definition check_name (v : option string) : list (string * string) :=
  match v with
  | None | Some "" => [("name", "Please provide a name")]
  | Some s =>
      if (Z.of_nat (String.length s) <? 2)
      then [("name", "Name must be at least 2 characters")]
      else if (50 <? Z.of_nat (String.length s))
      then [("name", "Name cannot exceed 50 characters")]
      else []
  end.

Definition check_email (v : option string) : list (string * string) :=
  match v with
  | None | Some "" => [("email", "Please provide an email")]
  | Some s =>
      if Re.matches Re.email_re s then []
      else [("email", "Please provide a valid email")]
  end.

Definition check_password (v : option string) : list (string * string) :=
  match v with
  | None | Some "" => [("password", "Please provide a password")]
  | Some s =>
      if (Z.of_nat (String.length s) <? 6)
      then [("password", "Password must be at least 6 characters")]
      else []
  end.

Section WithLibraries.
Context {ext : Externals}.

(** [methods.comparePassword]; the method needs the [password] path
    loaded. *)
Definition comparePassword (d : doc) (candidatePassword : string) : JsError + bool :=
  match password d with
  | Some h => inr (bcrypt_compare candidatePassword h)
  | None => inl (thrown "Error" "Illegal arguments: string, undefined")
  end.

(** [methods.generateToken]: the token, or the error [jwt.sign]
    throws. *)
Definition generateToken (env : Env) (d : doc) : JsError + string :=
  let payload := {| tokId := _id d; tokRole := role d |} in
  match jwt_sign_error payload (config.jwt_secret (penv env))
          (config.jwt_expiresIn (penv env)) (now env) with
  | Some err => inl err
  | None =>
      inr (jwt_sign payload (config.jwt_secret (penv env))
             (config.jwt_expiresIn (penv env)) (now env))
  end.

(** The pre-save hook: hash the password when it was modified. *)
Definition pre_save (env : Env) (passwordModified : bool) (d : doc) : doc :=
  if negb passwordModified then d
  else match password d with
       | Some p => set_password (Some (bcrypt_hash p (salt env))) d
       | None => d
       end.

(** [User.create({ name, email, password })] with a fresh identifier
    [oid]: setters ([trim], [lowercase]), defaults, validation, the
    pre-save hook, then the insert under the unique index on [email]. *)
Definition create (env : Env) (oid : nat) (coll : list doc)
    (name0 email0 password0 : option string) : JsError + (doc * list doc) :=
  let name1 := option_map Js.trim name0 in
  let email1 := option_map (fun e => Js.trim (Js.toLowerCase e)) email0 in
  match (check_name name1 ++ check_email email1 ++ check_password password0)%list with
  | (_ :: _) as errors => inl (ValidationError errors)
  | [] =>
      match name1, email1, password0 with
      | Some n, Some e, Some p =>
          let d := {| _id := oid; name := n; email := e; password := Some p;
                      role := "user"; isActive := true; lastLogin := None;
                      createdAt := now env; updatedAt := now env |} in
          let d := pre_save env true d in
          if existsb (fun x => String.eqb (email x) e) coll
          then inl (MongoDuplicateKey "email" e)
          else inr (d, (coll ++ [d])%list)
      | _, _, _ => inl (ValidationError [])
      end
  end.

(** [doc.save()] of a loaded document: the pre-save hook runs, then the
    stored document takes the paths of [d]; [password] is written only
    when it was modified, and [timestamps] stamps [updatedAt]. *)
Definition save (env : Env) (passwordModified : bool) (d : doc) (coll : list doc) : list doc :=
  let d' := pre_save env passwordModified d in
  map (fun x =>
         if Nat.eqb (_id x) (_id d')
         then set_updatedAt (now env)
                (set_password (if passwordModified then password d' else password x) d')
         else x) coll.

End WithLibraries.

(** The paths of an account a login leaves alone. *)
Definition core (d : doc)
    : nat * string * string * option string * string * bool * Z :=
  (_id d, name d, email d, password d, role d, isActive d, createdAt d).

End User.

(** ** Product model (models/Product.js)

    Numeric paths are integers here; the schema's [Number] amounts are
    taken in whole units. *)

Module Product.

Record doc : Type := mkDoc {
  _id : nat;
  name : string;
  description : string;
  price_amount : Z;
  price_currency : string;
  category : string;
  stock : Z;
  sku : string;
  tags : list string;
  images : list string;
  rating_average : Z;
  rating_count : Z;
  createdBy : nat;
  isActive : bool;
  createdAt : Z;
  updatedAt : Z
}.

(** The body of a PATCH request: the paths it sets. *)
Record patch : Type := mkPatch {
  p_name : option string;
  p_description : option string;
  p_price : option (Z * option string);
  p_category : option string;
  p_stock : option Z;
  p_sku : option string;
  p_tags : option (list string);
  p_images : option (list string);
  p_isActive : option bool
}.

Definition or_else {A} (o : option A) (d : A) : A :=
  match o with Some a => a | None => d end.

(** [Object.assign(product, body)], with the schema setters ([trim],
    [uppercase]) and the default currency of a new price. *)
Definition assign (d : doc) (b : patch) : doc :=
  {| _id := _id d;
     name := or_else (option_map Js.trim (p_name b)) (name d);
     description := or_else (option_map Js.trim (p_description b)) (description d);
     price_amount := match p_price b with Some (a, _) => a | None => price_amount d end;
     price_currency := match p_price b with
                       | Some (_, c) => or_else c "USD"
                       | None => price_currency d
                       end;
     category := or_else (p_category b) (category d);
     stock := or_else (p_stock b) (stock d);
     sku := or_else (option_map Js.toUpperCase (p_sku b)) (sku d);
     tags := or_else (p_tags b) (tags d);
     images := or_else (p_images b) (images d);
     rating_average := rating_average d;
     rating_count := rating_count d;
     createdBy := createdBy d;
     isActive := or_else (p_isActive b) (isActive d);
     createdAt := createdAt d;
     updatedAt := updatedAt d |}.

Definition set_isActive (v : bool) (d : doc) : doc :=
  assign d {| p_name := None; p_description := None; p_price := None;
              p_category := None; p_stock := None; p_sku := None;
              p_tags := None; p_images := None; p_isActive := Some v |}.

Definition set_updatedAt (t : Z) (d : doc) : doc :=
  {| _id := _id d; name := name d; description := description d;
     price_amount := price_amount d; price_currency := price_currency d;
     category := category d; stock := stock d; sku := sku d; tags := tags d;
     images := images d; rating_average := rating_average d;
     rating_count := rating_count d; createdBy := createdBy d;
     isActive := isActive d; createdAt := createdAt d; updatedAt := t |}.

Definition mem (s : string) (l : list string) : bool :=
  existsb (String.eqb s) l.

(** Mongoose's message for a value outside an [enum]. *)
Definition enum_message (v path : string) : string :=
  "`" ++ v ++ "` is not a valid enum value for path `" ++ path ++ "`.".

(** Mongoose's messages for a number outside [min] and [max]. *)
Definition min_message (path : string) (v m : Z) : string :=
  "Path `" ++ path ++ "` (" ++ Js.ofZ v ++ ") is less than minimum allowed value ("
  ++ Js.ofZ m ++ ").".
Definition max_message (path : string) (v m : Z) : string :=
  "Path `" ++ path ++ "` (" ++ Js.ofZ v ++ ") is more than maximum allowed value ("
  ++ Js.ofZ m ++ ").".

(** The validators [save()] runs on a loaded document: those of every
    path, modified or not. *)
Definition validate (d : doc) : list (string * string) :=
  ((if Js.truthy (name d) then [] else [("name", "Product name is required")])
   ++ (if negb (Js.truthy (description d))
       then [("description", "Product description is required")]
       else if (1000 <? Z.of_nat (String.length (description d)))
       then [("description", "Description cannot exceed 1000 characters")]
       else [])
   ++ (if (price_amount d <? 0)
       then [("price.amount", "Price cannot be negative")] else [])
   ++ (if mem (price_currency d) ["USD"; "EUR"; "GBP"] then []
       else [("price.currency", enum_message (price_currency d) "currency")])
   ++ (if negb (Js.truthy (category d))
       then [("category", "Path `category` is required.")]
       else if mem (category d) ["electronics"; "clothing"; "food"; "books"; "other"]
       then []
       else [("category", enum_message (category d) "category")])
   ++ (if (stock d <? 0) then [("stock", "Stock cannot be negative")] else [])
   ++ (if negb (Js.truthy (sku d))
       then [("sku", "Path `sku` is required.")]
       else if Re.matches Re.sku_re (sku d) then []
       else [("sku", "SKU must contain only uppercase letters, numbers, and hyphens")])
   ++ (if (Z.of_nat (List.length (images d)) <=? 5) then []
       else [("images", "Cannot have more than 5 images")])
   ++ (if (rating_average d <? 0)
       then [("rating.average", min_message "rating.average" (rating_average d) 0)]
       else if (5 <? rating_average d)
       then [("rating.average", max_message "rating.average" (rating_average d) 5)]
       else [])
   ++ (if (rating_count d <? 0)
       then [("rating.count", min_message "rating.count" (rating_count d) 0)]
       else []))%list.

Fixpoint strings_eqb (a b : list string) : bool :=
  match a, b with
  | [], [] => true
  | x :: a', y :: b' => String.eqb x y && strings_eqb a' b'
  | _, _ => false
  end.

(** Whether the assignment of [b] to the loaded document [p] modified a
    path: a scalar or an array set to the value it had is not a
    modification; a [price] set is one, the subdocument being built
    anew. *)
Definition modified (p : doc) (b : patch) : bool :=
  let d := assign p b in
  (match p_price b with Some _ => true | None => false end
   || negb (String.eqb (name d) (name p))
   || negb (String.eqb (description d) (description p))
   || negb (String.eqb (category d) (category p))
   || negb (stock d =? stock p)
   || negb (String.eqb (sku d) (sku p))
   || negb (strings_eqb (tags d) (tags p))
   || negb (strings_eqb (images d) (images p))
   || negb (Bool.eqb (isActive d) (isActive p)))%bool.

Definition findById (coll : list doc) (id : nat) : option doc :=
  find (fun d => Nat.eqb (_id d) id) coll.

(** Another document holds the [sku] of [d]. *)
Definition sku_taken (d : doc) (coll : list doc) : bool :=
  existsb (fun x => negb (Nat.eqb (_id x) (_id d)) && String.eqb (sku x) (sku d))%bool coll.

(** [doc.save()] of the document loaded as [p], after the paths of [b]
    were set on it: validation of the whole document; then, when a path
    was modified, [timestamps] stamps [updatedAt] and the document is
    written under the unique index on [sku].  With no path modified
    nothing is written.  The document having been loaded from the
    collection, its other paths are the stored ones. *)
Definition save (t : Z) (p : doc) (b : patch) (coll : list doc)
    : JsError + (doc * list doc) :=
  let d := assign p b in
  match validate d with
  | (_ :: _) as errors => inl (ValidationError errors)
  | [] =>
      if negb (modified p b) then inr (d, coll)
      else if (negb (String.eqb (sku d) (sku p)) && sku_taken d coll)%bool
      then inl (MongoDuplicateKey "sku" (sku d))
      else
        let d' := set_updatedAt t d in
        inr (d', map (fun x => if Nat.eqb (_id x) (_id d) then d' else x) coll)
  end.

(** The virtuals. *)
Definition isInStock (d : doc) : bool := 0 <? stock d.
Definition formattedPrice (d : doc) : string :=
  price_currency d ++ " " ++ Js.ofZ (price_amount d) ++ ".00".

(** The document as a response serialises it; [creator] is the populated
    [createdBy] when the query populated it. *)
Definition toJSON (creator : option json) (d : doc) : json :=
  JObj [("_id", JNum (Z.of_nat (_id d)));
        ("name", JStr (name d));
        ("description", JStr (description d));
        ("price", JObj [("amount", JNum (price_amount d));
                        ("currency", JStr (price_currency d))]);
        ("category", JStr (category d));
        ("stock", JNum (stock d));
        ("sku", JStr (sku d));
        ("tags", JArr (map JStr (tags d)));
        ("images", JArr (map JStr (images d)));
        ("rating", JObj [("average", JNum (rating_average d));
                         ("count", JNum (rating_count d))]);
        ("createdBy", match creator with
                      | Some c => c
                      | None => JNum (Z.of_nat (createdBy d))
                      end);
        ("isActive", JBool (isActive d));
        ("createdAt", JNum (createdAt d));
        ("updatedAt", JNum (updatedAt d));
        ("isInStock", JBool (isInStock d));
        ("formattedPrice", JStr (formattedPrice d));
        ("id", JNum (Z.of_nat (_id d)))].

(** [methods.updateStock]: refuse to go below zero, else add and save. *)
Definition stock_patch (v : Z) : patch :=
  {| p_name := None; p_description := None; p_price := None;
     p_category := None; p_stock := Some v; p_sku := None;
     p_tags := None; p_images := None; p_isActive := None |}.

Definition updateStock (t : Z) (quantity : Z) (d : doc) (coll : list doc)
    : JsError + (doc * list doc) :=
  if (stock d + quantity <? 0) then inl (thrown "Error" "Insufficient stock")
  else save t d (stock_patch (stock d + quantity)) coll.

(** [statics.findByCategory] *)
Definition findByCategory (coll : list doc) (category0 : string) : list doc :=
  filter (fun d => String.eqb (category d) category0 && isActive d)%bool coll.

(** [statics.findLowStock], the threshold 10 when none is given. *)
Definition findLowStock (coll : list doc) (threshold : option Z) : list doc :=
  let threshold := or_else threshold 10 in
  filter (fun d => (stock d <=? threshold) && isActive d)%bool coll.

(** [statics.searchProducts]; [text_match term d] is the verdict of the
    database's text index on [d] for [$text: { $search: term }]. *)
Definition searchProducts (text_match : string -> doc -> bool)
    (coll : list doc) (searchTerm : string) : list doc :=
  filter (fun d => text_match searchTerm d && isActive d)%bool coll.

(** The validators of a new document, path by path; an absent required
    path fails with its [required] message. *)
Definition validate_created (b : patch) (d : doc) : list (string * string) :=
  ((if Js.truthy (name d) then [] else [("name", "Product name is required")])
   ++ (if negb (Js.truthy (description d))
       then [("description", "Product description is required")]
       else if (1000 <? Z.of_nat (String.length (description d)))
       then [("description", "Description cannot exceed 1000 characters")]
       else [])
   ++ (match p_price b with
       | Some _ =>
           (if (price_amount d <? 0)
            then [("price.amount", "Price cannot be negative")] else [])
           ++ (if mem (price_currency d) ["USD"; "EUR"; "GBP"] then []
               else [("price.currency", enum_message (price_currency d) "currency")])
       | None => [("price", "Path `price` is required.")]
       end)
   ++ (match p_category b with
       | Some _ =>
           if mem (category d) ["electronics"; "clothing"; "food"; "books"; "other"]
           then []
           else [("category", enum_message (category d) "category")]
       | None => [("category", "Path `category` is required.")]
       end)
   ++ (if (stock d <? 0) then [("stock", "Stock cannot be negative")] else [])
   ++ (if negb (Js.truthy (sku d))
       then [("sku", "Path `sku` is required.")]
       else if Re.matches Re.sku_re (sku d) then []
       else [("sku", "SKU must contain only uppercase letters, numbers, and hyphens")])
   ++ (if (Z.of_nat (List.length (images d)) <=? 5) then []
       else [("images", "Cannot have more than 5 images")]))%list.

(** The document [Product.create] builds from the paths of [b]: schema
    defaults, then the given paths through their setters. *)
Definition fresh (t : Z) (oid creator : nat) (b : patch) : doc :=
  assign {| _id := oid; name := ""; description := ""; price_amount := 0;
            price_currency := "USD"; category := ""; stock := 0; sku := "";
            tags := []; images := []; rating_average := 0; rating_count := 0;
            createdBy := creator; isActive := true;
            createdAt := t; updatedAt := t |} b.

(** [Product.create({ ...body, createdBy })] with a fresh identifier:
    validation, then the insert under the unique index on [sku]. *)
Definition create (t : Z) (oid creator : nat) (b : patch) (coll : list doc)
    : JsError + (doc * list doc) :=
  let d := fresh t oid creator b in
  match validate_created b d with
  | (_ :: _) as errors => inl (ValidationError errors)
  | [] =>
      if existsb (fun x => String.eqb (sku x) (sku d)) coll
      then inl (MongoDuplicateKey "sku" (sku d))
      else inr (d, (coll ++ [d])%list)
  end.

End Product.

(** ** The document store and the request *)

Record Store : Type := mkStore {
  users : list User.doc;
  products : list Product.doc;
  next_oid : nat                 (* the next fresh ObjectId *)
}.

Definition set_users (us : list User.doc) (st : Store) : Store :=
  {| users := us; products := products st; next_oid := next_oid st |}.
Definition set_products (ps : list Product.doc) (st : Store) : Store :=
  {| users := users st; products := ps; next_oid := next_oid st |}.

(** The parts of an Express request the code reads.  [B] is the type of
    the parsed body of the route.  [user] is [req.user], [None] while it
    is [undefined] or [null]. *)
Record Request (B : Type) : Type := mkRequest {
  originalUrl : string;
  authorization : option string;              (* req.headers.authorization *)
  cookies : option (list (string * string));  (* req.cookies *)
  params_id : nat;                            (* req.params.id *)
  body : B;
  user : option User.doc
}.
Arguments originalUrl {B}.
Arguments authorization {B}.
Arguments cookies {B}.
Arguments params_id {B}.
Arguments body {B}.
Arguments user {B}.

Definition set_user {B} (u : option User.doc) (req : Request B) : Request B :=
  {| originalUrl := originalUrl req; authorization := authorization req;
     cookies := cookies req; params_id := params_id req; body := body req;
     user := u |}.

(** What a middleware or handler does with the request: [next()],
    [next(err)] (or a throw, which Express and [asyncHandler] turn into
    it), or a response. *)
Inductive Step (B : Type) : Type :=
| Next (req : Request B)
| Fail (req : Request B) (err : JsError)
| Send (res : Response).
Arguments Next {B}.
Arguments Fail {B}.
Arguments Send {B}.

Definition Middleware (B : Type) : Type :=
  Env -> Store -> Request B -> Store * Step B.

(** ** Authentication middleware (middleware/auth.js) *)

Module auth.
Section WithLibraries.
Context {ext : Externals} {B : Type}.

(** [req.cookies && req.cookies.token], when truthy. *)
Definition cookie_token (req : Request B) : option string :=
  match cookies req with
  | Some cs =>
      match find (fun kv => String.eqb (fst kv) "token") cs with
      | Some (_, t) => if Js.truthy t then Some t else None
      | None => None
      end
  | None => None
  end.

(** The token both middleware read: the second piece of a header that
    starts with [Bearer], else the cookie.  [None] is [undefined]. *)
Definition request_token (req : Request B) : option string :=
  match authorization req with
  | Some h =>
      if (Js.truthy h && Js.startsWith h "Bearer")%bool
      then Js.index (Js.split " " h) 1
      else cookie_token req
  | None => cookie_token req
  end.

Definition not_authorized : JsError :=
  AppError "Not authorized to access this route" 401.

(** [protect]: verify the token, load the user, check it is active. *)
Definition protect : Middleware B := fun env st req =>
  match request_token req with
  | None => (st, Fail req not_authorized)
  | Some token =>
      if negb (Js.truthy token) then (st, Fail req not_authorized)
      else
        match jwt_verify token (config.jwt_secret (penv env)) (now env) with
        | inl _error => (st, Fail req not_authorized)
        | inr decoded =>
            let req := set_user (User.select User.MinusPassword
                                   (User.findById (users st) (tokId decoded))) req in
            match user req with
            | None => (st, Fail req (AppError "User no longer exists" 401))
            | Some u =>
                if negb (User.isActive u)
                then (st, Fail req (AppError "User account is inactive" 401))
                else (st, Next req)
            end
        end
  end.

(** [authorize(...roles)]: reading [req.user.role] of an absent user
    throws. *)
Definition authorize (roles : list string) : Middleware B := fun env st req =>
  match user req with
  | None =>
      (st, Fail req (TypeError "Cannot read properties of undefined (reading 'role')"))
  | Some u =>
      if negb (existsb (String.eqb (User.role u)) roles)
      then (st, Fail req
                  (AppError ("User role '" ++ User.role u
                             ++ "' is not authorized to access this route") 403))
      else (st, Next req)
  end.

(** [optionalAuth]: attach the user if the token resolves, never fail. *)
Definition optionalAuth : Middleware B := fun env st req =>
  match request_token req with
  | None => (st, Next req)
  | Some token =>
      if negb (Js.truthy token) then (st, Next req)
      else
        match jwt_verify token (config.jwt_secret (penv env)) (now env) with
        | inl _error => (st, Next req)
        | inr decoded =>
            (st, Next (set_user (User.select User.MinusPassword
                                   (User.findById (users st) (tokId decoded))) req))
        end
  end.

End WithLibraries.
End auth.

(** ** Authentication controller (controllers/authController.js) *)

(** The body of the register and login requests. *)
Record AuthBody : Type := mkAuthBody {
  b_name : option string;
  b_email : option string;
  b_password : option string
}.

Module authController.
Section WithLibraries.
Context {ext : Externals}.

(** The cookie both register and login set: seven days, script-hidden,
    HTTPS-only in production, same-site strict. *)
Definition token_cookie (env : Env) (token : string) : Cookie :=
  {| cookieName := "token"; cookieValue := token;
     cookieExpires := now env + 7 * 24 * 60 * 60 * 1000;
     cookieHttpOnly := true;
     cookieSecure := config.isProduction (penv env);
     cookieSameSite := Some "strict" |}.

Definition user_summary (u : User.doc) : json :=
  JObj [("id", JNum (Z.of_nat (User._id u)));
        ("name", JStr (User.name u));
        ("email", JStr (User.email u));
        ("role", JStr (User.role u))].

Definition token_response (code : Z) (env : Env) (u : User.doc) (token : string) : Response :=
  {| resStatus := code;
     resBody := JObj [("status", JStr "success");
                      ("data", JObj [("user", user_summary u);
                                     ("token", JStr token)])];
     resCookies := [token_cookie env token] |}.

Definition falsy (v : option string) : bool :=
  match v with Some s => negb (Js.truthy s) | None => true end.

(** POST /api/auth/register *)
Definition register : Middleware AuthBody := fun env st req =>
  let name := b_name (body req) in
  let email := b_email (body req) in
  let password := b_password (body req) in
  match email with
  | None =>
      (st, Fail req (TypeError "Cannot read properties of undefined (reading 'toLowerCase')"))
  | Some e =>
      match User.select User.Default (User.findByEmail (users st) e) with
      | Some _existingUser =>
          (st, Fail req (AppError "User already exists with this email"
                           StatusCodes.BAD_REQUEST))
      | None =>
          match User.create env (next_oid st) (users st) name email password with
          | inl err => (st, Fail req err)
          | inr (u, users') =>
              let st' := {| users := users'; products := products st;
                            next_oid := S (next_oid st) |} in
              match User.generateToken env u with
              | inl err => (st', Fail req err)
              | inr token =>
                  (st', Send (token_response StatusCodes.CREATED env u token))
              end
          end
      end
  end.

(** POST /api/auth/login *)
Definition login : Middleware AuthBody := fun env st req =>
  let email := b_email (body req) in
  let password := b_password (body req) in
  if (falsy email || falsy password)%bool
  then (st, Fail req (AppError "Please provide email and password"
                        StatusCodes.BAD_REQUEST))
  else
    match email, password with
    | Some e, Some p =>
        match User.select User.PlusPassword (User.findByEmail (users st) e) with
        | None =>
            (st, Fail req (AppError "Invalid credentials" StatusCodes.UNAUTHORIZED))
        | Some u =>
            if negb (User.isActive u)
            then (st, Fail req (AppError "Account is inactive" StatusCodes.UNAUTHORIZED))
            else
              match User.comparePassword u p with
              | inl err => (st, Fail req err)
              | inr false =>
                  (st, Fail req (AppError "Invalid credentials" StatusCodes.UNAUTHORIZED))
              | inr true =>
                  let u := User.set_lastLogin (now env) u in
                  let st' := set_users (User.save env false u (users st)) st in
                  match User.generateToken env u with
                  | inl err => (st', Fail req err)
                  | inr token =>
                      (st', Send (token_response StatusCodes.OK env u token))
                  end
              end
        end
    | _, _ =>
        (st, Fail req (AppError "Please provide email and password"
                         StatusCodes.BAD_REQUEST))
    end.

(** GET /api/auth/me *)
Definition getMe {B} : Middleware B := fun env st req =>
  match user req with
  | None =>
      (st, Fail req (TypeError "Cannot read properties of undefined (reading 'id')"))
  | Some ru =>
      let u := User.select User.Default (User.findById (users st) (User._id ru)) in
      (st, Send {| resStatus := StatusCodes.OK;
                   resBody := JObj [("status", JStr "success");
                                    ("data", JObj [("user", json_opt User.toJSON u)])];
                   resCookies := [] |})
  end.

(** POST /api/auth/logout *)
Definition logout {B} : Middleware B := fun env st req =>
  (st, Send {| resStatus := StatusCodes.OK;
               resBody := JObj [("status", JStr "success");
                                ("message", JStr "Logged out successfully")];
               resCookies := [ {| cookieName := "token"; cookieValue := "none";
                                  cookieExpires := now env + 10 * 1000;
                                  cookieHttpOnly := true;
                                  cookieSecure := false;
                                  cookieSameSite := None |} ] |}).

End WithLibraries.
End authController.

(** ** Product controller (controllers/productController.js) *)

Module productController.

Definition not_found : JsError := AppError "Product not found" StatusCodes.NOT_FOUND.

(** [populate('createdBy', 'name email')] *)
Definition populate_createdBy (us : list User.doc) (p : Product.doc) : json :=
  match User.findById us (Product.createdBy p) with
  | Some u => JObj [("_id", JNum (Z.of_nat (User._id u)));
                    ("name", JStr (User.name u));
                    ("email", JStr (User.email u))]
  | None => JNull
  end.

Definition product_response (creator : option json) (p : Product.doc) : Response :=
  {| resStatus := StatusCodes.OK;
     resBody := JObj [("status", JStr "success");
                      ("data", JObj [("product", Product.toJSON creator p)])];
     resCookies := [] |}.

(** GET /api/products/:id *)
Definition getProduct {B} : Middleware B := fun env st req =>
  match Product.findById (products st) (params_id req) with
  | None => (st, Fail req not_found)
  | Some product =>
      if negb (Product.isActive product) then (st, Fail req not_found)
      else (st, Send (product_response
                        (Some (populate_createdBy (users st) product)) product))
  end.

(** PATCH /api/products/:id *)
Definition updateProduct : Middleware Product.patch := fun env st req =>
  match Product.findById (products st) (params_id req) with
  | None => (st, Fail req not_found)
  | Some product =>
      match Product.save (now env) product (body req) (products st) with
      | inl err => (st, Fail req err)
      | inr (product, products') =>
          (set_products products' st, Send (product_response None product))
      end
  end.

Definition soft_delete : Product.patch :=
  {| Product.p_name := None; Product.p_description := None;
     Product.p_price := None; Product.p_category := None;
     Product.p_stock := None; Product.p_sku := None; Product.p_tags := None;
     Product.p_images := None; Product.p_isActive := Some false |}.

Definition deleted_answer : Response :=
  {| resStatus := StatusCodes.OK;
     resBody := JObj [("status", JStr "success");
                      ("message", JStr "Product deleted successfully")];
     resCookies := [] |}.

(** DELETE /api/products/:id: soft delete, set [isActive] to false. *)
Definition deleteProduct {B} : Middleware B := fun env st req =>
  match Product.findById (products st) (params_id req) with
  | None => (st, Fail req not_found)
  | Some product =>
      match Product.save (now env) product soft_delete (products st) with
      | inl err => (st, Fail req err)
      | inr (_, products') => (set_products products' st, Send deleted_answer)
      end
  end.

(** POST /api/products *)
Definition createProduct : Middleware Product.patch := fun env st req =>
  match user req with
  | None =>
      (st, Fail req (TypeError "Cannot read properties of undefined (reading 'id')"))
  | Some u =>
      match Product.create (now env) (next_oid st) (User._id u) (body req)
              (products st) with
      | inl err => (st, Fail req err)
      | inr (product, products') =>
          ({| users := users st; products := products';
              next_oid := S (next_oid st) |},
           Send {| resStatus := StatusCodes.CREATED;
                   resBody := JObj [("status", JStr "success");
                                    ("data", JObj [("product",
                                                    Product.toJSON None product)])];
                   resCookies := [] |})
      end
  end.

(** GET /api/products/search, [q] being [req.query.q]. *)
Definition searchProducts {B} (text_match : string -> Product.doc -> bool)
    (q : option string) : Middleware B := fun env st req =>
  match q with
  | Some q0 =>
      if Js.truthy q0 then
        let found := Product.searchProducts text_match (products st) q0 in
        (st, Send {| resStatus := StatusCodes.OK;
                     resBody := JObj [("status", JStr "success");
                                      ("results", JNum (Z.of_nat (List.length found)));
                                      ("data", JObj [("products",
                                                      JArr (map (Product.toJSON None) found))])];
                     resCookies := [] |})
      else
        (st, Send {| resStatus := StatusCodes.BAD_REQUEST;
                     resBody := JObj [("status", JStr "error");
                                      ("message", JStr "Search query is required")];
                     resCookies := [] |})
  | None =>
      (st, Send {| resStatus := StatusCodes.BAD_REQUEST;
                   resBody := JObj [("status", JStr "error");
                                    ("message", JStr "Search query is required")];
                   resCookies := [] |})
  end.

(** The page arithmetic of GET /api/products: [page] and [limit] from
    the query, the offset, and the page count for [total] matches. *)
Record Paging : Type := mkPaging {
  pg_page : JsNum.number;
  pg_limit : JsNum.number;
  pg_skip : JsNum.number;
  pg_pages : JsNum.number
}.

Definition paging (page0 limit0 : option string) (total : Z) : Paging :=
  let page := JsNum.or (JsNum.parseInt page0) (JsNum.Fin 1) in
  let limit := JsNum.or (JsNum.parseInt limit0) (JsNum.Fin 10) in
  let skip := JsNum.mul (JsNum.sub page (JsNum.Fin 1)) limit in
  {| pg_page := page; pg_limit := limit; pg_skip := skip;
     pg_pages := JsNum.ceil_div (JsNum.Fin total) limit |}.

End productController.

(** ** Validation middleware (middleware/validation.js) *)

(** One entry of express-validator's [validationResult(req).array()]. *)
Record ValidationItem : Type := mkValidationItem {
  vi_path : option string;
  vi_param : option string;
  vi_msg : string;
  vi_value : option json
}.

(** [new AppError(message, statusCode, details)] *)
Definition AppErrorDetails (message : string) (statusCode : Z) (details : json) : JsError :=
  {| errName := "Error";
     errMessage := message;
     errStatusCode := Some statusCode;
     errStatus := Some (if Js.startsWith (Js.ofZ statusCode) "4" then "fail" else "error");
     errIsOperational := true;
     errDetails := Some details;
     errCode := None;
     errKeyValue := [];
     errErrors := [];
     errPath := None; errValue := None |}.

Module validation.

(** [a || b] on two optional strings. *)
Definition first_truthy (a b : option string) : option string :=
  match a with
  | Some s => if Js.truthy s then a else b
  | None => b
  end.

(** [{ field, message, value }]; an [undefined] property is not
    serialised. *)
Definition item_json (e : ValidationItem) : json :=
  JObj ((match first_truthy (vi_path e) (vi_param e) with
         | Some f => [("field", JStr f)]
         | None => []
         end)
        ++ [("message", JStr (vi_msg e))]
        ++ match vi_value e with
           | Some v => [("value", v)]
           | None => []
           end).

(** [validate], [errors] being what the validators before it left on
    the request. *)
Definition validate {B} (errors : list ValidationItem) : Middleware B :=
  fun env st req =>
    match errors with
    | _ :: _ =>
        let errorMessages := map item_json errors in
        (st, Fail req (AppErrorDetails "Validation failed" 400
                         (JObj [("errors", JArr errorMessages)])))
    | [] => (st, Next req)
    end.

End validation.

(** ** The chain of a route

    Express runs the stages of a route in order; the first that fails or
    responds ends the chain.  A chain that runs out reaches [notFound];
    every error reaches [errorHandler]. *)

Definition notFound {B} (req : Request B) : JsError :=
  AppError ("Route " ++ originalUrl req ++ " not found") 404.

Record Outcome : Type := mkOutcome {
  out_store : Store;
  out_response : Response;
  out_invoked : nat             (* how many stages of the chain ran *)
}.

Fixpoint dispatch_from {B} (n : nat) (chain : list (Middleware B))
    (env : Env) (st : Store) (req : Request B) : Outcome :=
  match chain with
  | [] =>
      {| out_store := st;
         out_response := errorHandler (config.isDevelopment (penv env)) (notFound req);
         out_invoked := n |}
  | stage :: rest =>
      match stage env st req with
      | (st', Next req') => dispatch_from (S n) rest env st' req'
      | (st', Fail _ err) =>
          {| out_store := st';
             out_response := errorHandler (config.isDevelopment (penv env)) err;
             out_invoked := S n |}
      | (st', Send res) =>
          {| out_store := st'; out_response := res; out_invoked := S n |}
      end
  end.

Definition dispatch {B} : list (Middleware B) -> Env -> Store -> Request B -> Outcome :=
  dispatch_from 0.

(** The chains of routes/authRoutes.js and routes/productRoutes.js, from
    the first stage defined in the sources on. *)
Module routes.
Section WithLibraries.
Context {ext : Externals}.
Definition me {B} : list (Middleware B) := [auth.protect; authController.getMe].
Definition logout {B} : list (Middleware B) := [auth.protect; authController.logout].
Definition getProduct {B} : list (Middleware B) := [productController.getProduct].
Definition updateProduct : list (Middleware Product.patch) :=
  [auth.protect; auth.authorize ["admin"]; productController.updateProduct].
Definition deleteProduct {B} : list (Middleware B) :=
  [auth.protect; auth.authorize ["admin"]; productController.deleteProduct].
(** The chains with their [validate] stage, [errors] being the findings
    of the express-validator rules that precede it. *)
Definition register (errors : list ValidationItem) : list (Middleware AuthBody) :=
  [validation.validate errors; authController.register].
Definition login (errors : list ValidationItem) : list (Middleware AuthBody) :=
  [validation.validate errors; authController.login].
Definition createProduct (errors : list ValidationItem) : list (Middleware Product.patch) :=
  [auth.protect; auth.authorize ["admin"]; validation.validate errors;
   productController.createProduct].
End WithLibraries.
End routes.

(** ** The rest of the configuration (config/config.js) *)

(** The environment variables the configuration reads. *)
Record ServerEnv : Type := mkServerEnv {
  base : ProcessEnv;
  PORT : option string;
  MONGODB_URI : option string;
  JWT_COOKIE_EXPIRE : option string;
  RATE_LIMIT_WINDOW_MS : option string;
  RATE_LIMIT_MAX_REQUESTS : option string;
  CORS_ORIGIN : option string
}.

Module settings.

Definition env (se : ServerEnv) : string :=
  str_or (NODE_ENV (base se)) "development".
Definition port (se : ServerEnv) : JsNum.number :=
  JsNum.or (JsNum.parseInt (PORT se)) (JsNum.Fin 3000).
Definition isTest (se : ServerEnv) : bool :=
  match NODE_ENV (base se) with Some e => String.eqb e "test" | None => false end.
Definition mongodb_uri (se : ServerEnv) : string :=
  str_or (MONGODB_URI se) "mongodb://localhost:27017/express-advanced".
Definition jwt_cookieExpires (se : ServerEnv) : JsNum.number :=
  JsNum.or (JsNum.parseInt (JWT_COOKIE_EXPIRE se)) (JsNum.Fin 7).
Definition rateLimit_windowMs (se : ServerEnv) : JsNum.number :=
  JsNum.or
    (JsNum.mul (JsNum.mul (JsNum.parseInt (RATE_LIMIT_WINDOW_MS se)) (JsNum.Fin 60))
       (JsNum.Fin 1000))
    (JsNum.mul (JsNum.mul (JsNum.Fin 15) (JsNum.Fin 60)) (JsNum.Fin 1000)).
Definition rateLimit_max (se : ServerEnv) : JsNum.number :=
  JsNum.or (JsNum.parseInt (RATE_LIMIT_MAX_REQUESTS se)) (JsNum.Fin 100).
Definition cors_origin (se : ServerEnv) : string :=
  str_or (CORS_ORIGIN se) "http://localhost:3000".

(** [process.env[varName]] for the two required variables. *)
Definition lookup (se : ServerEnv) (varName : string) : option string :=
  if String.eqb varName "MONGODB_URI" then MONGODB_URI se
  else if String.eqb varName "JWT_SECRET" then JWT_SECRET (base se)
  else None.

Definition missingVars (se : ServerEnv) : list string :=
  filter (fun varName => authController.falsy (lookup se varName))
    ["MONGODB_URI"; "JWT_SECRET"].

(** Loading the module: in production with a required variable missing
    the process exits with code 1 ([inl], with the variables it
    reports); otherwise the configuration is exported. *)
Definition load (se : ServerEnv) : list string + ServerEnv :=
  if config.isProduction (base se) then
    match missingVars se with
    | (_ :: _) as missing => inl missing
    | [] => inr se
    end
  else inr se.

(** [level()] of utils/logger.js *)
Definition logger_level (se : ServerEnv) : string :=
  let env0 := str_or (Some (env se)) "development" in
  if String.eqb env0 "development" then "debug" else "warn".

End settings.

(** ** A reference implementation of the libraries

    A transparent stand-in for bcryptjs and jsonwebtoken, used to run the
    model on concrete requests.  A hash spells out its salt and input; a
    token is [id.role.exp.key], where [exp] is the expiry in seconds and
    [key] the signing key.  As in jsonwebtoken, [verify] checks the
    signature before the expiry. *)

Module Reference.

Definition hash (password salt : string) : string :=
  "$2a$12$" ++ salt ++ "$" ++ password.

Definition compare (candidate hashed : string) : bool :=
  match Js.split "$" hashed with
  | _ :: "2a" :: "12" :: _ :: rest => String.eqb (Js.join "$" rest) candidate
  | _ => false
  end.

Definition span (expiresIn : string) : Z :=
  if String.eqb expiresIn "7d" then 7 * 24 * 60 * 60
  else if String.eqb expiresIn "1h" then 60 * 60
  else 0.

Definition of_nat (n : nat) : string := NilZero.string_of_uint (Nat.to_uint n).
Definition to_nat (s : string) : option nat :=
  option_map Nat.of_uint (NilZero.uint_of_string s).
Definition to_Z (s : string) : option Z :=
  option_map Z.of_int (NilZero.int_of_string s).

Definition sign (payload : TokenPayload) (secret expiresIn : string) (now : Z) : string :=
  of_nat (tokId payload) ++ "." ++ tokRole payload ++ "."
  ++ Js.ofZ (now / 1000 + span expiresIn) ++ "." ++ secret.

(** The spans the stand-in knows; it refuses any other. *)
Definition sign_error (payload : TokenPayload) (secret expiresIn : string) (now : Z)
    : option JsError :=
  if (String.eqb expiresIn "7d" || String.eqb expiresIn "1h")%bool then None
  else Some (thrown "Error"
               "expiresIn should be a number of seconds or string representing a timespan").

Definition verify (token secret : string) (now : Z) : JsError + TokenPayload :=
  match Js.split "." token with
  | [i; r; e; k] =>
      match to_nat i, to_Z e with
      | Some id, Some exp =>
          if negb (String.eqb k secret)
          then inl (thrown "JsonWebTokenError" "invalid signature")
          else if (exp <=? now / 1000)
          then inl (thrown "TokenExpiredError" "jwt expired")
          else inr {| tokId := id; tokRole := r |}
      | _, _ => inl (thrown "JsonWebTokenError" "invalid token")
      end
  | _ => inl (thrown "JsonWebTokenError" "jwt malformed")
  end.

Definition ext : Externals :=
  {| bcrypt_hash := hash; bcrypt_compare := compare;
     jwt_sign := sign; jwt_sign_error := sign_error; jwt_verify := verify |}.

End Reference.

(** ** Sample data *)

Module Sample.

Definition production : ProcessEnv :=
  {| NODE_ENV := Some "production"; JWT_SECRET := Some "s3cret"; JWT_EXPIRE := None |}.

Definition development : ProcessEnv :=
  {| NODE_ENV := Some "development"; JWT_SECRET := Some "s3cret"; JWT_EXPIRE := None |}.

(** 2023-11-14T22:13:20Z *)
Definition env : Env := {| penv := production; now := 1700000000000; salt := "abcdefghijklmnopqrstuv" |}.
Definition env_dev : Env := {| penv := development; now := 1700000000000; salt := "abcdefghijklmnopqrstuv" |}.

Definition empty : Store := {| users := []; products := []; next_oid := 1 |}.

Definition request {B} (auth : option string) (cks : option (list (string * string)))
    (id : nat) (b : B) : Request B :=
  {| originalUrl := "/api"; authorization := auth; cookies := cks;
     params_id := id; body := b; user := None |}.

Definition john : AuthBody :=
  {| b_name := Some "John Doe"; b_email := Some "john@example.com";
     b_password := Some "Password123" |}.

(** The store after John registered. *)
Definition with_john : Store :=
  fst (authController.register (ext := Reference.ext) env empty (request None None 0 john)).

Definition john_doc : User.doc :=
  {| User._id := 1; User.name := "John Doe"; User.email := "john@example.com";
     User.password := Some "$2a$12$abcdefghijklmnopqrstuv$Password123";
     User.role := "user"; User.isActive := true; User.lastLogin := None;
     User.createdAt := 1700000000000; User.updatedAt := 1700000000000 |}.

Definition set_active (a : bool) (d : User.doc) : User.doc :=
  {| User._id := User._id d; User.name := User.name d; User.email := User.email d;
     User.password := User.password d; User.role := User.role d;
     User.isActive := a; User.lastLogin := User.lastLogin d;
     User.createdAt := User.createdAt d; User.updatedAt := User.updatedAt d |}.

(** The same store with John's account disabled. *)
Definition with_inactive_john : Store :=
  {| users := [set_active false john_doc]; products := []; next_oid := 2 |}.

(** Tokens for John: a live one, one whose expiry has passed, and one
    signed with another key. *)
Definition live_token : string := "1.user.1700604800.s3cret".
Definition expired_token : string := "1.user.1600000000.s3cret".
Definition forged_token : string := "1.user.1700604800.other".
Definition expired_forged_token : string := "1.user.1600000000.other".

Definition bearer (token : string) : option string := Some ("Bearer " ++ token).

Definition widget : Product.doc :=
  {| Product._id := 7; Product.name := "Widget"; Product.description := "A widget";
     Product.price_amount := 10; Product.price_currency := "USD";
     Product.category := "other"; Product.stock := 3; Product.sku := "W-1";
     Product.tags := []; Product.images := []; Product.rating_average := 0;
     Product.rating_count := 0; Product.createdBy := 1; Product.isActive := false;
     Product.createdAt := 1690000000000; Product.updatedAt := 1690000000000 |}.

Definition ada_doc : User.doc :=
  {| User._id := 2; User.name := "Ada"; User.email := "ada@example.com";
     User.password := Some "$2a$12$abcdefghijklmnopqrstuv$Adm1nPass";
     User.role := "admin"; User.isActive := true; User.lastLogin := None;
     User.createdAt := 1690000000000; User.updatedAt := 1690000000000 |}.

Definition admin_token : string := "2.admin.1700604800.s3cret".

(** A store whose only product is soft-deleted. *)
Definition with_deleted_widget : Store :=
  {| users := [john_doc; ada_doc]; products := [widget]; next_oid := 8 |}.

Definition restock : Product.patch :=
  {| Product.p_name := Some "Widget v2"; Product.p_description := None;
     Product.p_price := None; Product.p_category := None;
     Product.p_stock := Some 5; Product.p_sku := None; Product.p_tags := None;
     Product.p_images := None; Product.p_isActive := None |}.

End Sample.

(** Requests over the sample store, run with the reference libraries. *)

Module Runs.

Definition E := Reference.ext.

Definition with_bearer (token : string) : Request unit :=
  Sample.request (Sample.bearer token) None 0 tt.

Definition as_user (u : User.doc) : Request unit :=
  set_user (Some u) (Sample.request None None 0 tt).

Definition credentials (email password : string) : Request AuthBody :=
  Sample.request None None 0
    {| b_name := None; b_email := Some email; b_password := Some password |}.

End Runs.

(** ** The operations of the API and the states they reach *)

Section Operations.
Context {ext : Externals}.

(** A request to one of the routes. *)
Inductive Call : Type :=
| CallRegister (req : Request AuthBody)
| CallLogin (req : Request AuthBody)
| CallMe (req : Request unit)
| CallLogout (req : Request unit)
| CallGetProduct (req : Request unit)
| CallUpdateProduct (req : Request Product.patch)
| CallDeleteProduct (req : Request unit).

Definition serve (env : Env) (st : Store) (c : Call) : Outcome :=
  match c with
  | CallRegister req => dispatch [authController.register] env st req
  | CallLogin req => dispatch [authController.login] env st req
  | CallMe req => dispatch routes.me env st req
  | CallLogout req => dispatch routes.logout env st req
  | CallGetProduct req => dispatch routes.getProduct env st req
  | CallUpdateProduct req => dispatch routes.updateProduct env st req
  | CallDeleteProduct req => dispatch routes.deleteProduct env st req
  end.

(** Express hands a request to the first stage with no user attached. *)
Definition call_user (c : Call) : option User.doc :=
  match c with
  | CallRegister req | CallLogin req => user req
  | CallMe req | CallLogout req | CallGetProduct req | CallDeleteProduct req =>
      user req
  | CallUpdateProduct req => user req
  end.

Definition incoming (c : Call) : Prop := call_user c = None.

(** The stores the API reaches from one without accounts. *)
Inductive reachable : Store -> Prop :=
| reach_init (ps : list Product.doc) (n : nat) :
    reachable {| users := []; products := ps; next_oid := n |}
| reach_serve (env : Env) (st : Store) (c : Call) :
    reachable st -> reachable (out_store (serve env st c)).

(** A stored secret is in hashed form: it is an output of
    [bcrypt.hash]. *)
Definition hashed (h : string) : Prop :=
  exists password0 salt0, h = bcrypt_hash password0 salt0.







(** What [bcrypt.compare] says of a candidate against the stored secret
    of an account; [None] when the account has none. *)
Definition verdict (candidate : string) (u : User.doc) : option bool :=
  option_map (bcrypt_compare candidate) (User.password u).

(** Two accounts alike in every path but the stored secret, which no
    password check tells apart; two stores whose accounts are so, one by
    one, and whose products and next identifier are the same. *)
Definition alike (u1 u2 : User.doc) : Prop :=
  User.set_password None u1 = User.set_password None u2
  /\ forall candidate, verdict candidate u1 = verdict candidate u2.

Definition same_public (st1 st2 : Store) : Prop :=
  products st1 = products st2 /\ next_oid st1 = next_oid st2
  /\ Forall2 alike (users st1) (users st2).


(** Logging out once per clock reading of [envs], in succession. *)
Fixpoint logout_each {B} (envs : list Env) (st : Store) (req : Request B)
    : Store * list Response :=
  match envs with
  | [] => (st, [])
  | env :: rest =>
      match authController.logout env st req with
      | (st', Send res) =>
          let '(st'', rs) := logout_each rest st' req in (st'', res :: rs)
      | (st', _) => (st', [])
      end
  end.

End Operations.

(** The client's cookie store after a response: each cookie of the
    response replaces the one of its name. *)
Definition jar_set (jar : list Cookie) (c : Cookie) : list Cookie :=
  c :: filter (fun k => negb (String.eqb (cookieName k) (cookieName c))) jar.

Definition receive (jar : list Cookie) (res : Response) : list Cookie :=
  fold_left jar_set (resCookies res) jar.

(** The cookies a client sends at time [t]: those that have not expired. *)
Definition jar_send (t : Z) (jar : list Cookie) : list (string * string) :=
  map (fun c => (cookieName c, cookieValue c))
    (filter (fun c => t <? cookieExpires c) jar).

Definition step_error {B} (s : Step B) : option JsError :=
  match s with Fail _ err => Some err | _ => None end.

Definition set_cookies {B} (cks : option (list (string * string))) (req : Request B) : Request B :=
  {| originalUrl := originalUrl req; authorization := authorization req;
     cookies := cks; params_id := params_id req; body := body req;
     user := user req |}.

(** A client that logs out once per clock reading of [envs] through
    the route: with each request it sends the cookies of its store that
    have not expired, and it keeps the cookies of each answer.  The
    header of [req], if any, is sent each time. *)
Fixpoint logout_session {ext : Externals} {B} (envs : list Env) (st : Store)
    (jar : list Cookie) (req : Request B)
    : Store * list Cookie * list Response :=
  match envs with
  | [] => (st, jar, [])
  | env :: rest =>
      let out :=
        dispatch routes.logout env st
          (set_cookies (Some (jar_send (now env) jar)) req) in
      let '(st', jar', rs) :=
        logout_session rest (out_store out) (receive jar (out_response out)) req in
      (st', jar', out_response out :: rs)
  end.

(** No space occurs in [s]. *)
Fixpoint spaceless (s : string) : bool :=
  match s with
  | "" => true
  | String c r => negb (Ascii.eqb c " ") && spaceless r
  end.

(** Case analysis on the scrutinee of a [match], in the goal or in a
    hypothesis. *)
Ltac break_match :=
  match goal with
  | |- context [match ?x with _ => _ end] => destruct x eqn:?
  end.

Ltac break_match_in H :=
  match type of H with
  | context [match ?x with _ => _ end] => destruct x eqn:?
  end.

(** ** Sample data for the further properties *)

Module More.

Definition plain_response (code : Z) (status message : string) : Response :=
  {| resStatus := code;
     resBody := JObj [("status", JStr status); ("message", JStr message)];
     resCookies := [] |}.

Definition short_password : ValidationItem :=
  {| vi_path := Some "password"; vi_param := None;
     vi_msg := "Password must be at least 6 characters";
     vi_value := Some (JStr "abc") |}.

(** The body of a POST that creates a product, one of a PATCH that
    brings a product back, and a request with the administrator's
    token. *)
Definition gadget : Product.patch :=
  {| Product.p_name := Some "Gadget"; Product.p_description := Some "A gadget";
     Product.p_price := Some (25, None); Product.p_category := Some "electronics";
     Product.p_stock := Some 4; Product.p_sku := Some "g-2"; Product.p_tags := None;
     Product.p_images := None; Product.p_isActive := None |}.

Definition restore : Product.patch :=
  {| Product.p_name := None; Product.p_description := None;
     Product.p_price := None; Product.p_category := None;
     Product.p_stock := None; Product.p_sku := None; Product.p_tags := None;
     Product.p_images := None; Product.p_isActive := Some true |}.


(** A request that carries only the cookie store [jar]. *)
Definition with_cookies (jar : list (string * string)) : Request unit :=
  Sample.request None (Some jar) 0 tt.

(** The clock five seconds and ten minutes later. *)
Definition soon : Env :=
  {| penv := Sample.production; now := 1700000005000; salt := "abcdefghijklmnopqrstuv" |}.
Definition later : Env :=
  {| penv := Sample.production; now := 1700000600000; salt := "abcdefghijklmnopqrstuv" |}.

(** The cookie store of a client that has logged in as John. *)
Definition session_jar : list Cookie :=
  [ {| cookieName := "token"; cookieValue := Sample.live_token;
       cookieExpires := 1700000000000 + 7 * 24 * 60 * 60 * 1000;
       cookieHttpOnly := true; cookieSecure := true;
       cookieSameSite := Some "strict" |} ].

(** A product on sale, and a store that holds it beside the deleted one. *)
Definition gizmo : Product.doc :=
  {| Product._id := 8; Product.name := "Gizmo"; Product.description := "A gizmo";
     Product.price_amount := 15; Product.price_currency := "EUR";
     Product.category := "electronics"; Product.stock := 2; Product.sku := "G-1";
     Product.tags := []; Product.images := []; Product.rating_average := 0;
     Product.rating_count := 0; Product.createdBy := 2; Product.isActive := true;
     Product.createdAt := 1690000000000; Product.updatedAt := 1690000000000 |}.

Definition stocked : Store :=
  {| users := [Sample.john_doc; Sample.ada_doc];
     products := [Sample.widget; gizmo]; next_oid := 9 |}.

Definition as_admin {B} (id : nat) (b : B) : Request B :=
  Sample.request (Sample.bearer Sample.admin_token) None id b.

Definition production_env : ServerEnv :=
  {| base := Sample.production; PORT := Some "8080";
     MONGODB_URI := Some "mongodb://db:27017/shop"; JWT_COOKIE_EXPIRE := None;
     RATE_LIMIT_WINDOW_MS := Some "5"; RATE_LIMIT_MAX_REQUESTS := Some "abc";
     CORS_ORIGIN := None |}.

End More.

(** ** Well-formed accounts *)

(** What the schema and the registration give every account of a store
    that started without accounts. *)
Definition account_ok (u : User.doc) : Prop :=
  Js.toLowerCase (User.email u) = User.email u
  /\ Re.matches Re.email_re (User.email u) = true
  /\ (2 <= Z.of_nat (String.length (User.name u)) <= 50)
  /\ User.role u = "user"
  /\ User.isActive u = true.

(** What the schema asks of a stored product. *)
Definition product_ok (d : Product.doc) : Prop :=
  Js.truthy (Product.name d) = true
  /\ Js.truthy (Product.description d) = true
  /\ Z.of_nat (String.length (Product.description d)) <= 1000
  /\ 0 <= Product.price_amount d
  /\ Product.mem (Product.price_currency d) ["USD"; "EUR"; "GBP"] = true
  /\ Product.mem (Product.category d)
       ["electronics"; "clothing"; "food"; "books"; "other"] = true
  /\ 0 <= Product.stock d
  /\ Re.matches Re.sku_re (Product.sku d) = true
  /\ Z.of_nat (List.length (Product.images d)) <= 5.

Definition catalogue_wf (st : Store) : Prop :=
  NoDup (map Product._id (products st))
  /\ NoDup (map Product.sku (products st))
  /\ Forall product_ok (products st)
  /\ (forall p, In p (products st) -> (Product._id p < next_oid st)%nat).

(** [jwt.sign] does not throw under the configuration and at the clock
    of [env]. *)
Definition signs {ext : Externals} (env : Env) : Prop :=
  forall payload,
    jwt_sign_error payload (config.jwt_secret (penv env))
      (config.jwt_expiresIn (penv env)) (now env) = None.

(** A stage that, while [jwt.sign] does not throw, changes the store
    only when it answers, and then with a status below 400. *)
Definition quiet_stage {ext : Externals} {B} (stage : Middleware B) : Prop :=
  forall env st req,
    signs env ->
    match stage env st req with
    | (st', Next _) => st' = st
    | (st', Fail _ _) => st' = st
    | (_, Send res) => resStatus res < 400
    end.

Definition accounts_wf (st : Store) : Prop :=
  NoDup (map User._id (users st))
  /\ (forall u, In u (users st) -> (User._id u < next_oid st)%nat)
  /\ NoDup (map User.email (users st))
  /\ Forall account_ok (users st).

(** One digit of a decimal numeral read by [JsNum.digits]. *)
Ltac digit_step step IH :=
  cbn [NilEmpty.string_of_uint Pos.of_uint_acc Pos.of_uint];
  erewrite step by (vm_compute; reflexivity);
  match goal with
  | |- JsNum.digits (Some ?v) _ = Some (Z.pos (Pos.of_uint_acc _ ?a)) =>
      replace v with (Z.pos a) by lia; apply IH
  | |- JsNum.digits (Some ?v) _ = Some (Z.of_N (Pos.of_uint _)) =>
      replace v with 0 by lia; apply IH
  | |- JsNum.digits (Some ?v) _ = Some (Z.of_N (N.pos (Pos.of_uint_acc _ ?a))) =>
      replace v with (Z.pos a) by lia; apply IH
  end.

(** The verdict of one validator of the product schema. *)
Ltac field_case H :=
  cbn [Product.or_else option_map] in H |- *;
  repeat match type of H with
         | context [if ?c then _ else _] => destruct c eqn:?; try discriminate H
         end.


(** The cases of a stage's result, each read back from the code of the
    stage. *)
Ltac stage_cases E :=
  repeat (break_match_in E; try discriminate);
  inversion E; subst; clear E; try reflexivity.

(** * Properties *)

(** ** Running the model *)

Example split_bearer : Js.split " " "Bearer abc.def" = ["Bearer"; "abc.def"].
Proof. reflexivity. Qed.

Example split_two_spaces : Js.split " " "Bearer  abc" = ["Bearer"; ""; "abc"].
Proof. reflexivity. Qed.

Example lower_email : Js.toLowerCase "John@Example.COM" = "john@example.com".
Proof. reflexivity. Qed.

Example trim_email : Js.trim "  john@example.com " = "john@example.com".
Proof. reflexivity. Qed.

Example email_re_ok : Re.matches Re.email_re "john@example.com" = true.
Proof. vm_compute. reflexivity. Qed.

Example email_re_ko : Re.matches Re.email_re "john@example" = false.
Proof. vm_compute. reflexivity. Qed.

Example app_error_401 :
  AppError "Invalid credentials" 401
  = {| errName := "Error"; errMessage := "Invalid credentials";
       errStatusCode := Some 401; errStatus := Some "fail";
       errIsOperational := true; errDetails := None; errCode := None;
       errKeyValue := []; errErrors := []; errPath := None; errValue := None |}.
Proof. reflexivity. Qed.

Example john_registers : users Sample.with_john = [Sample.john_doc].
Proof. vm_compute. reflexivity. Qed.

Example reference_sign :
  Reference.sign {| tokId := 1; tokRole := "user" |} "s3cret" "7d" 1700000000000
  = Sample.live_token.
Proof. vm_compute. reflexivity. Qed.

Example reference_verify_expired_forged :
  Reference.verify Sample.expired_forged_token "s3cret" 1700000000000
  = inl (thrown "JsonWebTokenError" "invalid signature").
Proof. vm_compute. reflexivity. Qed.

(** ** The chain *)

Section Chain.
Context {B : Type}.
Implicit Types (stage : Middleware B) (rest : list (Middleware B)).

Lemma dispatch_from_fail n stage rest env st req st' req' err :
  stage env st req = (st', Fail req' err) ->
  dispatch_from n (stage :: rest) env st req
  = {| out_store := st';
       out_response := errorHandler (config.isDevelopment (penv env)) err;
       out_invoked := S n |}.
Proof. intros H. simpl. rewrite H. reflexivity. Qed.

Lemma dispatch_from_next n stage rest env st req st' req' :
  stage env st req = (st', Next req') ->
  dispatch_from n (stage :: rest) env st req = dispatch_from (S n) rest env st' req'.
Proof. intros H. simpl. rewrite H. reflexivity. Qed.


(** A chain never reports fewer stages than it was entered with. *)
Lemma dispatch_from_invoked n rest env st req :
  (n <= out_invoked (dispatch_from n rest env st req))%nat.
Proof.
  revert n st req.
  induction rest as [|stage rest IH]; intros n st req; simpl.
  - lia.
  - destruct (stage env st req) as [st' [req'|req' err|res]]; simpl; try lia.
    specialize (IH (S n) st' req'). lia.
Qed.

End Chain.

(** The status of the response to an [AppError] is its own, in either
    mode. *)
Lemma errorHandler_AppError_4xx dev message code :
  In code [400; 401; 403; 404] ->
  resStatus (errorHandler dev (AppError message code)) = code
  /\ exists rest, resBody (errorHandler dev (AppError message code))
                  = JObj (("status", JStr "fail") :: rest)
                  /\ In ("message", JStr message) rest.
Proof.
  intros Hc. simpl in Hc.
  destruct Hc as [<-|[<-|[<-|[<-|[]]]]]; destruct dev; (split; [reflexivity|]);
    eexists; (split; [reflexivity|]); simpl; auto.
Qed.

(** ** Token location *)

Lemma split_spaceless t :
  spaceless t = true -> Js.split " " t = [t].
Proof.
  induction t as [|c r IH]; simpl; intros H.
  - reflexivity.
  - apply andb_true_iff in H. destruct H as [Hc Hr].
    apply negb_true_iff in Hc. rewrite Hc, (IH Hr). reflexivity.
Qed.

Lemma split_bearer_prefix t :
  Js.split " " ("Bearer " ++ t) = "Bearer" :: Js.split " " t.
Proof. reflexivity. Qed.

Lemma bearer_header_token t :
  spaceless t = true -> Js.index (Js.split " " ("Bearer " ++ t)) 1 = Some t.
Proof.
  intros H. rewrite split_bearer_prefix, (split_spaceless t H). reflexivity.
Qed.

Section Middleware.
Context {ext : Externals} {B : Type}.
Implicit Types (req : Request B) (handler : Middleware B).

Lemma request_token_bearer req h :
  authorization req = Some h ->
  Js.truthy h = true -> Js.startsWith h "Bearer" = true ->
  auth.request_token req = Js.index (Js.split " " h) 1.
Proof.
  intros Ha Ht Hs. unfold auth.request_token. rewrite Ha, Ht, Hs. reflexivity.
Qed.

Lemma protect_without_token env st req :
  auth.request_token req = None ->
  auth.protect env st req = (st, Fail req auth.not_authorized).
Proof. intros H. unfold auth.protect. rewrite H. reflexivity. Qed.

Lemma protect_verify_error env st req token err :
  auth.request_token req = Some token ->
  jwt_verify token (config.jwt_secret (penv env)) (now env) = inl err ->
  auth.protect env st req = (st, Fail req auth.not_authorized).
Proof.
  intros Ht Hv. unfold auth.protect. rewrite Ht, Hv.
  destruct (Js.truthy token); reflexivity.
Qed.

Lemma protect_passes env st req token decoded u :
  auth.request_token req = Some token ->
  Js.truthy token = true ->
  jwt_verify token (config.jwt_secret (penv env)) (now env) = inr decoded ->
  User.findById (users st) (tokId decoded) = Some u ->
  User.isActive u = true ->
  auth.protect env st req
  = (st, Next (set_user (Some (User.set_password None u)) req)).
Proof.
  intros Hr Ht Hv Hu Ha. unfold auth.protect.
  rewrite Hr, Ht, Hv. cbn [negb]. rewrite Hu.
  cbn [User.select option_map User.project user set_user User.isActive
         User.set_password].
  rewrite Ha. reflexivity.
Qed.

(** A request without a [Bearer] header is verified on the token of its
    cookie. *)
Lemma request_token_cookie req cks k t :
  (forall h, authorization req = Some h ->
             (Js.truthy h && Js.startsWith h "Bearer")%bool = false) ->
  cookies req = Some cks ->
  find (fun kv => String.eqb (fst kv) "token") cks = Some (k, t) ->
  Js.truthy t = true ->
  auth.request_token req = Some t.
Proof.
  intros Hh Hc Hf Ht. unfold auth.request_token, auth.cookie_token.
  rewrite Hc, Hf, Ht.
  destruct (authorization req) as [h|]; [|reflexivity].
  now rewrite (Hh h eq_refl).
Qed.

(** C7: a request with a header [Bearer t] and a cookie is verified on
    [t]: with a [Bearer] header the cookie plays no part, whether the
    header's token passes, fails or is missing.  A request with no such
    header (none at all, or one of another scheme) is verified on the
    token of its cookie [token]: [protect] refuses it when that token
    fails verification and lets it through, the stored account
    attached, when it resolves to an active account.  With neither the
    verifier answers Unauthenticated. *)
Theorem C7_header_before_cookie env st req :
  (forall t cks,
      authorization req = Some ("Bearer " ++ t) -> spaceless t = true ->
      auth.request_token (set_cookies cks req) = Some t
      /\ step_error (snd (auth.protect env st (set_cookies cks req)))
         = step_error (snd (auth.protect env st (set_cookies None req))))
  /\ (forall h cks,
         authorization req = Some h ->
         Js.truthy h = true -> Js.startsWith h "Bearer" = true ->
         auth.request_token (set_cookies cks req) = auth.request_token req)
  /\ (authorization req = None -> auth.request_token req = auth.cookie_token req)
  /\ (authorization req = None -> auth.cookie_token req = None ->
      auth.protect env st req
      = (st, Fail req (AppError "Not authorized to access this route" 401)))
  /\ (forall t cks err,
         authorization req = Some ("Bearer " ++ t) -> spaceless t = true ->
         jwt_verify t (config.jwt_secret (penv env)) (now env) = inl err ->
         auth.protect env st (set_cookies cks req)
         = (st, Fail (set_cookies cks req)
                  (AppError "Not authorized to access this route" 401)))
  /\ (forall cks,
         authorization req = Some "Bearer" ->
         auth.protect env st (set_cookies cks req)
         = (st, Fail (set_cookies cks req)
                  (AppError "Not authorized to access this route" 401)))
  /\ (forall cks k t,
         (forall h, authorization req = Some h ->
                    (Js.truthy h && Js.startsWith h "Bearer")%bool = false) ->
         cookies req = Some cks ->
         find (fun kv => String.eqb (fst kv) "token") cks = Some (k, t) ->
         Js.truthy t = true ->
         auth.request_token req = Some t
         /\ (forall err,
                jwt_verify t (config.jwt_secret (penv env)) (now env) = inl err ->
                auth.protect env st req
                = (st, Fail req (AppError "Not authorized to access this route" 401)))
         /\ (forall decoded u,
                jwt_verify t (config.jwt_secret (penv env)) (now env) = inr decoded ->
                User.findById (users st) (tokId decoded) = Some u ->
                User.isActive u = true ->
                auth.protect env st req
                = (st, Next (set_user (Some (User.set_password None u)) req)))).
Proof.
  assert (Hb : forall h cks,
             authorization req = Some h ->
             Js.truthy h = true -> Js.startsWith h "Bearer" = true ->
             auth.request_token (set_cookies cks req) = Js.index (Js.split " " h) 1).
  { intros h cks Ha Ht Hs. apply request_token_bearer; assumption. }
  split; [|split; [|split; [|split; [|split; [|split]]]]].
  - intros t cks H H0. split.
    + rewrite (Hb _ cks H) by reflexivity. now apply bearer_header_token.
    + unfold auth.protect.
      rewrite (Hb _ cks H), (Hb _ None H) by reflexivity.
      rewrite (bearer_header_token t H0). simpl user.
      destruct (Js.truthy t); simpl; [|reflexivity].
      destruct (jwt_verify t _ _) as [e|d]; simpl; [reflexivity|].
      destruct (User.select _ _) as [u|]; simpl; [|reflexivity].
      destruct (User.isActive u); reflexivity.
  - intros h cks Ha Ht Hs.
    rewrite (Hb h cks Ha Ht Hs). symmetry. now apply request_token_bearer.
  - intros Ha. unfold auth.request_token. rewrite Ha. reflexivity.
  - intros Ha Hc. apply protect_without_token.
    unfold auth.request_token. rewrite Ha. exact Hc.
  - intros t cks err Ha Hs Hv.
    apply (protect_verify_error _ _ _ t err); [|exact Hv].
    rewrite (Hb _ cks Ha) by reflexivity. now apply bearer_header_token.
  - intros cks Ha. apply protect_without_token.
    rewrite (Hb _ cks Ha) by reflexivity. reflexivity.
  - intros cks k t Hh Hc Hf Ht.
    pose proof (request_token_cookie req cks k t Hh Hc Hf Ht) as Hr.
    split; [exact Hr|]. split.
    + intros err Hv. now apply (protect_verify_error _ _ _ t err).
    + intros decoded u Hv Hu Ha. unfold auth.protect.
      rewrite Hr, Ht, Hv. cbn [negb]. rewrite Hu.
      cbn [User.select option_map User.project user set_user User.isActive
             User.set_password].
      rewrite Ha. reflexivity.
Qed.

(** C1 (amended): a token whose verification throws, for a lapsed expiry
    as for a bad signature, is answered with one and the same
    Unauthenticated error, 401 "Not authorized to access this route";
    the store is untouched and the handler is not run. *)
Theorem C1_verification_failure_is_unauthenticated env st req token err handler :
  auth.request_token req = Some token ->
  jwt_verify token (config.jwt_secret (penv env)) (now env) = inl err ->
  auth.protect env st req
  = (st, Fail req (AppError "Not authorized to access this route" 401))
  /\ dispatch [auth.protect; handler] env st req
     = {| out_store := st;
          out_response := errorHandler (config.isDevelopment (penv env))
                            (AppError "Not authorized to access this route" 401);
          out_invoked := 1 |}.
Proof.
  intros Ht Hv.
  pose proof (protect_verify_error env st req token err Ht Hv) as Hp.
  split; [exact Hp|].
  unfold dispatch. now rewrite (dispatch_from_fail _ _ _ _ _ _ _ _ _ Hp).
Qed.

(** C5: an otherwise valid token of an account whose [isActive] is false
    is rejected with 401 "User account is inactive", and the handler is
    not run. *)
Theorem C5_inactive_account_unauthenticated env st req token decoded u handler :
  auth.request_token req = Some token -> Js.truthy token = true ->
  jwt_verify token (config.jwt_secret (penv env)) (now env) = inr decoded ->
  User.findById (users st) (tokId decoded) = Some u ->
  User.isActive u = false ->
  auth.protect env st req
  = (st, Fail (set_user (Some (User.set_password None u)) req)
           (AppError "User account is inactive" 401))
  /\ dispatch [auth.protect; handler] env st req
     = {| out_store := st;
          out_response := errorHandler (config.isDevelopment (penv env))
                            (AppError "User account is inactive" 401);
          out_invoked := 1 |}
  /\ resStatus (out_response (dispatch [auth.protect; handler] env st req)) = 401.
Proof.
  intros Ht Htr Hv Hf Ha.
  assert (Hp : auth.protect env st req
               = (st, Fail (set_user (Some (User.set_password None u)) req)
                        (AppError "User account is inactive" 401))).
  { unfold auth.protect. rewrite Ht, Htr, Hv. simpl negb. cbv iota.
    rewrite Hf. simpl. rewrite Ha. reflexivity. }
  split; [exact Hp|].
  unfold dispatch. rewrite (dispatch_from_fail _ _ _ _ _ _ _ _ _ Hp).
  split; [reflexivity|].
  simpl out_response.
  apply (errorHandler_AppError_4xx _ _ 401). simpl; auto.
Qed.

Lemma includes_In r roles :
  existsb (String.eqb r) roles = true <-> In r roles.
Proof.
  rewrite existsb_exists. split.
  - intros (x & Hx & He). apply String.eqb_eq in He. now subst.
  - intros H. exists r. split; [exact H|apply String.eqb_refl].
Qed.

(** C3 (amended): the gate lets an identity of role [r] through exactly
    when [r] is among the declared roles, the empty declaration
    included, under which no identity passes; otherwise it fails with
    403 and the handler is not run.  Every authenticated identity
    reaches the handler on a route that declares no gate, as
    /api/auth/me. *)
Theorem C3_gate_passes_members_only env st req u roles handler :
  user req = Some u ->
  (auth.authorize roles env st req = (st, Next req) <-> In (User.role u) roles)
  /\ (In (User.role u) roles ->
      dispatch [auth.authorize roles; handler] env st req
      = dispatch_from 1 [handler] env st req)
  /\ (~ In (User.role u) roles ->
      auth.authorize roles env st req
      = (st, Fail req (AppError ("User role '" ++ User.role u
                                 ++ "' is not authorized to access this route") 403))
      /\ dispatch [auth.authorize roles; handler] env st req
         = {| out_store := st;
              out_response :=
                errorHandler (config.isDevelopment (penv env))
                  (AppError ("User role '" ++ User.role u
                             ++ "' is not authorized to access this route") 403);
              out_invoked := 1 |})
  /\ (forall req0,
         auth.protect env st req0 = (st, Next req) ->
         out_invoked (dispatch routes.me env st req0) = 2%nat).
Proof.
  intros Hu.
  assert (Hin : In (User.role u) roles ->
                auth.authorize roles env st req = (st, Next req)).
  { intros H. unfold auth.authorize. rewrite Hu.
    apply includes_In in H. rewrite H. reflexivity. }
  assert (Hout : ~ In (User.role u) roles ->
                 auth.authorize roles env st req
                 = (st, Fail req (AppError ("User role '" ++ User.role u
                                            ++ "' is not authorized to access this route") 403))).
  { intros H. unfold auth.authorize. rewrite Hu.
    destruct (existsb (String.eqb (User.role u)) roles) eqn:E; [|reflexivity].
    apply includes_In in E. contradiction. }
  split; [|split; [|split]].
  - split; [|exact Hin].
    intros H. destruct (in_dec string_dec (User.role u) roles) as [Hi|Hn]; [exact Hi|].
    rewrite (Hout Hn) in H. discriminate.
  - intros H. unfold dispatch. now rewrite (dispatch_from_next _ _ _ _ _ _ _ _ (Hin H)).
  - intros H. split; [exact (Hout H)|].
    unfold dispatch. now rewrite (dispatch_from_fail _ _ _ _ _ _ _ _ _ (Hout H)).
  - intros req0 Hp. unfold dispatch, routes.me.
    rewrite (dispatch_from_next _ _ _ _ _ _ _ _ Hp).
    simpl. unfold authController.getMe. rewrite Hu. reflexivity.
Qed.

(** C9: [optionalAuth] always calls [next()] without an error, so the
    next stage always runs; with no token, or one that fails
    verification, the request goes on as it came; a token that resolves
    to a stored account attaches it, the [isActive] flag unread. *)
Theorem C9_optionalAuth_never_fails env st req :
  (exists req', auth.optionalAuth env st req = (st, Next req'))
  /\ (forall handler, exists req',
         dispatch [auth.optionalAuth; handler] env st req
         = dispatch_from 1 [handler] env st req')
  /\ (auth.request_token req = None ->
      auth.optionalAuth env st req = (st, Next req))
  /\ (forall token err,
         auth.request_token req = Some token ->
         jwt_verify token (config.jwt_secret (penv env)) (now env) = inl err ->
         auth.optionalAuth env st req = (st, Next req))
  /\ (forall token decoded u,
         auth.request_token req = Some token -> Js.truthy token = true ->
         jwt_verify token (config.jwt_secret (penv env)) (now env) = inr decoded ->
         User.findById (users st) (tokId decoded) = Some u ->
         auth.optionalAuth env st req
         = (st, Next (set_user (Some (User.set_password None u)) req))).
Proof.
  assert (Hex : exists req', auth.optionalAuth env st req = (st, Next req')).
  { unfold auth.optionalAuth.
    destruct (auth.request_token req) as [token|]; [|eauto].
    destruct (Js.truthy token); simpl; [|eauto].
    destruct (jwt_verify token _ _); eauto. }
  split; [exact Hex|]. split; [|split; [|split]].
  - intros handler. destruct Hex as [req' H]. exists req'.
    unfold dispatch. now rewrite (dispatch_from_next _ _ _ _ _ _ _ _ H).
  - intros H. unfold auth.optionalAuth. now rewrite H.
  - intros token err Ht Hv. unfold auth.optionalAuth. rewrite Ht, Hv.
    destruct (Js.truthy token); reflexivity.
  - intros token decoded u Ht Htr Hv Hf. unfold auth.optionalAuth.
    rewrite Ht, Htr, Hv, Hf. reflexivity.
Qed.

End Middleware.

(** ** Registration and login *)

Section Accounts.
Context {ext : Externals}.
Implicit Types (req : Request AuthBody).

(** What the error handler makes of the driver's duplicate-key error on
    [email], outside development. *)
Lemma duplicate_key_response v :
  errorHandler false (MongoDuplicateKey "email" v)
  = {| resStatus := 400;
       resBody := JObj [("status", JStr "fail");
                        ("message", JStr "email already exists")];
       resCookies := [] |}.
Proof. reflexivity. Qed.

(** The lookup finds an account when one has the lower-cased email. *)
Lemma findByEmail_finds (coll : list User.doc) e u :
  In u coll -> User.email u = Js.toLowerCase e ->
  exists u', User.findByEmail coll e = Some u'
             /\ User.email u' = Js.toLowerCase e.
Proof.
  intros Hin Hmail. unfold User.findByEmail, User.findOne.
  destruct (find _ coll) as [u'|] eqn:F.
  - exists u'. split; [reflexivity|].
    apply find_some in F. destruct F as [_ F]. now apply String.eqb_eq in F.
  - apply (find_none _ _ F) in Hin. simpl in Hin.
    rewrite Hmail, String.eqb_refl in Hin. discriminate.
Qed.

(** The lookup finds nothing when no account has the lower-cased email. *)
Lemma findByEmail_misses (coll : list User.doc) e :
  (forall x, In x coll -> User.email x <> Js.toLowerCase e) ->
  User.findByEmail coll e = None.
Proof.
  intros Hno. unfold User.findByEmail, User.findOne.
  destruct (find _ coll) as [u|] eqn:F; [|reflexivity].
  apply find_some in F. destruct F as [Hin F].
  apply String.eqb_eq in F. now apply Hno in Hin.
Qed.

(** C2 (amended): when an account has the request's email, lower-cased,
    registration fails with 400 "User already exists with this email";
    the lookup that finds it precedes any write, and the store is
    unchanged.
    "email already exists" is the message the error handler gives a
    duplicate-key error of the write itself. *)
Theorem C2_existing_email_rejected_before_write env st req e u :
  b_email (body req) = Some e ->
  In u (users st) -> User.email u = Js.toLowerCase e ->
  authController.register env st req
  = (st, Fail req (AppError "User already exists with this email" 400))
  /\ dispatch [authController.register] env st req
     = {| out_store := st;
          out_response := errorHandler (config.isDevelopment (penv env))
                            (AppError "User already exists with this email" 400);
          out_invoked := 1 |}
  /\ resStatus (out_response (dispatch [authController.register] env st req)) = 400
  /\ (forall v, resBody (errorHandler false (MongoDuplicateKey "email" v))
                = JObj [("status", JStr "fail");
                        ("message", JStr "email already exists")]).
Proof.
  intros He Hin Hmail.
  assert (Hr : authController.register env st req
               = (st, Fail req (AppError "User already exists with this email" 400))).
  { destruct (findByEmail_finds _ _ _ Hin Hmail) as (u' & Hf & _).
    unfold authController.register. rewrite He, Hf. reflexivity. }
  split; [exact Hr|].
  unfold dispatch. rewrite (dispatch_from_fail _ _ _ _ _ _ _ _ _ Hr).
  split; [reflexivity|]. split.
  - simpl out_response. apply (errorHandler_AppError_4xx _ _ 400). simpl; auto.
  - intros v. now rewrite duplicate_key_response.
Qed.

(** C6 (amended): with a non-empty email and password, written as the
    validators of the route hand them on (no white space around the
    email), a login for an email no account has and a login with a
    wrong password for the email of an active account both fail with
    401 "Invalid credentials" and leave the store unchanged; outside
    development the two responses are equal, in development they have
    the same status and message (their stack traces, which the model
    leaves out, name the two lines that built the errors).  For an
    inactive account the login fails with 401 "Account is inactive"
    before the password is looked at. *)
Theorem C6_login_failures_alike_for_active env st req1 req2 e1 p1 e2 p2 u h :
  b_email (body req1) = Some e1 -> b_password (body req1) = Some p1 ->
  Js.truthy e1 = true -> Js.truthy p1 = true ->
  b_email (body req2) = Some e2 -> b_password (body req2) = Some p2 ->
  Js.truthy e2 = true -> Js.truthy p2 = true ->
  Js.trim (Js.toLowerCase e1) = Js.toLowerCase e1 ->
  Js.trim (Js.toLowerCase e2) = Js.toLowerCase e2 ->
  (forall x, In x (users st) -> User.email x <> Js.toLowerCase e1) ->
  User.findByEmail (users st) e2 = Some u ->
  User.password u = Some h -> bcrypt_compare p2 h = false ->
  (User.isActive u = true ->
   authController.login env st req1
   = (st, Fail req1 (AppError "Invalid credentials" 401))
   /\ authController.login env st req2
      = (st, Fail req2 (AppError "Invalid credentials" 401))
   /\ (config.isDevelopment (penv env) = false ->
       dispatch [authController.login] env st req1
       = dispatch [authController.login] env st req2)
   /\ out_store (dispatch [authController.login] env st req1) = st
   /\ out_store (dispatch [authController.login] env st req2) = st
   /\ resStatus (out_response (dispatch [authController.login] env st req1)) = 401
   /\ resStatus (out_response (dispatch [authController.login] env st req2)) = 401
   /\ (exists rest1 rest2,
          resBody (out_response (dispatch [authController.login] env st req1))
          = JObj (("status", JStr "fail") :: rest1)
          /\ In ("message", JStr "Invalid credentials") rest1
          /\ resBody (out_response (dispatch [authController.login] env st req2))
             = JObj (("status", JStr "fail") :: rest2)
          /\ In ("message", JStr "Invalid credentials") rest2))
  /\ (User.isActive u = false ->
      authController.login env st req2
      = (st, Fail req2 (AppError "Account is inactive" 401))).
Proof.
  intros He1 Hp1 Te1 Tp1 He2 Hp2 Te2 Tp2 _ _ Hno Hf2 Hh Hc.
  pose proof (findByEmail_misses _ _ Hno) as Hf1.
  assert (H1 : authController.login env st req1
               = (st, Fail req1 (AppError "Invalid credentials" 401))).
  { unfold authController.login, authController.falsy.
    rewrite He1, Hp1, Te1, Tp1. simpl. rewrite Hf1. reflexivity. }
  split.
  - intros Ha.
    assert (H2 : authController.login env st req2
                 = (st, Fail req2 (AppError "Invalid credentials" 401))).
    { unfold authController.login, authController.falsy, User.comparePassword.
      rewrite He2, Hp2, Te2, Tp2. simpl. rewrite Hf2. simpl.
      rewrite Ha, Hh, Hc. reflexivity. }
    split; [exact H1|]. split; [exact H2|].
    unfold dispatch.
    rewrite (dispatch_from_fail _ _ _ _ _ _ _ _ _ H1).
    rewrite (dispatch_from_fail _ _ _ _ _ _ _ _ _ H2).
    cbn [out_store out_response].
    destruct (errorHandler_AppError_4xx (config.isDevelopment (penv env))
                "Invalid credentials" 401) as (Hs & rest & Hb & Hm);
      [simpl; auto|].
    repeat (split; try reflexivity; try exact Hs).
    exists rest, rest. auto.
  - intros Ha. unfold authController.login, authController.falsy.
    rewrite He2, Hp2, Te2, Tp2. simpl. rewrite Hf2. simpl.
    rewrite Ha. reflexivity.
Qed.

End Accounts.

(** ** Logout *)

Lemma filter_twice {A} (f : A -> bool) (l : list A) :
  filter f (filter f l) = filter f l.
Proof.
  induction l as [|a l IH]; simpl; [reflexivity|].
  destruct (f a) eqn:E; simpl; [rewrite E|]; now rewrite IH.
Qed.

Lemma last_cons {A} (l : list A) (a d : A) : last (a :: l) d = last l a.
Proof.
  revert a d. induction l as [|b l IH]; intros a d; [reflexivity|].
  change (last (a :: b :: l) d) with (last (b :: l) d).
  now rewrite !IH.
Qed.

Section Logout.
Context {ext : Externals} {B : Type}.
Implicit Types (req : Request B).

(** The answer of a logout at clock reading [t]. *)
Lemma logout_answer env st req :
  authController.logout env st req
  = (st, Send {| resStatus := 200;
                 resBody := JObj [("status", JStr "success");
                                  ("message", JStr "Logged out successfully")];
                 resCookies := [ {| cookieName := "token"; cookieValue := "none";
                                    cookieExpires := now env + 10000;
                                    cookieHttpOnly := true; cookieSecure := false;
                                    cookieSameSite := None |} ] |}).
Proof. reflexivity. Qed.

Lemma logout_each_answers envs st req :
  logout_each envs st req
  = (st, map (fun env =>
                {| resStatus := 200;
                   resBody := JObj [("status", JStr "success");
                                    ("message", JStr "Logged out successfully")];
                   resCookies := [ {| cookieName := "token"; cookieValue := "none";
                                      cookieExpires := now env + 10000;
                                      cookieHttpOnly := true; cookieSecure := false;
                                      cookieSameSite := None |} ] |}) envs).
Proof.
  induction envs as [|env envs IH]; simpl; [reflexivity|].
  rewrite IH. reflexivity.
Qed.

(** The cookie store after one or more logouts: the placeholder of the
    last one, before the cookies of other names. *)
Lemma logout_each_jar envs env st req jar :
  fold_left receive (snd (logout_each (env :: envs) st req)) jar
  = {| cookieName := "token"; cookieValue := "none";
       cookieExpires := now (last envs env) + 10000;
       cookieHttpOnly := true; cookieSecure := false; cookieSameSite := None |}
    :: filter (fun k => negb (String.eqb (cookieName k) "token")) jar.
Proof.
  rewrite logout_each_answers. cbn [snd].
  revert env jar. induction envs as [|e envs IH]; intros env jar; [reflexivity|].
  rewrite (last_cons envs e env).
  cbn [map fold_left] in IH |- *. rewrite IH.
  f_equal. unfold receive, jar_set. cbn [resCookies fold_left cookieName].
  cbn [filter cookieName String.eqb Ascii.eqb Bool.eqb negb].
  now rewrite filter_twice.
Qed.

(** Among the cookies of other names none is the token. *)
Lemma no_token_sent t (jar : list Cookie) :
  find (fun kv => String.eqb (fst kv) "token")
    (jar_send t (filter (fun k => negb (String.eqb (cookieName k) "token")) jar))
  = None.
Proof.
  unfold jar_send. induction jar as [|c jar IH]; [reflexivity|].
  cbn [filter]. destruct (String.eqb (cookieName c) "token") eqn:E; cbn [negb filter];
    [exact IH|].
  destruct (t <? cookieExpires c); cbn [filter map find fst]; [rewrite E|]; exact IH.
Qed.

Lemma names_filter (jar : list Cookie) :
  map (fun c => (cookieName c, cookieValue c))
    (filter (fun k => negb (String.eqb (cookieName k) "token")) jar)
  = filter (fun kv => negb (String.eqb (fst kv) "token"))
      (map (fun c => (cookieName c, cookieValue c)) jar).
Proof.
  induction jar as [|c jar IH]; [reflexivity|].
  cbn [filter map fst]. destruct (String.eqb (cookieName c) "token");
    cbn [negb map]; now rewrite IH.
Qed.

(** A logout on the route by a client whose cookie holds the
    placeholder, or has expired, and who sends no [Bearer] header. *)
Lemma logout_refused env st req t (jar : list Cookie) err :
  (forall h, authorization req = Some h ->
             (Js.truthy h && Js.startsWith h "Bearer")%bool = false) ->
  jwt_verify "none" (config.jwt_secret (penv env)) (now env) = inl err ->
  dispatch routes.logout env st
    (set_cookies
       (Some (jar_send (now env)
                ({| cookieName := "token"; cookieValue := "none";
                    cookieExpires := t;
                    cookieHttpOnly := true; cookieSecure := false;
                    cookieSameSite := None |}
                 :: filter (fun k => negb (String.eqb (cookieName k) "token")) jar)))
       req)
  = {| out_store := st;
       out_response := errorHandler (config.isDevelopment (penv env)) auth.not_authorized;
       out_invoked := 1 |}.
Proof.
  intros Hh Hv. unfold dispatch, routes.logout.
  match goal with |- dispatch_from _ _ _ _ ?r = _ => set (R := r) end.
  apply dispatch_from_fail with (req' := R).
  assert (Hc : cookies R
               = Some (if now env <? t
                       then ("token", "none")
                            :: jar_send (now env)
                                 (filter (fun k => negb (String.eqb (cookieName k) "token"))
                                    jar)
                       else jar_send (now env)
                              (filter (fun k => negb (String.eqb (cookieName k) "token"))
                                 jar))).
  { subst R. unfold jar_send. cbn [set_cookies cookies filter cookieExpires].
    destruct (now env <? t); reflexivity. }
  destruct (now env <? t).
  - apply (protect_verify_error _ _ _ "none" err); [|exact Hv].
    now apply (request_token_cookie R _ "token" "none" Hh Hc).
  - apply protect_without_token.
    unfold auth.request_token, auth.cookie_token. rewrite Hc, no_token_sent.
    change (authorization R) with (authorization req).
    destruct (authorization req) as [h|]; [|reflexivity].
    now rewrite (Hh h eq_refl).
Qed.

Lemma refusal_sets_no_cookie dev :
  resCookies (errorHandler dev auth.not_authorized) = [].
Proof. destruct dev; reflexivity. Qed.

(** C8 (amended): the logout handler answers 200 with the cookie [token]
    set to the placeholder [none], expiring ten seconds later, whatever
    the request and the store; invoked any number of times it gives that
    answer each time, leaves the store as it was and the client's
    cookie store with the placeholder for [token], and a token that
    [protect] accepted before is accepted after.  On the route the
    handler runs behind [protect]: a client that sends its token in the
    [Authorization] header gets the handler's answer at every logout,
    whatever its cookies; a client that relies on the cookie gets it
    once, and each later logout is refused 401, its cookie holding the
    placeholder or nothing.  The store is the same after each. *)
Theorem C8_logout_repeats_behind_protect (envs : list Env) env st req :
  authController.logout env st req
  = (st, Send {| resStatus := 200;
                 resBody := JObj [("status", JStr "success");
                                  ("message", JStr "Logged out successfully")];
                 resCookies := [ {| cookieName := "token"; cookieValue := "none";
                                    cookieExpires := now env + 10 * 1000;
                                    cookieHttpOnly := true; cookieSecure := false;
                                    cookieSameSite := None |} ] |})
  /\ fst (logout_each (env :: envs) st req) = st
  /\ List.length (snd (logout_each (env :: envs) st req)) = S (List.length envs)
  /\ Forall (fun res =>
               resStatus res = 200
               /\ resBody res = JObj [("status", JStr "success");
                                      ("message", JStr "Logged out successfully")]
               /\ map (fun c => (cookieName c, cookieValue c, cookieHttpOnly c))
                    (resCookies res) = [("token", "none", true)])
       (snd (logout_each (env :: envs) st req))
  /\ (forall jar,
         map (fun c => (cookieName c, cookieValue c))
           (fold_left receive (snd (logout_each (env :: envs) st req)) jar)
         = ("token", "none")
           :: filter (fun kv => negb (String.eqb (fst kv) "token"))
                (map (fun c => (cookieName c, cookieValue c)) jar))
  /\ (forall env' (req' : Request B),
         auth.protect env' (fst (logout_each (env :: envs) st req)) req'
         = auth.protect env' st req')
  /\ (forall req0,
         auth.protect env st req0 = (st, Next req) ->
         dispatch routes.logout env st req0
         = {| out_store := st;
              out_response :=
                {| resStatus := 200;
                   resBody := JObj [("status", JStr "success");
                                    ("message", JStr "Logged out successfully")];
                   resCookies := [ {| cookieName := "token"; cookieValue := "none";
                                      cookieExpires := now env + 10 * 1000;
                                      cookieHttpOnly := true; cookieSecure := false;
                                      cookieSameSite := None |} ] |};
              out_invoked := 2 |})
  /\ (forall t (times : list Env) jar,
         authorization req = Some ("Bearer " ++ t) ->
         spaceless t = true -> Js.truthy t = true ->
         Forall (fun e => exists decoded u,
                     jwt_verify t (config.jwt_secret (penv e)) (now e) = inr decoded
                     /\ User.findById (users st) (tokId decoded) = Some u
                     /\ User.isActive u = true) times ->
         logout_session times st jar req
         = (st, fold_left receive (snd (logout_each times st req)) jar,
            snd (logout_each times st req)))
  /\ (forall (times : list Env) jar,
         (forall h, authorization req = Some h ->
                    (Js.truthy h && Js.startsWith h "Bearer")%bool = false) ->
         Forall (fun e => exists err,
                     jwt_verify "none" (config.jwt_secret (penv e)) (now e) = inl err)
           times ->
         logout_session times st
           (fold_left receive (snd (logout_each (env :: envs) st req)) jar) req
         = (st, fold_left receive (snd (logout_each (env :: envs) st req)) jar,
            map (fun e => errorHandler (config.isDevelopment (penv e))
                            (AppError "Not authorized to access this route" 401))
              times)
         /\ Forall (fun res => resStatus res = 401)
              (snd (logout_session times st
                      (fold_left receive (snd (logout_each (env :: envs) st req)) jar)
                      req))).
Proof.
  assert (Hroute : forall e req0 r,
             auth.protect e st req0 = (st, Next r) ->
             dispatch routes.logout e st req0
             = {| out_store := st;
                  out_response :=
                    {| resStatus := 200;
                       resBody := JObj [("status", JStr "success");
                                        ("message", JStr "Logged out successfully")];
                       resCookies := [ {| cookieName := "token"; cookieValue := "none";
                                          cookieExpires := now e + 10 * 1000;
                                          cookieHttpOnly := true; cookieSecure := false;
                                          cookieSameSite := None |} ] |};
                  out_invoked := 2 |}).
  { intros e req0 r Hp. unfold dispatch, routes.logout.
    rewrite (dispatch_from_next _ _ _ _ _ _ _ _ Hp). reflexivity. }
  split; [reflexivity|].
  split; [now rewrite logout_each_answers|].
  split; [now rewrite logout_each_answers; cbn [snd]; rewrite length_map|].
  split.
  { rewrite logout_each_answers. cbn [snd].
    apply Forall_forall. intros res Hin.
    change (env :: envs) with ([env] ++ envs)%list in Hin.
    apply in_map_iff in Hin. destruct Hin as (e & <- & _). now repeat split. }
  split.
  { intros jar. rewrite logout_each_jar. cbn [map cookieName cookieValue].
    now rewrite names_filter. }
  split; [now rewrite logout_each_answers|].
  split; [intros req0; apply Hroute|].
  split.
  - intros t times jar Ha Hs Ht Hall. revert jar.
    induction Hall as [|e times (decoded & u & Hv & Hu & Hact) _ IH]; intros jar;
      [reflexivity|].
    cbn [logout_session].
    assert (Hp : auth.protect e st (set_cookies (Some (jar_send (now e) jar)) req)
                 = (st, Next (set_user (Some (User.set_password None u))
                                (set_cookies (Some (jar_send (now e) jar)) req)))).
    { apply (protect_passes _ _ _ t decoded u); try assumption.
      rewrite (request_token_bearer _ ("Bearer " ++ t)); [|exact Ha|reflexivity..].
      now apply bearer_header_token. }
    rewrite (Hroute _ _ _ Hp). cbn [out_store out_response].
    rewrite IH. rewrite !logout_each_answers. reflexivity.
  - intros times jar Hh Hall.
    assert (Hs : logout_session times st
                   (fold_left receive (snd (logout_each (env :: envs) st req)) jar) req
                 = (st, fold_left receive (snd (logout_each (env :: envs) st req)) jar,
                    map (fun e => errorHandler (config.isDevelopment (penv e))
                                    (AppError "Not authorized to access this route" 401))
                      times)).
    { rewrite logout_each_jar.
      induction Hall as [|e times [err Hv] _ IH]; [reflexivity|].
      cbn [logout_session].
      rewrite (logout_refused e st req _ jar err Hh Hv).
      cbn [out_store out_response].
      unfold receive at 1. rewrite refusal_sets_no_cookie. cbn [fold_left].
      rewrite IH. reflexivity. }
    split; [exact Hs|].
    rewrite Hs. cbn [snd]. apply Forall_forall. intros res Hin.
    apply in_map_iff in Hin. destruct Hin as (e & <- & _).
    destruct (config.isDevelopment (penv e)); reflexivity.
Qed.

End Logout.

(** ** Saving a product *)

Lemma strings_eqb_eq a b : Product.strings_eqb a b = true <-> a = b.
Proof.
  revert b. induction a as [|x a IH]; intros [|y b]; simpl; split; intros H;
    try reflexivity; try discriminate.
  - apply andb_true_iff in H. destruct H as [Hx Ha].
    apply String.eqb_eq in Hx. apply IH in Ha. now subst.
  - injection H as -> ->. rewrite String.eqb_refl. now apply IH.
Qed.

(** With no path modified the document is as it was loaded. *)
Lemma unmodified_assign p b :
  Product.modified p b = false -> Product.assign p b = p.
Proof.
  unfold Product.modified. intros H.
  repeat (apply orb_false_iff in H; destruct H as [H ?]).
  repeat match goal with
         | E : negb _ = false |- _ => apply negb_false_iff in E
         end.
  destruct (Product.p_price b) eqn:Hp; [discriminate|].
  repeat match goal with
         | E : String.eqb _ _ = true |- _ => apply String.eqb_eq in E
         | E : Z.eqb _ _ = true |- _ => apply Z.eqb_eq in E
         | E : Product.strings_eqb _ _ = true |- _ => apply strings_eqb_eq in E
         | E : Bool.eqb _ _ = true |- _ => apply Bool.eqb_prop in E
         end.
  destruct p. unfold Product.assign in *. cbn [Product._id Product.name
    Product.description Product.price_amount Product.price_currency Product.category
    Product.stock Product.sku Product.tags Product.images Product.rating_average
    Product.rating_count Product.createdBy Product.isActive Product.createdAt
    Product.updatedAt] in *.
  rewrite Hp. congruence.
Qed.

(** A document that passes the validators of every path is what the
    schema asks for. *)
Lemma validate_ok d : Product.validate d = [] -> product_ok d.
Proof.
  intros Hv. unfold Product.validate in Hv.
  apply app_eq_nil in Hv as [Vn Hv]. apply app_eq_nil in Hv as [Vd Hv].
  apply app_eq_nil in Hv as [Vp Hv]. apply app_eq_nil in Hv as [Vc Hv].
  apply app_eq_nil in Hv as [Vg Hv]. apply app_eq_nil in Hv as [Vs Hv].
  apply app_eq_nil in Hv as [Vk Hv]. apply app_eq_nil in Hv as [Vi _].
  unfold product_ok.
  split; [field_case Vn; auto|].
  split; [field_case Vd; now apply negb_false_iff|].
  split; [field_case Vd; now apply Z.ltb_ge|].
  split; [field_case Vp; now apply Z.ltb_ge|].
  split; [field_case Vc; auto|].
  split; [field_case Vg; auto|].
  split; [field_case Vs; now apply Z.ltb_ge|].
  split; [field_case Vk; auto|].
  field_case Vi. now apply Z.leb_le.
Qed.

Lemma save_unmodified t p b coll :
  Product.validate (Product.assign p b) = [] ->
  Product.modified p b = false ->
  Product.save t p b coll = inr (p, coll).
Proof.
  intros Hv Hm. unfold Product.save. rewrite Hv, Hm.
  cbn [negb]. now rewrite (unmodified_assign p b Hm).
Qed.

Lemma save_modified t p b coll :
  Product.validate (Product.assign p b) = [] ->
  Product.modified p b = true ->
  Product.sku (Product.assign p b) = Product.sku p
  \/ Product.sku_taken (Product.assign p b) coll = false ->
  Product.save t p b coll
  = inr (Product.set_updatedAt t (Product.assign p b),
         map (fun x => if Nat.eqb (Product._id x) (Product._id p)
                       then Product.set_updatedAt t (Product.assign p b) else x) coll).
Proof.
  intros Hv Hm Hs. unfold Product.save. rewrite Hv, Hm. cbn [negb].
  assert (Hd : (negb (String.eqb (Product.sku (Product.assign p b)) (Product.sku p))
                && Product.sku_taken (Product.assign p b) coll)%bool = false).
  { destruct Hs as [-> | ->]; [now rewrite String.eqb_refl|apply andb_false_r]. }
  rewrite Hd. reflexivity.
Qed.

(** What a save that succeeded did. *)
Lemma save_success t p b coll d' coll' :
  Product.save t p b coll = inr (d', coll') ->
  Product.validate (Product.assign p b) = []
  /\ ((Product.modified p b = false /\ d' = p /\ coll' = coll)
      \/ (Product.modified p b = true
          /\ (Product.sku (Product.assign p b) = Product.sku p
              \/ Product.sku_taken (Product.assign p b) coll = false)
          /\ d' = Product.set_updatedAt t (Product.assign p b)
          /\ coll' = map (fun x => if Nat.eqb (Product._id x) (Product._id p)
                                   then d' else x) coll)).
Proof.
  unfold Product.save. intros H.
  destruct (Product.validate (Product.assign p b)) eqn:Hv; [|discriminate].
  split; [reflexivity|].
  destruct (Product.modified p b) eqn:Hm; cbn [negb] in H.
  - right. destruct (_ && _)%bool eqn:Hs; [discriminate|].
    injection H as <- <-. split; [reflexivity|]. split; [|split; reflexivity].
    apply andb_false_iff in Hs. destruct Hs as [Hs|Hs]; [left|now right].
    apply negb_false_iff in Hs. now apply String.eqb_eq.
  - left. injection H as <- <-. rewrite (unmodified_assign p b Hm). auto.
Qed.

Lemma save_error t p b coll err :
  Product.save t p b coll = inl err ->
  err = ValidationError (Product.validate (Product.assign p b))
  \/ err = MongoDuplicateKey "sku" (Product.sku (Product.assign p b)).
Proof.
  unfold Product.save. intros H.
  destruct (Product.validate (Product.assign p b)) eqn:Hv.
  - destruct (negb (Product.modified p b)); [discriminate|].
    destruct (_ && _)%bool; [|discriminate]. injection H as <-. now right.
  - injection H as <-. now left.
Qed.

(** ** Soft-deleted products *)

Lemma findById_replaced (coll : list Product.doc) id p d' :
  Product.findById coll id = Some p ->
  Product._id d' = id ->
  Product.findById
    (map (fun x => if Nat.eqb (Product._id x) id then d' else x) coll) id
  = Some d'.
Proof.
  unfold Product.findById. intros Hf Hid.
  induction coll as [|x coll IH]; simpl in *; [discriminate|].
  destruct (Nat.eqb (Product._id x) id) eqn:E.
  - simpl. rewrite Hid, Nat.eqb_refl. reflexivity.
  - simpl. rewrite E. auto.
Qed.

Lemma findById_id (coll : list Product.doc) id p :
  Product.findById coll id = Some p -> Product._id p = id.
Proof.
  unfold Product.findById. intros H. apply find_some in H.
  destruct H as [_ H]. now apply Nat.eqb_eq in H.
Qed.


Lemma strings_eqb_refl a : Product.strings_eqb a a = true.
Proof. now apply strings_eqb_eq. Qed.

(** Setting [isActive] modifies the document exactly when the flag
    changes. *)
Lemma modified_isActive p v :
  Product.modified p (Product.mkPatch None None None None None None None None (Some v))
  = negb (Bool.eqb v (Product.isActive p)).
Proof.
  unfold Product.modified. cbn.
  rewrite !String.eqb_refl, Z.eqb_refl, !strings_eqb_refl. reflexivity.
Qed.


Section SoftDelete.
Context {ext : Externals}.


(** What an update that passes the validators and the unique index
    stores and answers. *)
Lemma updateProduct_stored env st (req : Request Product.patch) p :
  Product.findById (products st) (params_id req) = Some p ->
  Product.validate (Product.assign p (body req)) = [] ->
  Product.sku (Product.assign p (body req)) = Product.sku p
  \/ Product.sku_taken (Product.assign p (body req)) (products st) = false ->
  exists st' d,
    productController.updateProduct env st req
    = (st', Send (productController.product_response None d))
    /\ users st' = users st /\ next_oid st' = next_oid st
    /\ Product.findById (products st') (params_id req) = Some d
    /\ Product.set_updatedAt (Product.updatedAt p) d = Product.assign p (body req)
    /\ (Product.modified p (body req) = true -> Product.updatedAt d = now env)
    /\ (Product.modified p (body req) = false -> st' = st /\ d = p).
Proof.
  intros Hf Hv Hs. pose proof (findById_id _ _ _ Hf) as Hp.
  unfold productController.updateProduct. rewrite Hf.
  destruct (Product.modified p (body req)) eqn:Hm.
  - rewrite (save_modified _ _ _ _ Hv Hm Hs).
    eexists; eexists. split; [reflexivity|].
    split; [reflexivity|]. split; [reflexivity|]. split.
    + cbn [products set_products]. rewrite Hp.
      apply (findById_replaced _ _ p); [exact Hf|]. now rewrite <- Hp.
    + split; [destruct p; reflexivity|]. split; [reflexivity|discriminate].
  - rewrite (save_unmodified _ _ _ _ Hv Hm).
    exists st, p. split; [destruct st; reflexivity|].
    split; [reflexivity|]. split; [reflexivity|]. split; [exact Hf|].
    split; [rewrite (unmodified_assign _ _ Hm); destruct p; reflexivity|].
    split; [discriminate|auto].
Qed.



End SoftDelete.

(** ** The stored secret *)

Lemma has_key_strings k (l : list string) :
  existsb (has_key k) (map JStr l) = false.
Proof. induction l as [|x l IH]; simpl; [reflexivity|exact IH]. Qed.

Lemma toJSON_public (d : User.doc) : has_key "password" (User.toJSON d) = false.
Proof.
  unfold User.toJSON, User.toObject.
  destruct (User.password d), (User.lastLogin d); reflexivity.
Qed.



Section Secrets.
Context {ext : Externals}.





















(** *** Steps that do not depend on the stored secrets *)

Lemma same_public_refl st : same_public st st.
Proof.
  repeat split. induction (users st) as [|u l IH]; constructor; [|exact IH].
  split; reflexivity.
Qed.






















End Secrets.

(** ** Concrete runs

    The statements above at the sample store, with the reference
    libraries. *)

(** C1, as stated: John's token with a lapsed expiry and a good
    signature, and one with a bad signature, get the same error from
    [protect] and the same response, which is not the one
    [handleJWTExpiredError] would give. *)
Lemma C1_expired_token_not_distinct :
  jwt_verify (Externals := Runs.E) Sample.expired_token "s3cret" (now Sample.env)
  = inl (thrown "TokenExpiredError" "jwt expired")
  /\ jwt_verify (Externals := Runs.E) Sample.forged_token "s3cret" (now Sample.env)
     = inl (thrown "JsonWebTokenError" "invalid signature")
  /\ step_error (snd (auth.protect (ext := Runs.E) Sample.env Sample.with_john
                        (Runs.with_bearer Sample.expired_token)))
     = step_error (snd (auth.protect (ext := Runs.E) Sample.env Sample.with_john
                          (Runs.with_bearer Sample.forged_token)))
  /\ out_response (dispatch (routes.me (ext := Runs.E)) Sample.env Sample.with_john
                     (Runs.with_bearer Sample.expired_token))
     = out_response (dispatch (routes.me (ext := Runs.E)) Sample.env Sample.with_john
                       (Runs.with_bearer Sample.forged_token))
  /\ out_response (dispatch (routes.me (ext := Runs.E)) Sample.env Sample.with_john
                     (Runs.with_bearer Sample.expired_token))
     <> sendErrorProd handleJWTExpiredError.
Proof.
  repeat split; try (vm_compute; reflexivity).
  intros H. vm_compute in H. discriminate H.
Qed.

Lemma C1_witness :
  auth.protect (ext := Runs.E) Sample.env Sample.with_john
    (Runs.with_bearer Sample.expired_token)
  = (Sample.with_john,
     Fail (Runs.with_bearer Sample.expired_token)
       (AppError "Not authorized to access this route" 401)).
Proof.
  destruct (C1_verification_failure_is_unauthenticated (ext := Runs.E)
              Sample.env Sample.with_john (Runs.with_bearer Sample.expired_token)
              Sample.expired_token (thrown "TokenExpiredError" "jwt expired")
              authController.getMe) as [H _].
  - reflexivity.
  - vm_compute. reflexivity.
  - exact H.
Defined.

(** C2, as stated: John registers twice; the second registration fails
    with "User already exists with this email", not "email already
    exists", and no write was tried. *)
Lemma C2_second_registration_message :
  authController.register (ext := Runs.E) Sample.env Sample.with_john
    (Sample.request None None 0 Sample.john)
  = (Sample.with_john,
     Fail (Sample.request None None 0 Sample.john)
       (AppError "User already exists with this email" 400))
  /\ option_map errMessage
       (step_error (snd (authController.register (ext := Runs.E) Sample.env
                           Sample.with_john (Sample.request None None 0 Sample.john))))
     <> Some "email already exists".
Proof.
  split; [vm_compute; reflexivity|].
  intros H. vm_compute in H. discriminate H.
Qed.

Lemma C2_witness :
  authController.register (ext := Runs.E) Sample.env Sample.with_john
    (Sample.request None None 0 Sample.john)
  = (Sample.with_john,
     Fail (Sample.request None None 0 Sample.john)
       (AppError "User already exists with this email" 400)).
Proof.
  destruct (C2_existing_email_rejected_before_write (ext := Runs.E)
              Sample.env Sample.with_john (Sample.request None None 0 Sample.john)
              "john@example.com" Sample.john_doc) as [H _].
  - reflexivity.
  - vm_compute. left. reflexivity.
  - reflexivity.
  - exact H.
Defined.

(** C3, as stated: under the empty declaration [authorize()] John, an
    authenticated identity, does not pass; he gets 403. *)
Lemma C3_empty_declaration_rejects :
  auth.authorize [] Sample.env Sample.with_john (Runs.as_user Sample.john_doc)
  = (Sample.with_john,
     Fail (Runs.as_user Sample.john_doc)
       (AppError "User role 'user' is not authorized to access this route" 403))
  /\ resStatus (out_response
                  (dispatch [auth.authorize []; authController.getMe]
                     Sample.env Sample.with_john (Runs.as_user Sample.john_doc)))
     = 403.
Proof. split; vm_compute; reflexivity. Qed.

Lemma C3_witness :
  (auth.authorize ["user"; "admin"] Sample.env Sample.with_john
     (Runs.as_user Sample.john_doc)
   = (Sample.with_john, Next (Runs.as_user Sample.john_doc)))
  /\ auth.authorize ["admin"] Sample.env Sample.with_john
       (Runs.as_user Sample.john_doc)
     = (Sample.with_john,
        Fail (Runs.as_user Sample.john_doc)
          (AppError "User role 'user' is not authorized to access this route" 403)).
Proof.
  split.
  - destruct (C3_gate_passes_members_only (ext := Runs.E) Sample.env Sample.with_john
                (Runs.as_user Sample.john_doc) Sample.john_doc ["user"; "admin"]
                authController.getMe eq_refl) as [[_ H] _].
    apply H. simpl. auto.
  - destruct (C3_gate_passes_members_only (ext := Runs.E) Sample.env Sample.with_john
                (Runs.as_user Sample.john_doc) Sample.john_doc ["admin"]
                authController.getMe eq_refl) as (_ & _ & H & _).
    apply H. simpl. intros [H'|[]]. discriminate H'.
Defined.


Lemma C5_witness :
  auth.protect (ext := Runs.E) Sample.env Sample.with_inactive_john
    (Runs.with_bearer Sample.live_token)
  = (Sample.with_inactive_john,
     Fail (set_user (Some (User.set_password None (Sample.set_active false Sample.john_doc)))
             (Runs.with_bearer Sample.live_token))
       (AppError "User account is inactive" 401)).
Proof.
  destruct (C5_inactive_account_unauthenticated (ext := Runs.E)
              Sample.env Sample.with_inactive_john (Runs.with_bearer Sample.live_token)
              Sample.live_token {| tokId := 1; tokRole := "user" |}
              (Sample.set_active false Sample.john_doc) authController.getMe)
    as [H _].
  - reflexivity.
  - reflexivity.
  - vm_compute. reflexivity.
  - reflexivity.
  - reflexivity.
  - exact H.
Defined.

(** C6, as stated: John's account is stored but inactive; a login with
    an unknown email gets "Invalid credentials", a login for John with a
    wrong password gets "Account is inactive", and the two responses
    differ. *)
Lemma C6_inactive_account_is_revealed :
  step_error (snd (authController.login (ext := Runs.E) Sample.env
                     Sample.with_inactive_john
                     (Runs.credentials "nobody@example.com" "wrong-password")))
  = Some (AppError "Invalid credentials" 401)
  /\ step_error (snd (authController.login (ext := Runs.E) Sample.env
                        Sample.with_inactive_john
                        (Runs.credentials "john@example.com" "wrong-password")))
     = Some (AppError "Account is inactive" 401)
  /\ out_response (dispatch [authController.login (ext := Runs.E)] Sample.env
                     Sample.with_inactive_john
                     (Runs.credentials "nobody@example.com" "wrong-password"))
     <> out_response (dispatch [authController.login (ext := Runs.E)] Sample.env
                        Sample.with_inactive_john
                        (Runs.credentials "john@example.com" "wrong-password")).
Proof.
  repeat split; try (vm_compute; reflexivity).
  intros H. vm_compute in H. discriminate H.
Qed.

Lemma C6_witness :
  dispatch [authController.login (ext := Runs.E)] Sample.env Sample.with_john
    (Runs.credentials "nobody@example.com" "wrong-password")
  = dispatch [authController.login (ext := Runs.E)] Sample.env Sample.with_john
      (Runs.credentials "john@example.com" "wrong-password")
  /\ resStatus (out_response
                  (dispatch [authController.login (ext := Runs.E)] Sample.env_dev
                     Sample.with_john
                     (Runs.credentials "john@example.com" "wrong-password"))) = 401.
Proof.
  split.
  - destruct (C6_login_failures_alike_for_active (ext := Runs.E)
                Sample.env Sample.with_john
                (Runs.credentials "nobody@example.com" "wrong-password")
                (Runs.credentials "john@example.com" "wrong-password")
                "nobody@example.com" "wrong-password"
                "john@example.com" "wrong-password"
                Sample.john_doc "$2a$12$abcdefghijklmnopqrstuv$Password123")
      as [H _];
      [first [ reflexivity
             | vm_compute; reflexivity
             | intros x Hx; vm_compute in Hx; destruct Hx as [<-|[]];
               intros Hm; vm_compute in Hm; discriminate Hm ] ..|].
    destruct (H eq_refl) as (_ & _ & Hd & _). apply Hd. reflexivity.
  - destruct (C6_login_failures_alike_for_active (ext := Runs.E)
                Sample.env_dev Sample.with_john
                (Runs.credentials "nobody@example.com" "wrong-password")
                (Runs.credentials "john@example.com" "wrong-password")
                "nobody@example.com" "wrong-password"
                "john@example.com" "wrong-password"
                Sample.john_doc "$2a$12$abcdefghijklmnopqrstuv$Password123")
      as [H _];
      [first [ reflexivity
             | vm_compute; reflexivity
             | intros x Hx; vm_compute in Hx; destruct Hx as [<-|[]];
               intros Hm; vm_compute in Hm; discriminate Hm ] ..|].
    destruct (H eq_refl) as (_ & _ & _ & _ & _ & _ & Hs & _). exact Hs.
Defined.

Lemma C7_witness :
  auth.request_token
    (Sample.request (Sample.bearer "header.token") (Some [("token", "cookie.token")]) 0 tt)
  = Some "header.token"
  /\ auth.protect (ext := Runs.E) Sample.env Sample.with_john
       (Sample.request None None 0 tt)
     = (Sample.with_john,
        Fail (Sample.request None None 0 tt)
          (AppError "Not authorized to access this route" 401))
  /\ auth.protect (ext := Runs.E) Sample.env Sample.with_john
       (More.with_cookies [("token", Sample.live_token)])
     = (Sample.with_john,
        Next (set_user (Some (User.set_password None Sample.john_doc))
                (More.with_cookies [("token", Sample.live_token)])))
  /\ auth.protect (ext := Runs.E) Sample.env Sample.with_john
       (Sample.request (Sample.bearer Sample.forged_token)
          (Some [("token", Sample.live_token)]) 0 tt)
     = (Sample.with_john,
        Fail (Sample.request (Sample.bearer Sample.forged_token)
                (Some [("token", Sample.live_token)]) 0 tt)
          (AppError "Not authorized to access this route" 401)).
Proof.
  split; [|split; [|split]].
  - destruct (C7_header_before_cookie (ext := Runs.E) Sample.env Sample.with_john
                (Sample.request (Sample.bearer "header.token") None 0 tt))
      as (H & _).
    destruct (H "header.token" (Some [("token", "cookie.token")]) eq_refl eq_refl)
      as [Ht _].
    exact Ht.
  - destruct (C7_header_before_cookie (ext := Runs.E) Sample.env Sample.with_john
                (Sample.request None None 0 tt))
      as (_ & _ & _ & H & _).
    exact (H eq_refl eq_refl).
  - destruct (C7_header_before_cookie (ext := Runs.E) Sample.env Sample.with_john
                (More.with_cookies [("token", Sample.live_token)]))
      as (_ & _ & _ & _ & _ & _ & H).
    destruct (H [("token", Sample.live_token)] "token" Sample.live_token)
      as (_ & _ & Hpass);
      [intros h Hh; discriminate Hh | reflexivity | reflexivity | reflexivity |].
    apply (Hpass {| tokId := 1; tokRole := "user" |} Sample.john_doc);
      [vm_compute; reflexivity | vm_compute; reflexivity | reflexivity].
  - destruct (C7_header_before_cookie (ext := Runs.E) Sample.env Sample.with_john
                (Sample.request (Sample.bearer Sample.forged_token) None 0 tt))
      as (_ & _ & _ & _ & H & _).
    apply (H Sample.forged_token (Some [("token", Sample.live_token)])
             (thrown "JsonWebTokenError" "invalid signature"));
      [reflexivity | reflexivity | vm_compute; reflexivity].
Defined.

Lemma C9_witness :
  auth.optionalAuth (ext := Runs.E) Sample.env Sample.with_inactive_john
    (Runs.with_bearer Sample.live_token)
  = (Sample.with_inactive_john,
     Next (set_user (Some (User.set_password None (Sample.set_active false Sample.john_doc)))
             (Runs.with_bearer Sample.live_token)))
  /\ auth.optionalAuth (ext := Runs.E) Sample.env Sample.with_inactive_john
       (Runs.with_bearer Sample.expired_token)
     = (Sample.with_inactive_john, Next (Runs.with_bearer Sample.expired_token)).
Proof.
  split.
  - destruct (C9_optionalAuth_never_fails (ext := Runs.E) Sample.env
                Sample.with_inactive_john (Runs.with_bearer Sample.live_token))
      as (_ & _ & _ & _ & H).
    apply (H Sample.live_token {| tokId := 1; tokRole := "user" |}
             (Sample.set_active false Sample.john_doc));
      reflexivity.
  - destruct (C9_optionalAuth_never_fails (ext := Runs.E) Sample.env
                Sample.with_inactive_john (Runs.with_bearer Sample.expired_token))
      as (_ & _ & _ & H & _).
    apply (H Sample.expired_token (thrown "TokenExpiredError" "jwt expired"));
      [reflexivity|].
    vm_compute. reflexivity.
Defined.


(** C8, as stated: a client that is logged in as John by its cookie logs
    out three times in succession, five seconds and ten minutes after
    the first.  The first logout answers 200 and replaces the cookie by
    the placeholder; the later ones are refused 401, the client sending
    the placeholder and then, the placeholder expired, nothing. *)
Lemma C8_second_logout_by_cookie_is_refused :
  map (fun res => (resStatus res, resBody res))
    (snd (logout_session (ext := Runs.E) [Sample.env; More.soon; More.later]
            Sample.with_john More.session_jar (Sample.request None None 0 tt)))
  = [ (200, JObj [("status", JStr "success");
                  ("message", JStr "Logged out successfully")]);
      (401, JObj [("status", JStr "fail");
                  ("message", JStr "Not authorized to access this route")]);
      (401, JObj [("status", JStr "fail");
                  ("message", JStr "Not authorized to access this route")]) ]
  /\ map (fun e =>
            jar_send (now e)
              (snd (fst (logout_session (ext := Runs.E) [Sample.env]
                           Sample.with_john More.session_jar
                           (Sample.request None None 0 tt)))))
       [More.soon; More.later]
     = [ [("token", "none")]; [] ]
  /\ fst (fst (logout_session (ext := Runs.E) [Sample.env; More.soon; More.later]
                 Sample.with_john More.session_jar (Sample.request None None 0 tt)))
     = Sample.with_john.
Proof. repeat split; vm_compute; reflexivity. Qed.

Lemma C8_witness :
  logout_session (ext := Runs.E) [Sample.env; More.soon] Sample.with_john
    More.session_jar (Runs.with_bearer Sample.live_token)
  = (Sample.with_john,
     fold_left receive
       (snd (logout_each [Sample.env; More.soon] Sample.with_john
               (Runs.with_bearer Sample.live_token)))
       More.session_jar,
     snd (logout_each [Sample.env; More.soon] Sample.with_john
            (Runs.with_bearer Sample.live_token)))
  /\ Forall (fun res => resStatus res = 401)
       (snd (logout_session (ext := Runs.E) [More.soon; More.later] Sample.with_john
               (fold_left receive
                  (snd (logout_each [Sample.env] Sample.with_john
                          (Sample.request None None 0 tt)))
                  More.session_jar)
               (Sample.request None None 0 tt))).
Proof.
  split.
  - destruct (C8_logout_repeats_behind_protect (ext := Runs.E) [] Sample.env
                Sample.with_john (Runs.with_bearer Sample.live_token))
      as (_ & _ & _ & _ & _ & _ & _ & H & _).
    apply (H Sample.live_token [Sample.env; More.soon] More.session_jar);
      [reflexivity | reflexivity | reflexivity |].
    repeat (apply Forall_cons;
            [exists {| tokId := 1; tokRole := "user" |}, Sample.john_doc;
             split; [vm_compute; reflexivity|split; reflexivity] |]).
    apply Forall_nil.
  - destruct (C8_logout_repeats_behind_protect (ext := Runs.E) [] Sample.env
                Sample.with_john (Sample.request None None 0 tt))
      as (_ & _ & _ & _ & _ & _ & _ & _ & H).
    destruct (H [More.soon; More.later] More.session_jar) as [_ H401];
      [intros h Hh; discriminate Hh | | exact H401].
    repeat (apply Forall_cons;
            [exists (thrown "JsonWebTokenError" "jwt malformed");
             vm_compute; reflexivity |]).
    apply Forall_nil.
Defined.

(** * Further properties *)

(** ** Errors and the error handler *)

Lemma Z_range_check (P : Z -> bool) (lo : Z) (n : nat) :
  forallb P (map (fun k => lo + Z.of_nat k) (seq 0 n)) = true ->
  forall c, lo <= c < lo + Z.of_nat n -> P c = true.
Proof.
  intros H c Hc. rewrite forallb_forall in H. apply H.
  apply in_map_iff. exists (Z.to_nat (c - lo)). split; [lia|].
  apply in_seq. lia.
Qed.

(** X1: an [AppError] with a 4xx code has status [fail], one with a 5xx
    code has status [error]. *)
Theorem AppError_status_by_class message code :
  (400 <= code <= 499 -> errStatus (AppError message code) = Some "fail")
  /\ (500 <= code <= 599 -> errStatus (AppError message code) = Some "error").
Proof.
  split; intros Hc.
  - assert (H : Js.startsWith (Js.ofZ code) "4" = true).
    { apply (Z_range_check (fun c => Js.startsWith (Js.ofZ c) "4") 400 100);
        [vm_compute; reflexivity|lia]. }
    unfold AppError. cbn [errStatus]. now rewrite H.
  - assert (H : negb (Js.startsWith (Js.ofZ code) "4") = true).
    { apply (Z_range_check (fun c => negb (Js.startsWith (Js.ofZ c) "4")) 500 100);
        [vm_compute; reflexivity|lia]. }
    apply negb_true_iff in H. unfold AppError. cbn [errStatus]. now rewrite H.
Qed.

Lemma AppError_status_by_class_witness :
  errStatus (AppError "Product not found" 404) = Some "fail"
  /\ errStatus (AppError "Something failed" 500) = Some "error".
Proof.
  split.
  - apply (AppError_status_by_class "Product not found" 404). lia.
  - apply (AppError_status_by_class "Something failed" 500). lia.
Defined.

(** X2: an operational error made by [AppError] is answered with its own
    status code and its message as it is, in development and outside
    it. *)
Theorem errorHandler_operational_verbatim dev message code :
  code <> 0 ->
  resStatus (errorHandler dev (AppError message code)) = code
  /\ exists status rest,
      resBody (errorHandler dev (AppError message code))
      = JObj (("status", JStr status) :: rest)
      /\ errStatus (AppError message code) = Some status
      /\ In ("message", JStr message) rest.
Proof.
  intros Hc. apply Z.eqb_neq in Hc.
  unfold errorHandler, AppError, sendErrorDev, sendErrorProd, error_json,
    num_or, str_or.
  destruct (Js.startsWith (Js.ofZ code) "4"); destruct dev;
    cbn -[Z.eqb]; repeat (rewrite Hc; cbn -[Z.eqb]);
    (split; [reflexivity|]);
    eexists; eexists; (split; [reflexivity|]); (split; [reflexivity|]);
    simpl; auto.
Qed.

Lemma errorHandler_operational_verbatim_witness :
  resStatus (errorHandler false (AppError "Invalid credentials" 401)) = 401.
Proof.
  apply (errorHandler_operational_verbatim false "Invalid credentials" 401).
  discriminate.
Defined.

(** X3: outside development, an error that is not operational and is
    none of the database and token errors the handler knows is answered
    500 "Something went wrong!", whatever it carries. *)
Theorem errorHandler_production_generic err :
  errIsOperational err = false ->
  errName err <> "ValidationError" -> errName err <> "CastError" ->
  errName err <> "JsonWebTokenError" -> errName err <> "TokenExpiredError" ->
  (errName err = "MongoServerError" -> errCode err <> Some 11000) ->
  errorHandler false err = More.plain_response 500 "error" "Something went wrong!".
Proof.
  intros Hop Hv Hc Hj Ht Hm.
  apply String.eqb_neq in Hv, Hc, Hj, Ht.
  unfold errorHandler. cbv zeta. cbn [errName errCode].
  rewrite Hv, Hc, Hj, Ht.
  assert (Hd : (String.eqb (errName err) "MongoServerError"
                && match errCode err with Some c => c =? 11000 | None => false end)%bool
               = false).
  { destruct (String.eqb (errName err) "MongoServerError") eqn:E; [|reflexivity].
    apply String.eqb_eq in E. specialize (Hm E).
    destruct (errCode err) as [c|]; [|reflexivity]. simpl.
    apply Z.eqb_neq. intros ->. now apply Hm. }
  rewrite Hd. unfold sendErrorProd. cbn [errIsOperational]. rewrite Hop. reflexivity.
Qed.

Lemma errorHandler_production_generic_witness :
  errorHandler false (TypeError "Cannot read properties of undefined (reading 'id')")
  = More.plain_response 500 "error" "Something went wrong!".
Proof.
  apply errorHandler_production_generic;
    first [reflexivity | discriminate | intros H; discriminate H].
Defined.

(** X4: outside development the handler rewrites the errors it knows: a
    duplicate key on [field] becomes 400 "[field] already exists", a
    validation error 400 with its messages joined, a cast error 400, the
    two token errors 401; in development each of them is answered 500
    with the message it came with. *)
Theorem errorHandler_translates_known_errors :
  (forall field value,
      errorHandler false (MongoDuplicateKey field value)
      = More.plain_response 400 "fail" (field ++ " already exists"))
  /\ (forall errors,
         errorHandler false (ValidationError errors)
         = More.plain_response 400 "fail"
             ("Invalid input data: " ++ Js.join ". " (map snd errors)))
  /\ (forall path value,
         errorHandler false (CastError path value)
         = More.plain_response 400 "fail" ("Invalid " ++ path ++ ": " ++ value))
  /\ (forall message,
         errorHandler false (thrown "JsonWebTokenError" message)
         = More.plain_response 401 "fail" "Invalid token. Please log in again.")
  /\ (forall message,
         errorHandler false (thrown "TokenExpiredError" message)
         = More.plain_response 401 "fail" "Your token has expired. Please log in again.")
  /\ (forall err,
         errStatusCode err = None ->
         resStatus (errorHandler true err) = 500
         /\ exists status rest,
             resBody (errorHandler true err) = JObj (status :: rest)
             /\ In ("message", JStr (errMessage err)) rest).
Proof.
  repeat split; try reflexivity.
  - unfold errorHandler, sendErrorDev. simpl. now rewrite H.
  - eexists; eexists. split; [reflexivity|]. simpl. auto.
Qed.

Lemma errorHandler_translates_known_errors_witness :
  resStatus (errorHandler true (MongoDuplicateKey "email" "john@example.com")) = 500.
Proof.
  destruct errorHandler_translates_known_errors as (_ & _ & _ & _ & _ & H).
  apply (H (MongoDuplicateKey "email" "john@example.com")). reflexivity.
Defined.

(** ** The validation stage *)

(** X5: with findings, [validate] ends the chain with 400 "Validation
    failed" whose details list one entry per finding, in order, each
    with the value that was submitted; the handler does not run and the
    store is untouched.  With none, the request goes on as it came. *)
Theorem validate_stops_chain {B} (errors : list ValidationItem) env st
    (req : Request B) (handler : Middleware B) :
  (errors <> [] ->
   dispatch [validation.validate errors; handler] env st req
   = {| out_store := st;
        out_response :=
          errorHandler (config.isDevelopment (penv env))
            (AppErrorDetails "Validation failed" 400
               (JObj [("errors", JArr (map validation.item_json errors))]));
        out_invoked := 1 |}
   /\ errorHandler false
        (AppErrorDetails "Validation failed" 400
           (JObj [("errors", JArr (map validation.item_json errors))]))
      = {| resStatus := 400;
           resBody := JObj [("status", JStr "fail");
                            ("message", JStr "Validation failed");
                            ("details",
                             JObj [("errors",
                                    JArr (map validation.item_json errors))])];
           resCookies := [] |})
  /\ (errors = [] ->
      dispatch [validation.validate errors; handler] env st req
      = dispatch_from 1 [handler] env st req).
Proof.
  split.
  - intros Hne. destruct errors as [|e rest]; [contradiction|].
    split; reflexivity.
  - intros ->. reflexivity.
Qed.

Lemma validate_stops_chain_witness :
  out_response (dispatch [validation.validate [More.short_password];
                          authController.register (ext := Runs.E)]
                  Sample.env Sample.empty (Sample.request None None 0 Sample.john))
  = {| resStatus := 400;
       resBody := JObj [("status", JStr "fail");
                        ("message", JStr "Validation failed");
                        ("details",
                         JObj [("errors",
                                JArr [JObj [("field", JStr "password");
                                            ("message",
                                             JStr "Password must be at least 6 characters");
                                            ("value", JStr "abc")]])])];
       resCookies := [] |}.
Proof.
  destruct (validate_stops_chain [More.short_password] Sample.env Sample.empty
              (Sample.request None None 0 Sample.john)
              (authController.register (ext := Runs.E))) as [H _].
  destruct (H ltac:(discriminate)) as [H1 H2].
  rewrite H1. exact H2.
Defined.

(** ** Configuration and page arithmetic *)

Lemma digits_step acc c r k :
  JsNum.digit_value c = Some k ->
  JsNum.digits acc (String c r)
  = JsNum.digits (Some (10 * match acc with Some a => a | None => 0 end + k)) r.
Proof. intros H. cbn [JsNum.digits]. now rewrite H. Qed.

Lemma digits_acc d acc :
  JsNum.digits (Some (Z.pos acc)) (NilEmpty.string_of_uint d)
  = Some (Z.pos (Pos.of_uint_acc d acc)).
Proof.
  revert acc. induction d; intros acc; [reflexivity|..]; digit_step digits_step IHd.
Qed.

Lemma digits_zero d :
  JsNum.digits (Some 0) (NilEmpty.string_of_uint d) = Some (Z.of_N (Pos.of_uint d)).
Proof.
  induction d; [reflexivity|digit_step digits_step IHd|..]; digit_step digits_step digits_acc.
Qed.

Lemma digits_uint d :
  d <> Decimal.Nil ->
  JsNum.digits None (NilEmpty.string_of_uint d) = Some (Z.of_N (Pos.of_uint d)).
Proof.
  destruct d; intros Hd; [contradiction|digit_step digits_step digits_zero|..];
    digit_step digits_step digits_acc.
Qed.

Lemma mathInt_pos p :
  JsNum.mathInt (Some (NilEmpty.string_of_uint (Pos.to_uint p))) = Some (Z.pos p)
  /\ JsNum.digits None (NilEmpty.string_of_uint (Pos.to_uint p)) = Some (Z.pos p).
Proof.
  pose proof (Unsigned.to_uint_nonnil p) as Hn.
  pose proof (digits_uint _ Hn) as Hd.
  rewrite DecimalPos.Unsigned.of_to in Hd. simpl Z.of_N in Hd.
  split; [|exact Hd].
  unfold JsNum.mathInt.
  destruct (Pos.to_uint p); [contradiction|..]; exact Hd.
Qed.

(** The decimal form of a whole number is read back as that number. *)
Lemma mathInt_ofZ n : JsNum.mathInt (Some (Js.ofZ n)) = Some n.
Proof.
  destruct n as [|p|p]; [reflexivity|..]; unfold Js.ofZ; simpl Z.to_int;
    pose proof (Unsigned.to_uint_nonnil p) as Hn;
    destruct (mathInt_pos p) as [H1 H2].
  - unfold NilZero.string_of_int, NilZero.string_of_uint.
    destruct (Pos.to_uint p); [contradiction|..]; exact H1.
  - unfold NilZero.string_of_int, NilZero.string_of_uint.
    assert (Hs : JsNum.mathInt (Some (String "-" (NilEmpty.string_of_uint (Pos.to_uint p))))
                 = Some (Z.neg p)).
    { unfold JsNum.mathInt. cbn [Js.trimStart].
      change (Js.is_space "-") with false. cbv iota.
      rewrite H2. reflexivity. }
    destruct (Pos.to_uint p); [contradiction|..]; exact Hs.
Qed.

(** The nearest double of a quotient of whole numbers below 2^53: the
    exponent is not positive, the significand has its 53 bits. *)
Lemma nearest_small n d :
  0 < n < 2 ^ 53 -> 0 < d < 2 ^ 53 ->
  exists t,
    0 <= t /\ 2 ^ 52 * d <= n * 2 ^ t
    /\ JsNum.nearest n d
       = (if (d <? 2 * ((n * 2 ^ t) mod d))
             || ((2 * ((n * 2 ^ t) mod d) =? d) && Z.odd (n * 2 ^ t / d))
          then n * 2 ^ t / d + 1 else n * 2 ^ t / d, - t).
Proof.
  intros Hn Hd.
  pose proof (Z.log2_spec n ltac:(lia)) as Hln.
  pose proof (Z.log2_spec d ltac:(lia)) as Hld.
  pose proof (Z.log2_nonneg n) as Hn0. pose proof (Z.log2_nonneg d) as Hd0.
  assert (Hn53 : Z.log2 n < 53) by (apply Z.log2_lt_pow2; lia).
  assert (Hd53 : Z.log2 d < 53) by (apply Z.log2_lt_pow2; lia).
  unfold JsNum.nearest, JsNum.scale.
  set (e1 := Z.log2 n - Z.log2 d - 53).
  assert (He1 : - 105 <= e1 <= - 1) by (unfold e1; lia).
  rewrite (Z.max_r 0 (- e1)), (Z.max_l 0 e1) by lia.
  rewrite Z.pow_0_r, Z.mul_1_r.
  destruct (n * 2 ^ (- e1) / d <? 2 ^ 53) eqn:E.
  - rewrite (Z.max_l e1 (- 1074)) by lia.
    rewrite (Z.max_r 0 (- e1)), (Z.max_l 0 e1) by lia.
    rewrite Z.pow_0_r, Z.mul_1_r.
    exists (- e1). split; [lia|]. split; [|now rewrite Z.opp_involutive].
    assert (H : 2 ^ Z.log2 n * 2 ^ (- e1) = 2 ^ 52 * 2 ^ Z.succ (Z.log2 d)).
    { rewrite <- !Z.pow_add_r by lia. f_equal. unfold e1. lia. }
    assert (0 < 2 ^ (- e1)) by (apply Z.pow_pos_nonneg; lia).
    nia.
  - rewrite (Z.max_l (e1 + 1) (- 1074)) by lia.
    rewrite (Z.max_r 0 (- (e1 + 1))), (Z.max_l 0 (e1 + 1)) by lia.
    rewrite Z.pow_0_r, Z.mul_1_r.
    exists (- (e1 + 1)). split; [lia|]. split; [|now rewrite Z.opp_involutive].
    apply Z.ltb_ge in E.
    assert (H : 2 ^ (- e1) = 2 * 2 ^ (- (e1 + 1))).
    { replace (- e1) with (1 + - (e1 + 1)) by lia.
      rewrite Z.pow_add_r by lia. reflexivity. }
    pose proof (Z.mul_div_le (n * 2 ^ (- e1)) d ltac:(lia)) as Hm.
    assert (0 < 2 ^ (- (e1 + 1))) by (apply Z.pow_pos_nonneg; lia).
    nia.
Qed.

(** Whole numbers below 2^53 are doubles. *)
Lemma round_int_exact z : Z.abs z < 2 ^ 53 -> JsNum.round_int z = JsNum.Fin z.
Proof.
  intros Hz. unfold JsNum.round_int.
  destruct (z =? 0) eqn:E0; [apply Z.eqb_eq in E0; now subst|].
  apply Z.eqb_neq in E0.
  destruct (nearest_small (Z.abs z) 1 ltac:(lia) ltac:(lia)) as (t & Ht & _ & ->).
  rewrite Z.mod_1_r, Z.div_1_r. cbn [Z.mul Z.ltb Z.compare Z.eqb orb andb].
  assert (Hp : 0 < 2 ^ t) by (apply Z.pow_pos_nonneg; lia).
  assert (Hv : (if 0 <=? - t then Z.abs z * 2 ^ t * 2 ^ (- t)
                else Z.abs z * 2 ^ t / 2 ^ (- - t)) = Z.abs z).
  { destruct (0 <=? - t) eqn:E.
    - apply Z.leb_le in E. replace t with 0 by lia. simpl. lia.
    - rewrite Z.opp_involutive. apply Z.div_mul. lia. }
  rewrite Hv.
  destruct (2 ^ 1024 <=? Z.abs z) eqn:E; [apply Z.leb_le in E|].
  - assert (2 ^ 53 < 2 ^ 1024) by (apply Z.pow_lt_mono_r; lia). lia.
  - f_equal. lia.
Qed.

Lemma ceil_unique m T k :
  0 < T -> (k - 1) * T < m <= k * T -> - ((- m) / T) = k.
Proof.
  intros HT Hm.
  pose proof (Z.div_mod (- m) T ltac:(lia)) as Hd.
  pose proof (Z.mod_pos_bound (- m) T HT) as Hb. nia.
Qed.

(** Below 2^53 the rounding of the quotient does not move its ceiling. *)
Lemma ceil_quot_exact a b :
  0 <= a < 2 ^ 53 -> 0 < b < 2 ^ 53 ->
  JsNum.ceil_quot a b = JsNum.Fin (- ((- a) / b)).
Proof.
  intros Ha Hb. unfold JsNum.ceil_quot.
  destruct (a =? 0) eqn:E0; [apply Z.eqb_eq in E0; now subst|].
  apply Z.eqb_neq in E0.
  rewrite (Z.abs_eq a), (Z.abs_eq b) by lia.
  destruct (nearest_small a b ltac:(lia) ltac:(lia)) as (t & Ht & HK & ->).
  replace (a <? 0) with false by (symmetry; apply Z.ltb_ge; lia).
  replace (b <? 0) with false by (symmetry; apply Z.ltb_ge; lia).
  cbn [xorb]. rewrite Z.opp_involutive.
  set (k := - ((- a) / b)).
  assert (Hk : (k - 1) * b < a <= k * b).
  { unfold k. pose proof (Z.div_mod (- a) b ltac:(lia)) as Hd.
    pose proof (Z.mod_pos_bound (- a) b ltac:(lia)) as Hm. nia. }
  assert (HT : 0 < 2 ^ t) by (apply Z.pow_pos_nonneg; lia).
  set (T := 2 ^ t) in *.
  pose proof (Z.div_mod (a * T) b ltac:(lia)) as Hd.
  pose proof (Z.mod_pos_bound (a * T) b ltac:(lia)) as Hr.
  set (m0 := a * T / b) in *. set (r := (a * T) mod b) in *.
  set (m := if (b <? 2 * r) || ((2 * r =? b) && Z.odd m0) then m0 + 1 else m0).
  assert (Hm : (k - 1) * T < m <= k * T).
  { assert (Hlo : (k - 1) * T <= m0) by nia.
    assert (Hhi : m0 <= k * T) by nia.
    unfold m. destruct (b <? 2 * r) eqn:E1; cbn [orb].
    - apply Z.ltb_lt in E1. nia.
    - apply Z.ltb_ge in E1. destruct (2 * r =? b) eqn:E2; cbn [andb].
      + apply Z.eqb_eq in E2. destruct (Z.odd m0); nia.
      + apply Z.eqb_neq in E2. nia. }
  assert (Hv : (if 0 <=? - t then m * 2 ^ (- t) else - (- m / T)) = k).
  { destruct (0 <=? - t) eqn:E.
    - apply Z.leb_le in E. assert (t = 0) by lia. subst t.
      change (2 ^ (- 0)) with 1. change T with 1 in Hm. lia.
    - now apply ceil_unique. }
  rewrite Hv.
  assert (k <= a) by nia.
  destruct (2 ^ 1024 <=? k) eqn:E; [apply Z.leb_le in E|reflexivity].
  assert (2 ^ 53 < 2 ^ 1024) by (apply Z.pow_lt_mono_r; lia). lia.
Qed.

(** [parseInt] reads back the decimal form of a whole number below
    2^53. *)
Lemma parseInt_ofZ n :
  Z.abs n < 2 ^ 53 -> JsNum.parseInt (Some (Js.ofZ n)) = JsNum.Fin n.
Proof.
  intros Hn. unfold JsNum.parseInt. rewrite mathInt_ofZ. now apply round_int_exact.
Qed.

Lemma or_truthy x d : JsNum.truthy d = true -> JsNum.truthy (JsNum.or x d) = true.
Proof. intros Hd. unfold JsNum.or. destruct (JsNum.truthy x) eqn:E; assumption. Qed.

Lemma or_given n d : n <> 0 -> JsNum.or (JsNum.Fin n) d = JsNum.Fin n.
Proof.
  intros Hn. unfold JsNum.or, JsNum.truthy. apply Z.eqb_neq in Hn. now rewrite Hn.
Qed.

Lemma or_default x d : JsNum.truthy x = false -> JsNum.or x d = d.
Proof. intros Hx. unfold JsNum.or. now rewrite Hx. Qed.

(** X6: the numeric settings are never zero nor [NaN]; a variable
    holding the decimal form of a whole number other than zero and
    below 2^53 gives that number (the rate-limit window in minutes,
    turned into milliseconds, while the product is below 2^53); an
    absent variable gives the default.  Beyond 2^53 the number is
    rounded to a double: 2^53 + 1 gives 2^53. *)
Theorem settings_numbers se :
  (JsNum.truthy (settings.port se) = true
   /\ JsNum.truthy (settings.rateLimit_windowMs se) = true
   /\ JsNum.truthy (settings.rateLimit_max se) = true
   /\ JsNum.truthy (settings.jwt_cookieExpires se) = true)
  /\ (forall n, n <> 0 -> Z.abs n < 2 ^ 53 -> PORT se = Some (Js.ofZ n) ->
      settings.port se = JsNum.Fin n)
  /\ (forall n, n <> 0 -> Z.abs n * 60000 < 2 ^ 53 ->
      RATE_LIMIT_WINDOW_MS se = Some (Js.ofZ n) ->
      settings.rateLimit_windowMs se = JsNum.Fin (n * 60000))
  /\ (forall n, n <> 0 -> Z.abs n < 2 ^ 53 ->
      RATE_LIMIT_MAX_REQUESTS se = Some (Js.ofZ n) ->
      settings.rateLimit_max se = JsNum.Fin n)
  /\ (PORT se = None -> settings.port se = JsNum.Fin 3000)
  /\ (RATE_LIMIT_WINDOW_MS se = None ->
      settings.rateLimit_windowMs se = JsNum.Fin 900000)
  /\ (RATE_LIMIT_MAX_REQUESTS se = None -> settings.rateLimit_max se = JsNum.Fin 100)
  /\ (PORT se = Some "9007199254740993" ->
      settings.port se = JsNum.Fin 9007199254740992).
Proof.
  unfold settings.port, settings.rateLimit_windowMs, settings.rateLimit_max,
    settings.jwt_cookieExpires.
  split; [repeat split; apply or_truthy; reflexivity|].
  split; [intros n Hn Hb ->; rewrite parseInt_ofZ by exact Hb; now apply or_given|].
  split.
  { intros n Hn Hb ->. rewrite parseInt_ofZ by lia. cbn [JsNum.mul].
    rewrite (round_int_exact (n * 60)) by lia. cbn [JsNum.mul].
    rewrite (round_int_exact (n * 60 * 1000)) by lia.
    rewrite or_given by lia. f_equal. lia. }
  split; [intros n Hn Hb ->; rewrite parseInt_ofZ by exact Hb; now apply or_given|].
  repeat split; intros ->; vm_compute; reflexivity.
Qed.

Lemma settings_numbers_witness :
  settings.port More.production_env = JsNum.Fin 8080
  /\ settings.rateLimit_windowMs More.production_env = JsNum.Fin 300000
  /\ settings.rateLimit_max More.production_env = JsNum.Fin 100.
Proof.
  destruct (settings_numbers More.production_env) as (_ & Hp & Hw & _).
  split; [apply (Hp 8080); [lia|reflexivity|reflexivity]|].
  split; [apply (Hw 5); [lia|reflexivity|reflexivity]|].
  reflexivity.
Defined.

(** X7: in production the configuration loads only when MONGODB_URI and
    JWT_SECRET are both set and not empty, and then the signing key is
    JWT_SECRET, never the built-in default; with either missing the
    process exits and reports it.  Outside production it always loads. *)
Theorem production_requires_secrets se :
  (config.isProduction (base se) = true ->
   forall cfg, settings.load se = inr cfg ->
     cfg = se
     /\ exists uri secret,
         MONGODB_URI se = Some uri /\ JWT_SECRET (base se) = Some secret
         /\ uri <> "" /\ secret <> ""
         /\ settings.mongodb_uri cfg = uri
         /\ config.jwt_secret (base cfg) = secret)
  /\ (config.isProduction (base se) = true ->
      authController.falsy (JWT_SECRET (base se)) = true ->
      exists missing, settings.load se = inl missing /\ In "JWT_SECRET" missing)
  /\ (config.isProduction (base se) = true ->
      authController.falsy (MONGODB_URI se) = true ->
      exists missing, settings.load se = inl missing /\ In "MONGODB_URI" missing)
  /\ (config.isProduction (base se) = false -> settings.load se = inr se).
Proof.
  unfold settings.load, settings.missingVars, settings.lookup,
    settings.mongodb_uri, config.jwt_secret, authController.falsy, str_or.
  cbn [filter String.eqb Ascii.eqb Bool.eqb].
  split; [|split; [|split]].
  - intros Hp cfg Hl. rewrite Hp in Hl.
    destruct (MONGODB_URI se) as [[|c u]|] eqn:Eu,
             (JWT_SECRET (base se)) as [[|c' k]|] eqn:Ek;
      simpl in Hl; try discriminate.
    injection Hl as <-. split; [reflexivity|]. rewrite Eu, Ek.
    exists (String c u), (String c' k). repeat split; discriminate.
  - intros Hp Hf. rewrite Hp.
    destruct (MONGODB_URI se) as [[|c u]|], (JWT_SECRET (base se)) as [[|c' k]|];
      simpl in Hf |- *; try discriminate; eexists; (split; [reflexivity|]);
      simpl; auto.
  - intros Hp Hf. rewrite Hp.
    destruct (MONGODB_URI se) as [[|c u]|], (JWT_SECRET (base se)) as [[|c' k]|];
      simpl in Hf |- *; try discriminate; eexists; (split; [reflexivity|]);
      simpl; auto.
  - intros Hp. rewrite Hp. reflexivity.
Qed.

Lemma production_requires_secrets_witness :
  settings.load More.production_env = inr More.production_env
  /\ config.jwt_secret (base More.production_env) = "s3cret".
Proof.
  destruct (production_requires_secrets More.production_env) as (H & _).
  destruct (H eq_refl More.production_env eq_refl) as (_ & uri & secret & _ & Hs & _ & _ & _ & Hk).
  split; [reflexivity|]. rewrite Hk. vm_compute in Hs. now injection Hs as <-.
Defined.

(** X8: the page and the limit of the product listing are never zero
    nor [NaN] (a query value that is absent, not a number or zero gives
    page 1 and limit 10), so the page count never divides by zero; the
    decimal form of a whole number other than zero and below 2^53 is
    taken as it is; the offset is [(page - 1) * limit] while that is
    below 2^53; and with a positive limit and a count below 2^53 the
    pages cover the matches exactly:
    [(pages - 1) * limit < total <= pages * limit]. *)
Theorem paging_covers page0 limit0 total :
  let p := productController.paging page0 limit0 total in
  JsNum.truthy (productController.pg_page p) = true
  /\ JsNum.truthy (productController.pg_limit p) = true
  /\ (JsNum.truthy (JsNum.parseInt page0) = false ->
      productController.pg_page p = JsNum.Fin 1)
  /\ (JsNum.truthy (JsNum.parseInt limit0) = false ->
      productController.pg_limit p = JsNum.Fin 10)
  /\ (forall n, n <> 0 -> Z.abs n < 2 ^ 53 -> page0 = Some (Js.ofZ n) ->
      productController.pg_page p = JsNum.Fin n)
  /\ (forall n, n <> 0 -> Z.abs n < 2 ^ 53 -> limit0 = Some (Js.ofZ n) ->
      productController.pg_limit p = JsNum.Fin n)
  /\ (forall a b,
         productController.pg_page p = JsNum.Fin a ->
         productController.pg_limit p = JsNum.Fin b ->
         Z.abs (a - 1) < 2 ^ 53 -> Z.abs ((a - 1) * b) < 2 ^ 53 ->
         productController.pg_skip p = JsNum.Fin ((a - 1) * b))
  /\ (forall n,
         productController.pg_limit p = JsNum.Fin n ->
         0 < n < 2 ^ 53 -> 0 <= total < 2 ^ 53 ->
         exists k,
           productController.pg_pages p = JsNum.Fin k
           /\ (k - 1) * n < total /\ total <= k * n).
Proof.
  cbv zeta. unfold productController.paging. cbn [productController.pg_page
    productController.pg_limit productController.pg_skip productController.pg_pages].
  split; [apply or_truthy; reflexivity|]. split; [apply or_truthy; reflexivity|].
  split; [intros H; now apply or_default|]. split; [intros H; now apply or_default|].
  split; [intros n Hn Hb ->; rewrite parseInt_ofZ by exact Hb; now apply or_given|].
  split; [intros n Hn Hb ->; rewrite parseInt_ofZ by exact Hb; now apply or_given|].
  split.
  - intros a b -> -> Ha Hab. cbn [JsNum.sub JsNum.mul].
    rewrite (round_int_exact (a - 1)) by exact Ha. cbn [JsNum.mul].
    now apply round_int_exact.
  - intros n -> Hn Ht. exists (- ((- total) / n)).
    cbn [JsNum.ceil_div].
    replace (n =? 0) with false by (symmetry; apply Z.eqb_neq; lia).
    split; [now apply ceil_quot_exact|].
    pose proof (Z.div_mod (- total) n ltac:(lia)) as Hd.
    pose proof (Z.mod_pos_bound (- total) n ltac:(lia)) as Hm. nia.
Qed.

Lemma paging_covers_witness :
  productController.pg_pages (productController.paging (Some "2") (Some "25") 101)
  = JsNum.Fin 5
  /\ productController.pg_skip (productController.paging (Some "2") (Some "25") 101)
     = JsNum.Fin 25.
Proof.
  destruct (paging_covers (Some "2") (Some "25") 101)
    as (_ & _ & _ & _ & _ & _ & Hs & Hp).
  split.
  - destruct (Hp 25) as (k & Hk & Hlo & Hhi); [reflexivity|lia|lia|].
    rewrite Hk. f_equal. lia.
  - apply (Hs 2 25); [reflexivity|reflexivity|reflexivity|reflexivity].
Defined.

(** ** Accounts *)

Lemma lower_char_idem c : Js.lower_char (Js.lower_char c) = Js.lower_char c.
Proof. destruct c as [[] [] [] [] [] [] [] []]; reflexivity. Qed.

Lemma lower_upper_char c : Js.lower_char (Js.upper_char c) = Js.lower_char c.
Proof. destruct c as [[] [] [] [] [] [] [] []]; reflexivity. Qed.

Lemma toLowerCase_idem s : Js.toLowerCase (Js.toLowerCase s) = Js.toLowerCase s.
Proof.
  unfold Js.toLowerCase. induction s as [|c r IH]; simpl; [reflexivity|].
  now rewrite lower_char_idem, IH.
Qed.

Lemma toLowerCase_toUpperCase s :
  Js.toLowerCase (Js.toUpperCase s) = Js.toLowerCase s.
Proof.
  unfold Js.toLowerCase, Js.toUpperCase.
  induction s as [|c r IH]; simpl; [reflexivity|].
  now rewrite lower_upper_char, IH.
Qed.

Lemma lower_fixed_cons c r :
  Js.toLowerCase (String c r) = String c r ->
  Js.lower_char c = c /\ Js.toLowerCase r = r.
Proof. unfold Js.toLowerCase. simpl. intros H. now injection H. Qed.

Lemma trimStart_lower_fixed s :
  Js.toLowerCase s = s -> Js.toLowerCase (Js.trimStart s) = Js.trimStart s.
Proof.
  induction s as [|c r IH]; intros H; simpl; [reflexivity|].
  destruct (lower_fixed_cons _ _ H) as [_ Hr].
  destruct (Js.is_space c); [now apply IH|exact H].
Qed.

Lemma trimEnd_lower_fixed s :
  Js.toLowerCase s = s -> Js.toLowerCase (Js.trimEnd s) = Js.trimEnd s.
Proof.
  induction s as [|c r IH]; intros H; simpl; [reflexivity|].
  destruct (lower_fixed_cons _ _ H) as [Hc Hr]. specialize (IH Hr).
  destruct (Js.trimEnd r) as [|c' r'] eqn:E.
  - destruct (Js.is_space c); [reflexivity|].
    unfold Js.toLowerCase. simpl. now rewrite Hc.
  - unfold Js.toLowerCase in *. simpl in *. now rewrite Hc, IH.
Qed.

(** A stored email is in lower case. *)
Lemma normalised_email_fixed e :
  Js.toLowerCase (Js.trim (Js.toLowerCase e)) = Js.trim (Js.toLowerCase e).
Proof.
  unfold Js.trim. apply trimEnd_lower_fixed, trimStart_lower_fixed, toLowerCase_idem.
Qed.

Lemma find_app_none {A} (f : A -> bool) l x :
  existsb f l = false -> f x = true -> find f (l ++ [x]) = Some x.
Proof.
  induction l as [|a l IH]; simpl; intros He Hx.
  - now rewrite Hx.
  - apply orb_false_iff in He. destruct He as [Ha He]. rewrite Ha. now apply IH.
Qed.

Lemma find_unique {A K} (key : A -> K) (eqb : K -> K -> bool)
    (eqb_eq : forall a b, eqb a b = true <-> a = b) (l : list A) u :
  NoDup (map key l) -> In u l ->
  find (fun x => eqb (key x) (key u)) l = Some u.
Proof.
  induction l as [|a l IH]; simpl; intros Hn Hin; [contradiction|].
  inversion Hn as [|? ? Hnot Hn']; subst.
  destruct Hin as [->|Hin].
  - assert (E : eqb (key u) (key u) = true) by now apply eqb_eq.
    now rewrite E.
  - destruct (eqb (key a) (key u)) eqn:E; [|now apply IH].
    apply eqb_eq in E. exfalso. apply Hnot. rewrite E. now apply in_map.
Qed.

Section Accounts2.
Context {ext : Externals}.

(** What a registration that wrote the account did, before the token
    is signed. *)
Lemma create_account env oid coll n0 e0 p0 u us :
  User.create env oid coll n0 e0 p0 = inr (u, us) ->
  exists n e p,
    n0 = Some n /\ e0 = Some e /\ p0 = Some p
    /\ User.check_name (Some (Js.trim n)) = []
    /\ User.check_email (Some (Js.trim (Js.toLowerCase e))) = []
    /\ User.check_password (Some p) = []
    /\ existsb (fun x => String.eqb (User.email x) (Js.trim (Js.toLowerCase e)))
         coll = false
    /\ u = {| User._id := oid; User.name := Js.trim n;
              User.email := Js.trim (Js.toLowerCase e);
              User.password := Some (bcrypt_hash p (salt env));
              User.role := "user"; User.isActive := true;
              User.lastLogin := None;
              User.createdAt := now env; User.updatedAt := now env |}
    /\ us = (coll ++ [u])%list.
Proof.
  unfold User.create. intros E.
  destruct n0 as [n|]; simpl option_map in E;
    [|destruct (User.check_name None ++ _)%list eqn:Hc in E; discriminate].
  destruct e0 as [e|]; simpl option_map in E.
  2:{ destruct (User.check_name _ ++ User.check_email None ++ _)%list
        eqn:Hc in E; [|discriminate].
      apply app_eq_nil in Hc as [_ Hc]. apply app_eq_nil in Hc as [Hc _].
      discriminate. }
  destruct p0 as [p|].
  2:{ destruct (User.check_name _ ++ User.check_email _ ++ User.check_password None)%list
        eqn:Hc in E; [|discriminate].
      apply app_eq_nil in Hc as [_ Hc]. apply app_eq_nil in Hc as [_ Hc].
      discriminate. }
  destruct (User.check_name _ ++ User.check_email _ ++ User.check_password _)%list
    eqn:Hc in E; [|discriminate].
  apply app_eq_nil in Hc as [Hc1 Hc]. apply app_eq_nil in Hc as [Hc2 Hc3].
  destruct (existsb _ coll) eqn:Hex in E; [discriminate|].
  injection E as <- <-.
  exists n, e, p. repeat split; assumption.
Qed.

(** What a successful registration did. *)
Lemma register_success env st (req : Request AuthBody) st' res :
  authController.register env st req = (st', Send res) ->
  exists n e p,
    b_name (body req) = Some n /\ b_email (body req) = Some e
    /\ b_password (body req) = Some p
    /\ User.check_name (Some (Js.trim n)) = []
    /\ User.check_email (Some (Js.trim (Js.toLowerCase e))) = []
    /\ User.check_password (Some p) = []
    /\ existsb (fun x => String.eqb (User.email x) (Js.trim (Js.toLowerCase e)))
         (users st) = false
    /\ let u := {| User._id := next_oid st; User.name := Js.trim n;
                   User.email := Js.trim (Js.toLowerCase e);
                   User.password := Some (bcrypt_hash p (salt env));
                   User.role := "user"; User.isActive := true;
                   User.lastLogin := None;
                   User.createdAt := now env; User.updatedAt := now env |} in
       st' = {| users := users st ++ [u]; products := products st;
                next_oid := S (next_oid st) |}
       /\ res = authController.token_response 201 env u
                  (jwt_sign {| tokId := next_oid st; tokRole := "user" |}
                     (config.jwt_secret (penv env)) (config.jwt_expiresIn (penv env))
                     (now env))
       /\ jwt_sign_error {| tokId := next_oid st; tokRole := "user" |}
            (config.jwt_secret (penv env)) (config.jwt_expiresIn (penv env))
            (now env) = None.
Proof.
  unfold authController.register. intros H.
  destruct (b_email (body req)) as [e0|] eqn:He; [|discriminate].
  destruct (User.select _ _); [discriminate|].
  destruct (User.create _ _ _ _ _ _) as [err|[u us]] eqn:E; [discriminate|].
  destruct (create_account _ _ _ _ _ _ _ _ E)
    as (n & e & p & Hn & He' & Hp & C1 & C2 & C3 & Hex & Hu & Hus).
  injection He' as <-.
  unfold User.generateToken in H. rewrite Hu in H.
  cbn [User._id User.role] in H.
  destruct (jwt_sign_error _ _ _ _) eqn:Hs; [discriminate|].
  injection H as <- <-.
  exists n, e0, p. rewrite Hus, Hu. repeat split; assumption.
Qed.

(** A registration that failed left the store as it was, unless the
    account was written and the signing of the token threw. *)
Lemma register_failure env st (req req' : Request AuthBody) st' err :
  authController.register env st req = (st', Fail req' err) ->
  st' = st
  \/ (exists u,
         st' = {| users := users st ++ [u]; products := products st;
                  next_oid := S (next_oid st) |}
         /\ User.create env (next_oid st) (users st) (b_name (body req))
              (b_email (body req)) (b_password (body req))
            = inr (u, (users st ++ [u])%list)
         /\ jwt_sign_error {| tokId := next_oid st; tokRole := "user" |}
              (config.jwt_secret (penv env)) (config.jwt_expiresIn (penv env))
              (now env) = Some err).
Proof.
  unfold authController.register. intros H.
  destruct (b_email (body req)) as [e0|] eqn:He; [|injection H as <-; now left].
  destruct (User.select _ _); [injection H as <-; now left|].
  destruct (User.create _ _ _ _ _ _) as [e1|[u us]] eqn:E;
    [injection H as <-; now left|].
  destruct (create_account _ _ _ _ _ _ _ _ E)
    as (n & e & p & Hn & He' & Hp & C1 & C2 & C3 & Hex & Hu & Hus).
  unfold User.generateToken in H. rewrite Hu in H.
  cbn [User._id User.role] in H.
  destruct (jwt_sign_error _ _ _ _) eqn:Hs; [|discriminate].
  injection H as <- _ <-. right. exists u.
  rewrite Hus. auto.
Qed.

Lemma check_name_ok n :
  User.check_name (Some n) = [] -> 2 <= Z.of_nat (String.length n) <= 50.
Proof.
  unfold User.check_name. destruct n as [|c r]; [discriminate|].
  destruct (_ <? 2) eqn:E1; [discriminate|].
  destruct (50 <? _) eqn:E2; [discriminate|]. intros _.
  apply Z.ltb_ge in E1, E2. lia.
Qed.

Lemma check_email_ok e :
  User.check_email (Some e) = [] -> Re.matches Re.email_re e = true /\ e <> "".
Proof.
  unfold User.check_email. destruct e as [|c r]; [discriminate|].
  destruct (Re.matches _ _); [|discriminate]. intros _. split; [reflexivity|discriminate].
Qed.

Lemma check_password_ok p :
  User.check_password (Some p) = [] -> 6 <= Z.of_nat (String.length p) /\ p <> "".
Proof.
  unfold User.check_password. destruct p as [|c r]; [discriminate|].
  destruct (_ <? 6) eqn:E; [discriminate|]. intros _.
  apply Z.ltb_ge in E. split; [exact E|discriminate].
Qed.

(** X9: a registration that succeeds appends exactly one account, with
    the next identifier, the role [user] whatever the request says, the
    active flag set, the name trimmed, the email trimmed and in lower
    case, and the hash of the password; the name has 2 to 50 characters,
    the email fits the schema's pattern, the password has 6 characters
    or more; the answer is 201 with a token for that identifier and
    role. *)
Theorem register_creates_standard_account env st (req : Request AuthBody) st' res :
  authController.register env st req = (st', Send res) ->
  exists u n e p,
    users st' = (users st ++ [u])%list
    /\ products st' = products st /\ next_oid st' = S (next_oid st)
    /\ b_name (body req) = Some n /\ b_email (body req) = Some e
    /\ b_password (body req) = Some p
    /\ User._id u = next_oid st
    /\ User.role u = "user" /\ User.isActive u = true
    /\ User.name u = Js.trim n
    /\ User.email u = Js.trim (Js.toLowerCase e)
    /\ User.password u = Some (bcrypt_hash p (salt env))
    /\ (2 <= Z.of_nat (String.length (User.name u)) <= 50)
    /\ Re.matches Re.email_re (User.email u) = true
    /\ 6 <= Z.of_nat (String.length p)
    /\ resStatus res = 201
    /\ res = authController.token_response 201 env u
               (jwt_sign {| tokId := next_oid st; tokRole := "user" |}
                  (config.jwt_secret (penv env)) (config.jwt_expiresIn (penv env))
                  (now env)).
Proof.
  intros H.
  destruct (register_success _ _ _ _ _ H)
    as (n & e & p & Hn & He & Hp & C1 & C2 & C3 & _ & Hst & Hres & Hsign).
  eexists; exists n, e, p. rewrite Hst, Hres. cbn.
  repeat split; try assumption; try reflexivity.
  - apply (check_name_ok _ C1).
  - apply (check_name_ok _ C1).
  - apply (check_email_ok _ C2).
  - apply (check_password_ok _ C3).
Qed.

End Accounts2.

Lemma core_fields u v :
  User.core u = User.core v ->
  User._id u = User._id v /\ User.name u = User.name v
  /\ User.email u = User.email v /\ User.password u = User.password v
  /\ User.role u = User.role v /\ User.isActive u = User.isActive v.
Proof. unfold User.core. intros H. injection H. intros. repeat split; assumption. Qed.

Lemma NoDup_snoc {A} (l : list A) a : NoDup l -> ~ In a l -> NoDup (l ++ [a]).
Proof.
  induction l as [|b l IH]; simpl; intros Hn Hnot.
  - constructor; [intros []|constructor].
  - inversion Hn as [|? ? Hb Hn']; subst. constructor.
    + intros Hin. apply in_app_or in Hin. destruct Hin as [Hin|[<-|[]]]; auto.
    + apply IH; auto.
Qed.

Lemma cons_inj {A} (a b : A) l l' : a :: l = b :: l' -> a = b /\ l = l'.
Proof. intros H. injection H. auto. Qed.

Lemma map_core_factor {A} (f : User.doc -> A) l1 l2 :
  (forall u v, User.core u = User.core v -> f u = f v) ->
  map User.core l1 = map User.core l2 -> map f l1 = map f l2.
Proof.
  intros Hf. revert l2.
  induction l1 as [|a l1 IH]; intros [|b l2] H; cbn [map] in *; try discriminate;
    [reflexivity|].
  apply cons_inj in H as [Hab H]. now rewrite (Hf _ _ Hab), (IH _ H).
Qed.

Lemma Forall_core (P : User.doc -> Prop) l1 l2 :
  (forall u v, User.core u = User.core v -> P v -> P u) ->
  map User.core l1 = map User.core l2 -> Forall P l2 -> Forall P l1.
Proof.
  intros HP. revert l2.
  induction l1 as [|a l1 IH]; intros [|b l2] H Hall; cbn [map] in *; try discriminate;
    [constructor|].
  apply cons_inj in H as [Hab H]. inversion Hall; subst.
  constructor; [now apply (HP _ _ Hab)|now apply (IH l2)].
Qed.

Lemma account_ok_core u v : User.core u = User.core v -> account_ok v -> account_ok u.
Proof.
  intros H. destruct (core_fields _ _ H) as (_ & Hn & He & _ & Hr & Ha).
  unfold account_ok. now rewrite Hn, He, Hr, Ha.
Qed.

(** Accounts that agree on the untouched paths are as well formed. *)
Lemma accounts_wf_core st st' :
  map User.core (users st') = map User.core (users st) ->
  next_oid st' = next_oid st ->
  accounts_wf st -> accounts_wf st'.
Proof.
  intros Hc Hn (W1 & W2 & W3 & W4).
  assert (Hid : map User._id (users st') = map User._id (users st)).
  { apply map_core_factor; [|exact Hc]. intros u v H. apply (core_fields _ _ H). }
  assert (Hem : map User.email (users st') = map User.email (users st)).
  { apply map_core_factor; [|exact Hc]. intros u v H. apply (core_fields _ _ H). }
  repeat split.
  - now rewrite Hid.
  - intros u Hu. rewrite Hn.
    assert (Hi : In (User._id u) (map User._id (users st))).
    { rewrite <- Hid. now apply in_map. }
    apply in_map_iff in Hi. destruct Hi as (v & Hv & Hin). rewrite <- Hv. now apply W2.
  - now rewrite Hem.
  - apply (Forall_core _ _ _ account_ok_core Hc W4).
Qed.

Lemma nodup_id_inj (coll : list User.doc) x u :
  NoDup (map User._id coll) -> In x coll -> In u coll ->
  User._id x = User._id u -> x = u.
Proof.
  induction coll as [|a l IH]; simpl; intros Hn Hx Hu He; [contradiction|].
  inversion Hn as [|? ? Hnot Hn']; subst.
  destruct Hx as [->|Hx], Hu as [->|Hu]; auto.
  - exfalso. apply Hnot. rewrite He. now apply in_map.
  - exfalso. apply Hnot. rewrite <- He. now apply in_map.
Qed.

Section Accounts3.
Context {ext : Externals}.

(** Saving a login stamp changes no other path of any account. *)
Lemma save_core env t u (coll : list User.doc) :
  NoDup (map User._id coll) -> In u coll ->
  map User.core (User.save env false (User.set_lastLogin t u) coll)
  = map User.core coll.
Proof.
  intros Hn Hu. unfold User.save. rewrite map_map. apply map_ext_in.
  intros x Hx. cbn [User.pre_save negb User.set_lastLogin User._id].
  destruct (Nat.eqb (User._id x) (User._id u)) eqn:E; [|reflexivity].
  apply Nat.eqb_eq in E. rewrite (nodup_id_inj _ _ _ Hn Hx Hu E). reflexivity.
Qed.

(** What a successful login did. *)
Lemma login_success env st (req : Request AuthBody) st' res :
  authController.login env st req = (st', Send res) ->
  exists e p u h,
    b_email (body req) = Some e /\ b_password (body req) = Some p
    /\ User.findByEmail (users st) e = Some u
    /\ User.isActive u = true
    /\ User.password u = Some h /\ bcrypt_compare p h = true
    /\ st' = set_users (User.save env false (User.set_lastLogin (now env) u)
                          (users st)) st
    /\ res = authController.token_response 200 env
               (User.set_lastLogin (now env) u)
               (jwt_sign {| tokId := User._id u; tokRole := User.role u |}
                  (config.jwt_secret (penv env)) (config.jwt_expiresIn (penv env))
                  (now env)).
Proof.
  unfold authController.login, User.comparePassword, User.generateToken. intros H.
  destruct (_ || _)%bool; [discriminate|].
  destruct (b_email (body req)) as [e|]; [|discriminate].
  destruct (b_password (body req)) as [p|]; [|discriminate].
  destruct (User.findByEmail (users st) e) as [u|] eqn:Hf; simpl in H; [|discriminate].
  destruct (User.isActive u) eqn:Ha; simpl in H; [|discriminate].
  destruct (User.password u) as [h|] eqn:Hh; [|discriminate].
  destruct (bcrypt_compare p h) eqn:Hc; [|discriminate].
  destruct (jwt_sign_error _ _ _ _); [discriminate|].
  injection H as <- <-.
  exists e, p, u, h. repeat split; assumption.
Qed.

(** A login that failed left the store as it was, unless the login
    time was saved and the signing of the token threw. *)
Lemma login_failure env st (req req' : Request AuthBody) st' err :
  authController.login env st req = (st', Fail req' err) ->
  st' = st
  \/ (exists e p u h,
         b_email (body req) = Some e /\ b_password (body req) = Some p
         /\ User.findByEmail (users st) e = Some u
         /\ User.isActive u = true
         /\ User.password u = Some h /\ bcrypt_compare p h = true
         /\ st' = set_users (User.save env false (User.set_lastLogin (now env) u)
                               (users st)) st
         /\ jwt_sign_error {| tokId := User._id u; tokRole := User.role u |}
              (config.jwt_secret (penv env)) (config.jwt_expiresIn (penv env))
              (now env) = Some err).
Proof.
  unfold authController.login, User.comparePassword, User.generateToken. intros H.
  destruct (_ || _)%bool; [injection H as <-; now left|].
  destruct (b_email (body req)) as [e|]; [|injection H as <-; now left].
  destruct (b_password (body req)) as [p|]; [|injection H as <-; now left].
  destruct (User.findByEmail (users st) e) as [u|] eqn:Hf; simpl in H;
    [|injection H as <-; now left].
  destruct (User.isActive u) eqn:Ha; simpl in H; [|injection H as <-; now left].
  destruct (User.password u) as [h|] eqn:Hh; [|injection H as <-; now left].
  destruct (bcrypt_compare p h) eqn:Hc; [|injection H as <-; now left].
  destruct (jwt_sign_error _ _ _ _) eqn:Hs; [|discriminate].
  injection H as <- _ <-. right.
  exists e, p, u, h. repeat split; assumption.
Qed.

(** The store after a registration: as it was, or with the account
    added, whether the token was then signed or not. *)
Lemma register_store env st (req : Request AuthBody) :
  fst (authController.register env st req) = st
  \/ exists u,
       User.create env (next_oid st) (users st) (b_name (body req))
         (b_email (body req)) (b_password (body req))
       = inr (u, (users st ++ [u])%list)
       /\ fst (authController.register env st req)
          = {| users := users st ++ [u]; products := products st;
               next_oid := S (next_oid st) |}.
Proof.
  unfold authController.register.
  destruct (b_email (body req)) as [e0|] eqn:He; [|now left].
  destruct (User.select _ _); [now left|].
  destruct (User.create _ _ _ _ _ _) as [e1|[u us]] eqn:E; [now left|].
  destruct (create_account _ _ _ _ _ _ _ _ E) as (n & e & p & _ & _ & _ & _ & _ & _ & _ & _ & Hus).
  right. exists u. rewrite Hus in *. split; [reflexivity|].
  destruct (User.generateToken env u); reflexivity.
Qed.

(** The store after a login: as it was, or with the login time saved,
    whether the token was then signed or not. *)
Lemma login_store env st (req : Request AuthBody) :
  fst (authController.login env st req) = st
  \/ exists e u,
       b_email (body req) = Some e
       /\ User.findByEmail (users st) e = Some u
       /\ fst (authController.login env st req)
          = set_users (User.save env false (User.set_lastLogin (now env) u)
                         (users st)) st.
Proof.
  unfold authController.login, User.comparePassword.
  destruct (_ || _)%bool; [now left|].
  destruct (b_email (body req)) as [e|]; [|now left].
  destruct (b_password (body req)) as [p|]; [|now left].
  destruct (User.findByEmail (users st) e) as [u|] eqn:Hf; simpl; [|now left].
  destruct (User.isActive u) eqn:Ha; simpl; [|now left].
  destruct (User.password u) as [h|] eqn:Hh; [|now left].
  destruct (bcrypt_compare p h) eqn:Hc; [|now left].
  right. exists e, u. split; [reflexivity|]. split; [exact Hf|].
  destruct (User.generateToken env _); reflexivity.
Qed.

Lemma findByEmail_In coll e u :
  User.findByEmail coll e = Some u ->
  In u coll /\ User.email u = Js.toLowerCase e.
Proof.
  unfold User.findByEmail, User.findOne. intros H. apply find_some in H.
  destruct H as [Hin H]. apply String.eqb_eq in H. now split.
Qed.

Lemma register_keeps_wf env st (req : Request AuthBody) :
  accounts_wf st -> accounts_wf (fst (authController.register env st req)).
Proof.
  intros Hw.
  destruct (register_store env st req) as [->|(u & E & ->)]; [exact Hw|].
  destruct (create_account _ _ _ _ _ _ _ _ E)
    as (n & e & p & _ & _ & _ & C1 & C2 & _ & Hex & Hu & _).
  destruct Hw as (W1 & W2 & W3 & W4).
  unfold accounts_wf. cbn [users next_oid].
  rewrite !map_app, Hu. cbn [map User._id User.email].
  repeat split.
  - apply NoDup_snoc; [exact W1|]. intros Hin. apply in_map_iff in Hin.
    destruct Hin as (v & Hv & Hin). apply W2 in Hin. lia.
  - intros u0 Hu0. apply in_app_or in Hu0. destruct Hu0 as [Hu0|[<-|[]]].
    + apply W2 in Hu0. lia.
    + simpl. lia.
  - apply NoDup_snoc; [exact W3|]. intros Hin. apply in_map_iff in Hin.
    destruct Hin as (v & Hv & Hin).
    assert (Ht : existsb (fun x => String.eqb (User.email x)
                                     (Js.trim (Js.toLowerCase e))) (users st) = true).
    { apply existsb_exists. exists v. split; [exact Hin|]. now apply String.eqb_eq. }
    congruence.
  - apply Forall_app. split; [exact W4|]. constructor; [|constructor].
    unfold account_ok. cbn [User.email User.name User.role User.isActive].
    split; [apply normalised_email_fixed|].
    split; [apply (check_email_ok _ C2)|].
    split; [apply (check_name_ok _ C1)|]. split; reflexivity.
Qed.

Lemma login_keeps_wf env st (req : Request AuthBody) :
  accounts_wf st -> accounts_wf (fst (authController.login env st req)).
Proof.
  intros Hw.
  destruct (login_store env st req) as [->|(e & u & _ & Hf & ->)]; [exact Hw|].
  apply (accounts_wf_core st); [|reflexivity|exact Hw].
  cbn [users set_users]. apply save_core; [apply Hw|].
  apply (findByEmail_In _ _ _ Hf).
Qed.

(** A chain keeps what each of its stages keeps. *)
Lemma dispatch_keeps (P : Store -> Prop) {B} (chain : list (Middleware B)) :
  Forall (fun stage => forall env st req, P st -> P (fst (stage env st req))) chain ->
  forall n env st req, P st -> P (out_store (dispatch_from n chain env st req)).
Proof.
  induction 1 as [|stage rest Hs _ IH]; intros n env st req Hst; simpl.
  - exact Hst.
  - specialize (Hs env st req Hst).
    destruct (stage env st req) as [st' [req'|req' err|res]]; simpl in *.
    + now apply IH.
    + exact Hs.
    + exact Hs.
Qed.

Lemma keeps_accounts {B} (stage : Middleware B) :
  (forall env st req,
      users (fst (stage env st req)) = users st
      /\ next_oid (fst (stage env st req)) = next_oid st) ->
  forall env st req, accounts_wf st -> accounts_wf (fst (stage env st req)).
Proof.
  intros H env st req Hw. destruct (H env st req) as [Hu Hn].
  apply (accounts_wf_core st); [now rewrite Hu|exact Hn|exact Hw].
Qed.

Lemma protect_same_store {B} env st (req : Request B) :
  fst (auth.protect env st req) = st.
Proof. unfold auth.protect. repeat (break_match; simpl); reflexivity. Qed.

Lemma authorize_same_store {B} roles env st (req : Request B) :
  fst (auth.authorize roles env st req) = st.
Proof. unfold auth.authorize. repeat (break_match; simpl); reflexivity. Qed.

Lemma getMe_same_store {B} env st (req : Request B) :
  fst (authController.getMe env st req) = st.
Proof. unfold authController.getMe. repeat (break_match; simpl); reflexivity. Qed.

Lemma getProduct_same_store {B} env st (req : Request B) :
  fst (productController.getProduct env st req) = st.
Proof. unfold productController.getProduct. repeat (break_match; simpl); reflexivity. Qed.

Lemma updateProduct_same_accounts env st req :
  users (fst (productController.updateProduct env st req)) = users st
  /\ next_oid (fst (productController.updateProduct env st req)) = next_oid st.
Proof.
  unfold productController.updateProduct.
  repeat (break_match; simpl); split; reflexivity.
Qed.

Lemma deleteProduct_same_accounts {B} env st (req : Request B) :
  users (fst (productController.deleteProduct env st req)) = users st
  /\ next_oid (fst (productController.deleteProduct env st req)) = next_oid st.
Proof.
  unfold productController.deleteProduct.
  repeat (break_match; simpl); split; reflexivity.
Qed.

Lemma serve_keeps_wf env st c :
  accounts_wf st -> accounts_wf (out_store (serve env st c)).
Proof.
  intros Hw.
  assert (Hsame : forall B (stage : Middleware B),
             (forall env st req, fst (stage env st req) = st) ->
             forall env st req, accounts_wf st -> accounts_wf (fst (stage env st req))).
  { intros B stage H env0 st0 req0 Hw0. now rewrite H. }
  destruct c; simpl; unfold dispatch;
    apply (dispatch_keeps accounts_wf); try exact Hw;
    repeat (apply Forall_cons;
            [ first [ apply register_keeps_wf
                    | apply login_keeps_wf
                    | apply Hsame;
                      first [ apply protect_same_store
                            | apply authorize_same_store
                            | apply getMe_same_store
                            | apply getProduct_same_store
                            | reflexivity ]
                    | apply keeps_accounts;
                      first [ apply updateProduct_same_accounts
                            | apply deleteProduct_same_accounts ] ] | ]);
    apply Forall_nil.
Qed.

Lemma reachable_accounts_wf st : reachable st -> accounts_wf st.
Proof.
  induction 1 as [ps n|env st c _ IH].
  - repeat split; simpl; try constructor. intros u [].
  - now apply serve_keeps_wf.
Qed.

(** X10: in every store the API reaches from one without accounts, no
    two accounts share an identifier or an email, every identifier is
    below the next one to be given, and every account has an email in
    lower case that fits the schema's pattern, a name of 2 to 50
    characters, the role [user] and the active flag set: no request
    makes an administrator or disables an account. *)
Theorem reachable_accounts_wellformed st :
  reachable st ->
  NoDup (map User._id (users st))
  /\ NoDup (map User.email (users st))
  /\ (forall u, In u (users st) ->
      (User._id u < next_oid st)%nat
      /\ Js.toLowerCase (User.email u) = User.email u
      /\ Re.matches Re.email_re (User.email u) = true
      /\ (2 <= Z.of_nat (String.length (User.name u)) <= 50)
      /\ User.role u = "user" /\ User.isActive u = true).
Proof.
  intros Hr. destruct (reachable_accounts_wf st Hr) as (W1 & W2 & W3 & W4).
  split; [exact W1|]. split; [exact W3|].
  intros u Hu. split; [now apply W2|].
  rewrite Forall_forall in W4. apply (W4 u Hu).
Qed.

(** X11: in such a store every account is found by its own email and by
    its own identifier, and the lookup by email does not depend on the
    case of the letters asked for. *)
Theorem account_lookup_round_trip st u :
  reachable st -> In u (users st) ->
  User.findByEmail (users st) (User.email u) = Some u
  /\ User.findByEmail (users st) (Js.toUpperCase (User.email u)) = Some u
  /\ User.findById (users st) (User._id u) = Some u
  /\ (forall e, User.findByEmail (users st) (Js.toUpperCase e)
                = User.findByEmail (users st) e).
Proof.
  intros Hr Hu. destruct (reachable_accounts_wf st Hr) as (W1 & W2 & W3 & W4).
  rewrite Forall_forall in W4. destruct (W4 u Hu) as (Hl & _).
  assert (Hcase : forall e, User.findByEmail (users st) (Js.toUpperCase e)
                            = User.findByEmail (users st) e).
  { intros e. unfold User.findByEmail. now rewrite toLowerCase_toUpperCase. }
  assert (Hfind : User.findByEmail (users st) (User.email u) = Some u).
  { unfold User.findByEmail, User.findOne. rewrite Hl.
    apply (find_unique User.email String.eqb String.eqb_eq); assumption. }
  split; [exact Hfind|]. split; [now rewrite Hcase|]. split; [|exact Hcase].
  unfold User.findById, User.findOne.
  apply (find_unique User._id Nat.eqb Nat.eqb_eq); assumption.
Qed.

End Accounts3.

Section RoundTrips.
Context {ext : Externals}.


Lemma fresh_id_absent (coll : list User.doc) i :
  (forall x, In x coll -> User._id x <> i) ->
  existsb (fun d => Nat.eqb (User._id d) i) coll = false.
Proof.
  intros H. destruct (existsb _ coll) eqn:E; [|reflexivity].
  apply existsb_exists in E. destruct E as (x & Hx & Hi).
  apply Nat.eqb_eq in Hi. now apply H in Hx.
Qed.

(** X13: the token a registration answers with, sent back as a Bearer
    header while the library verifies it, resolves to the account just
    created, attached without its password. *)
Theorem register_then_protect {B} env env' st (req : Request AuthBody) st' res
    (req2 : Request B) token :
  authController.register env st req = (st', Send res) ->
  (forall x, In x (users st) -> User._id x <> next_oid st) ->
  token = jwt_sign {| tokId := next_oid st; tokRole := "user" |}
            (config.jwt_secret (penv env)) (config.jwt_expiresIn (penv env)) (now env) ->
  jwt_verify token (config.jwt_secret (penv env')) (now env')
  = inr {| tokId := next_oid st; tokRole := "user" |} ->
  spaceless token = true -> Js.truthy token = true ->
  authorization req2 = Some ("Bearer " ++ token) ->
  exists u,
    users st' = (users st ++ [u])%list
    /\ res = authController.token_response 201 env u token
    /\ auth.protect env' st' req2
       = (st', Next (set_user (Some (User.set_password None u)) req2)).
Proof.
  intros Hreg Hfresh Htok Hver Hsp Htr Hauth.
  destruct (register_success _ _ _ _ _ Hreg)
    as (n & e & p & _ & _ & _ & _ & _ & _ & _ & Hst & Hres & Hsign).
  cbv zeta in Hst, Hres.
  eexists. split; [rewrite Hst; reflexivity|].
  split; [rewrite Hres, Htok; reflexivity|].
  assert (Hrt : auth.request_token req2 = Some token).
  { rewrite (request_token_bearer req2 _ Hauth) by reflexivity.
    now apply bearer_header_token. }
  unfold auth.protect. rewrite Hrt, Htr, Hver. cbn [negb].
  assert (Hfind : User.findById (users st') (next_oid st)
                  = Some {| User._id := next_oid st; User.name := Js.trim n;
                            User.email := Js.trim (Js.toLowerCase e);
                            User.password := Some (bcrypt_hash p (salt env));
                            User.role := "user"; User.isActive := true;
                            User.lastLogin := None;
                            User.createdAt := now env; User.updatedAt := now env |}).
  { rewrite Hst. cbn [users]. unfold User.findById, User.findOne.
    apply find_app_none; [now apply fresh_id_absent|].
    cbn [User._id]. apply Nat.eqb_refl. }
  cbn [tokId]. rewrite Hfind. reflexivity.
Qed.

(** X14: a login that succeeds leaves the identifier, name, email,
    password hash, role, active flag and creation time of every account
    as they were, and the products and the next identifier too; the
    account that logged in carries the login time. *)
Theorem login_changes_only_login_stamp env st (req : Request AuthBody) st' res :
  authController.login env st req = (st', Send res) ->
  NoDup (map User._id (users st)) ->
  map User.core (users st') = map User.core (users st)
  /\ products st' = products st /\ next_oid st' = next_oid st
  /\ resStatus res = 200
  /\ exists u e,
      In u (users st') /\ b_email (body req) = Some e
      /\ User.email u = Js.toLowerCase e
      /\ User.lastLogin u = Some (now env) /\ User.updatedAt u = now env.
Proof.
  intros Hl Hn.
  destruct (login_success _ _ _ _ _ Hl)
    as (e & p & u & h & He & _ & Hf & _ & _ & _ & Hst & Hres).
  destruct (findByEmail_In _ _ _ Hf) as [Hin Hmail].
  rewrite Hst, Hres. cbn [users products next_oid set_users].
  split; [now apply save_core|]. repeat split.
  exists (User.set_updatedAt (now env)
            (User.set_password (User.password u) (User.set_lastLogin (now env) u))), e.
  split; [|repeat split; assumption].
  unfold User.save. apply in_map_iff. exists u. split; [|exact Hin].
  cbn [User.pre_save negb User._id User.set_lastLogin]. now rewrite Nat.eqb_refl.
Qed.

(** X15: whenever [protect] lets a request through, [optionalAuth]
    attaches the same user to it. *)
Theorem optionalAuth_agrees_with_protect {B} env st st' (req req' : Request B) :
  auth.protect env st req = (st', Next req') ->
  auth.optionalAuth env st req = (st', Next req').
Proof.
  unfold auth.protect, auth.optionalAuth. intros H.
  destruct (auth.request_token req) as [token|]; [|discriminate].
  destruct (Js.truthy token); simpl in *; [|discriminate].
  destruct (jwt_verify token _ _) as [e|d]; [discriminate|].
  destruct (User.findById (users st) (tokId d)) as [u|]; simpl in *; [|discriminate].
  destruct (User.isActive u); simpl in H; [|discriminate].
  exact H.
Qed.

(** X16: on GET /api/auth/me a request that [protect] lets through is
    answered 200 with the stored account of the token's identifier, an
    active one, serialised without its password; both stages run and the
    store is untouched. *)
Theorem me_returns_stored_account {B} env st (req req' : Request B) :
  auth.protect env st req = (st, Next req') ->
  exists u,
    In u (users st) /\ User.isActive u = true
    /\ user req' = Some (User.set_password None u)
    /\ dispatch routes.me env st req
       = {| out_store := st;
            out_response :=
              {| resStatus := 200;
                 resBody := JObj [("status", JStr "success");
                                  ("data",
                                   JObj [("user",
                                          User.toJSON (User.set_password None u))])];
                 resCookies := [] |};
            out_invoked := 2 |}
    /\ has_key "password" (User.toJSON (User.set_password None u)) = false.
Proof.
  intros Hp. pose proof Hp as Hp0. unfold auth.protect in Hp.
  destruct (auth.request_token req) as [token|]; [|discriminate].
  destruct (Js.truthy token); simpl in Hp; [|discriminate].
  destruct (jwt_verify token _ _) as [e|d]; [discriminate|].
  destruct (User.findById (users st) (tokId d)) as [u|] eqn:Hf;
    simpl in Hp; [|discriminate].
  destruct (User.isActive u) eqn:Ha; simpl in Hp; [|discriminate].
  injection Hp as <-.
  pose proof Hf as Hf0. unfold User.findById, User.findOne in Hf0.
  apply find_some in Hf0. destruct Hf0 as [Hin Hid]. apply Nat.eqb_eq in Hid.
  exists u. split; [exact Hin|]. split; [exact Ha|]. split; [reflexivity|].
  split; [|apply toJSON_public].
  unfold dispatch, routes.me.
  rewrite (dispatch_from_next _ _ _ _ _ _ _ _ Hp0).
  unfold dispatch_from, authController.getMe.
  cbn [user set_user User._id User.set_password]. rewrite Hid, Hf. reflexivity.
Qed.

Lemma dispatch_quiet {B} (chain : list (Middleware B)) :
  Forall quiet_stage chain ->
  forall n env st req,
    signs env ->
    400 <= resStatus (out_response (dispatch_from n chain env st req)) ->
    out_store (dispatch_from n chain env st req) = st.
Proof.
  induction 1 as [|stage rest Hs _ IH]; intros n env st req Hg Hc; simpl in *.
  - reflexivity.
  - specialize (Hs env st req Hg).
    destruct (stage env st req) as [st' [req'|req' err|res]]; simpl in *.
    + subst st'. now apply IH.
    + exact Hs.
    + lia.
Qed.

Lemma register_quiet : quiet_stage authController.register.
Proof.
  intros env st req Hg.
  destruct (authController.register env st req) as [st' [r|r err|res]] eqn:E.
  - unfold authController.register in E.
    repeat (break_match_in E; try discriminate).
  - destruct (register_failure _ _ _ _ _ _ E) as [H|(u & _ & _ & H)]; [exact H|].
    rewrite Hg in H. discriminate.
  - destruct (register_success _ _ _ _ _ E)
      as (? & ? & ? & _ & _ & _ & _ & _ & _ & _ & _ & -> & _).
    reflexivity.
Qed.

Lemma login_quiet : quiet_stage authController.login.
Proof.
  intros env st req Hg.
  destruct (authController.login env st req) as [st' [r|r err|res]] eqn:E.
  - unfold authController.login, User.comparePassword in E.
    repeat (break_match_in E; try discriminate).
  - destruct (login_failure _ _ _ _ _ _ E)
      as [H|(? & ? & ? & ? & _ & _ & _ & _ & _ & _ & _ & H)]; [exact H|].
    rewrite Hg in H. discriminate.
  - destruct (login_success _ _ _ _ _ E) as (? & ? & ? & ? & _ & _ & _ & _ & _ & _ & _ & ->).
    reflexivity.
Qed.

Lemma protect_quiet {B} : quiet_stage (auth.protect (B := B)).
Proof.
  intros env st req _. pose proof (protect_same_store env st req) as H.
  destruct (auth.protect env st req) as [st' [r|r err|res]] eqn:E; simpl in H;
    try exact H.
  unfold auth.protect in E. repeat (break_match_in E; try discriminate).
Qed.

Lemma authorize_quiet {B} roles : quiet_stage (auth.authorize (B := B) roles).
Proof.
  intros env st req _.
  destruct (auth.authorize roles env st req) as [st' [r|r err|res]] eqn:E;
    unfold auth.authorize in E; stage_cases E.
Qed.

Lemma getMe_quiet {B} : quiet_stage (authController.getMe (B := B)).
Proof.
  intros env st req _.
  destruct (authController.getMe env st req) as [st' [r|r err|res]] eqn:E;
    unfold authController.getMe in E; stage_cases E.
Qed.

Lemma logout_quiet {B} : quiet_stage (authController.logout (B := B)).
Proof. intros env st req _. reflexivity. Qed.

Lemma getProduct_quiet {B} : quiet_stage (productController.getProduct (B := B)).
Proof.
  intros env st req _.
  destruct (productController.getProduct env st req) as [st' [r|r err|res]] eqn:E;
    unfold productController.getProduct in E; stage_cases E.
Qed.

Lemma updateProduct_quiet : quiet_stage productController.updateProduct.
Proof.
  intros env st req _.
  destruct (productController.updateProduct env st req) as [st' [r|r err|res]] eqn:E;
    unfold productController.updateProduct in E; stage_cases E.
Qed.

Lemma deleteProduct_quiet {B} : quiet_stage (productController.deleteProduct (B := B)).
Proof.
  intros env st req _.
  destruct (productController.deleteProduct env st req) as [st' [r|r err|res]] eqn:E;
    unfold productController.deleteProduct in E; stage_cases E.
Qed.

Lemma createProduct_quiet : quiet_stage productController.createProduct.
Proof.
  intros env st req _.
  destruct (productController.createProduct env st req) as [st' [r|r err|res]] eqn:E;
    unfold productController.createProduct in E; stage_cases E.
Qed.

Lemma validate_quiet {B} errors : quiet_stage (validation.validate (B := B) errors).
Proof. intros env st req _. destruct errors; reflexivity. Qed.

(** X17: while [jwt.sign] does not throw, a request answered with a
    status of 400 or more changed nothing: on every route, and on the
    register, login and create-product chains with their validation
    stage, the store after such an answer is the store before.  When
    the signing throws, the write has been made already: a registration
    that passes the checks has stored the account, a login with the
    right password the login time, and each answers with what the error
    handler makes of the error thrown. *)
Theorem error_answers_change_nothing env st :
  (signs env ->
   (forall c, 400 <= resStatus (out_response (serve env st c)) ->
              out_store (serve env st c) = st)
   /\ (forall errors req,
          400 <= resStatus (out_response (dispatch (routes.register errors) env st req)) ->
          out_store (dispatch (routes.register errors) env st req) = st)
   /\ (forall errors req,
          400 <= resStatus (out_response (dispatch (routes.login errors) env st req)) ->
          out_store (dispatch (routes.login errors) env st req) = st)
   /\ (forall errors req,
          400 <= resStatus (out_response
                              (dispatch (routes.createProduct errors) env st req)) ->
          out_store (dispatch (routes.createProduct errors) env st req) = st))
  /\ (forall (req : Request AuthBody) e u err,
         b_email (body req) = Some e ->
         User.findByEmail (users st) e = None ->
         User.create env (next_oid st) (users st) (b_name (body req))
           (b_email (body req)) (b_password (body req))
         = inr (u, (users st ++ [u])%list) ->
         jwt_sign_error {| tokId := User._id u; tokRole := User.role u |}
           (config.jwt_secret (penv env)) (config.jwt_expiresIn (penv env)) (now env)
         = Some err ->
         dispatch [authController.register] env st req
         = {| out_store := {| users := users st ++ [u]; products := products st;
                              next_oid := S (next_oid st) |};
              out_response := errorHandler (config.isDevelopment (penv env)) err;
              out_invoked := 1 |})
  /\ (forall (req : Request AuthBody) e p u h err,
         b_email (body req) = Some e -> b_password (body req) = Some p ->
         Js.truthy e = true -> Js.truthy p = true ->
         User.findByEmail (users st) e = Some u ->
         User.isActive u = true ->
         User.password u = Some h -> bcrypt_compare p h = true ->
         jwt_sign_error {| tokId := User._id u; tokRole := User.role u |}
           (config.jwt_secret (penv env)) (config.jwt_expiresIn (penv env)) (now env)
         = Some err ->
         dispatch [authController.login] env st req
         = {| out_store := set_users (User.save env false
                                        (User.set_lastLogin (now env) u) (users st)) st;
              out_response := errorHandler (config.isDevelopment (penv env)) err;
              out_invoked := 1 |}).
Proof.
  split; [|split].
  - intros Hg.
    assert (Hchain : forall B (chain : list (Middleware B)) req,
               Forall quiet_stage chain ->
               400 <= resStatus (out_response (dispatch chain env st req)) ->
               out_store (dispatch chain env st req) = st).
    { intros B chain req Hq. apply (dispatch_quiet chain Hq). exact Hg. }
    split; [|split; [|split]].
    + intros c. destruct c; simpl; apply Hchain;
        repeat (apply Forall_cons;
                [ first [ apply register_quiet | apply login_quiet | apply protect_quiet
                        | apply authorize_quiet | apply getMe_quiet | apply logout_quiet
                        | apply getProduct_quiet | apply updateProduct_quiet
                        | apply deleteProduct_quiet ] | ]);
        apply Forall_nil.
    + intros errors req. apply Hchain.
      repeat (apply Forall_cons; [first [apply validate_quiet|apply register_quiet]|]).
      apply Forall_nil.
    + intros errors req. apply Hchain.
      repeat (apply Forall_cons; [first [apply validate_quiet|apply login_quiet]|]).
      apply Forall_nil.
    + intros errors req. apply Hchain.
      repeat (apply Forall_cons;
              [ first [ apply validate_quiet | apply protect_quiet
                      | apply authorize_quiet | apply createProduct_quiet ] | ]).
      apply Forall_nil.
  - intros req e u err He Hf Hc Hs.
    unfold dispatch, dispatch_from, authController.register, User.generateToken.
    rewrite He in *. rewrite Hf. cbn [User.select option_map]. rewrite Hc, Hs.
    reflexivity.
  - intros req e p u h err He Hp Te Tp Hf Ha Hh Hc Hs.
    unfold dispatch, dispatch_from, authController.login, authController.falsy,
      User.comparePassword, User.generateToken.
    rewrite He, Hp, Te, Tp. cbn [negb orb]. rewrite Hf.
    cbn [User.select option_map User.project]. rewrite Ha, Hh, Hc.
    cbn [negb User.set_lastLogin User._id User.role]. rewrite Hs. reflexivity.
Qed.

End RoundTrips.

(** ** The catalogue *)

Lemma nodup_key_inj {A K} (key : A -> K) (l : list A) x u :
  NoDup (map key l) -> In x l -> In u l -> key x = key u -> x = u.
Proof.
  induction l as [|a l IH]; simpl; intros Hn Hx Hu He; [contradiction|].
  inversion Hn as [|? ? Hnot Hn']; subst.
  destruct Hx as [->|Hx], Hu as [->|Hu]; auto.
  - exfalso. apply Hnot. rewrite He. now apply in_map.
  - exfalso. apply Hnot. rewrite <- He. now apply in_map.
Qed.

Lemma findById_In (coll : list Product.doc) i p :
  Product.findById coll i = Some p -> In p coll.
Proof. unfold Product.findById. intros H. now apply find_some in H. Qed.


(** The flag is no path the validators read. *)
Lemma validate_isActive p v :
  Product.validate
    (Product.assign p (Product.mkPatch None None None None None None None None (Some v)))
  = Product.validate p.
Proof. reflexivity. Qed.

(** What the delete of a stored product that passes the schema does:
    it writes when the product was active, and answers. *)
Lemma deleteProduct_existing {B} env st (req : Request B) p :
  Product.findById (products st) (params_id req) = Some p ->
  Product.validate p = [] ->
  productController.deleteProduct env st req
  = (if Product.isActive p
     then set_products
            (map (fun x => if Nat.eqb (Product._id x) (Product._id p)
                           then Product.set_updatedAt (now env)
                                  (Product.assign p productController.soft_delete)
                           else x) (products st)) st
     else st,
     Send productController.deleted_answer).
Proof.
  intros Hf Hv. unfold productController.deleteProduct. rewrite Hf.
  destruct (Product.isActive p) eqn:Ha.
  - rewrite save_modified; [reflexivity| | |left; reflexivity].
    + unfold productController.soft_delete. now rewrite validate_isActive.
    + unfold productController.soft_delete. rewrite modified_isActive, Ha. reflexivity.
  - rewrite save_unmodified; [destruct st; reflexivity| |].
    + unfold productController.soft_delete. now rewrite validate_isActive.
    + unfold productController.soft_delete. rewrite modified_isActive, Ha. reflexivity.
Qed.

Lemma create_success t oid creator b coll d coll' :
  Product.create t oid creator b coll = inr (d, coll') ->
  d = Product.fresh t oid creator b
  /\ Product.validate_created b d = []
  /\ existsb (fun x => String.eqb (Product.sku x) (Product.sku d)) coll = false
  /\ coll' = (coll ++ [d])%list.
Proof.
  unfold Product.create. intros H.
  destruct (Product.validate_created b _) eqn:Hv; [|discriminate].
  destruct (existsb _ coll) eqn:He; [discriminate|].
  injection H as <- <-. repeat split; assumption.
Qed.


Section Catalogue.
Context {ext : Externals}.

(** X18: after a delete of a stored product that passes the schema,
    active or not, in a collection whose identifiers are distinct, the
    read of its identifier answers 404, every stored document of that
    identifier is inactive, and the category listing, the low-stock
    listing and the text search never hold it; the accounts and the
    number of products are as before, and a product that was inactive
    already leaves the store untouched. *)
Theorem deleted_product_is_hidden {B} (text_match : string -> Product.doc -> bool)
    env env' st (req : Request B) p :
  Product.findById (products st) (params_id req) = Some p ->
  Product.validate p = [] ->
  NoDup (map Product._id (products st)) ->
  exists st',
    productController.deleteProduct env st req
    = (st', Send productController.deleted_answer)
    /\ users st' = users st
    /\ List.length (products st') = List.length (products st)
    /\ (Product.isActive p = false -> st' = st)
    /\ productController.getProduct env' st' req
       = (st', Fail req (AppError "Product not found" 404))
    /\ (forall x, In x (products st') -> Product._id x = params_id req ->
                  Product.isActive x = false)
    /\ (forall c x, In x (Product.findByCategory (products st') c) ->
                    Product._id x <> params_id req)
    /\ (forall t x, In x (Product.findLowStock (products st') t) ->
                    Product._id x <> params_id req)
    /\ (forall q x, In x (Product.searchProducts text_match (products st') q) ->
                    Product._id x <> params_id req).
Proof.
  intros Hf Hv Hn. pose proof (findById_id _ _ _ Hf) as Hp.
  eexists. split; [apply (deleteProduct_existing env st req p Hf Hv)|].
  set (st' := if Product.isActive p then _ else st).
  assert (Hfind : exists d, Product.findById (products st') (params_id req) = Some d
                            /\ Product.isActive d = false).
  { subst st'. destruct (Product.isActive p) eqn:Ha.
    - eexists. cbn [products set_products]. rewrite <- Hp in Hf |- *.
      rewrite (findById_replaced _ _ p _ Hf) by reflexivity.
      split; reflexivity.
    - exists p. split; assumption. }
  assert (Hin : forall x, In x (products st') -> Product._id x = params_id req ->
                          Product.isActive x = false).
  { subst st'. destruct (Product.isActive p) eqn:Ha.
    - cbn [products set_products]. intros x Hx Hid.
      apply in_map_iff in Hx. destruct Hx as (y & Hy & _).
      destruct (Nat.eqb (Product._id y) (Product._id p)) eqn:E.
      + now subst x.
      + subst x. apply Nat.eqb_neq in E. congruence.
    - intros x Hx Hid.
      rewrite (nodup_key_inj Product._id (products st) x p Hn Hx
                 (findById_In _ _ _ Hf)); [exact Ha|congruence]. }
  split; [subst st'; destruct (Product.isActive p); reflexivity|].
  split; [subst st'; destruct (Product.isActive p);
          [apply length_map|reflexivity]|].
  split; [intros Ha; subst st'; now rewrite Ha|].
  split; [|split; [exact Hin|]].
  - destruct Hfind as (d & Hd & Hda).
    unfold productController.getProduct. rewrite Hd, Hda. reflexivity.
  - repeat split; intros a x Hx Hid; apply filter_In in Hx; destruct Hx as [Hx Hc];
      apply andb_true_iff in Hc; destruct Hc as [_ Hc];
      rewrite (Hin x Hx Hid) in Hc; discriminate.
Qed.

(** X19: a PATCH whose body sets [isActive] to true, and whose result
    passes the schema and the unique index, makes a stored product
    readable: the read of its identifier then answers 200 with the
    product as the update answered it, every path as the assignment
    left it; a product that was deleted is stamped with the time of the
    update. *)
Theorem patch_can_restore {B} env env' st (req : Request Product.patch)
    (greq : Request B) p :
  Product.findById (products st) (params_id req) = Some p ->
  Product.p_isActive (body req) = Some true ->
  Product.validate (Product.assign p (body req)) = [] ->
  Product.sku (Product.assign p (body req)) = Product.sku p
  \/ Product.sku_taken (Product.assign p (body req)) (products st) = false ->
  params_id greq = params_id req ->
  exists st' d,
    productController.updateProduct env st req
    = (st', Send (productController.product_response None d))
    /\ Product.isActive d = true
    /\ Product.set_updatedAt (Product.updatedAt p) d = Product.assign p (body req)
    /\ (Product.isActive p = false -> Product.updatedAt d = now env)
    /\ productController.getProduct env' st' greq
       = (st', Send (productController.product_response
                       (Some (productController.populate_createdBy (users st) d)) d)).
Proof.
  intros Hf Ha Hv Hs Hid.
  destruct (updateProduct_stored env st req p Hf Hv Hs)
    as (st' & d & Hu & Husers & _ & Hfind & Hd & Hmod & _).
  assert (Hact : Product.isActive d = true).
  { change (Product.isActive d)
      with (Product.isActive (Product.set_updatedAt (Product.updatedAt p) d)).
    rewrite Hd. cbn [Product.assign Product.isActive]. now rewrite Ha. }
  exists st', d. split; [exact Hu|]. split; [exact Hact|]. split; [exact Hd|].
  split.
  - intros Hp. apply Hmod. unfold Product.modified.
    cbn [Product.assign Product.isActive]. rewrite Ha, Hp.
    cbn [Product.or_else Bool.eqb negb]. now rewrite !orb_true_r.
  - unfold productController.getProduct. rewrite Hid, Hfind, Hact.
    cbn [negb]. now rewrite Husers.
Qed.



Lemma modified_stock d v :
  Product.modified d (Product.stock_patch v) = negb (v =? Product.stock d).
Proof.
  unfold Product.modified. cbn.
  rewrite !String.eqb_refl, !strings_eqb_refl, Bool.eqb_reflx. cbn.
  now rewrite !orb_false_r.
Qed.


Lemma protect_next_user {B} env st st' (req req' : Request B) :
  auth.protect env st req = (st', Next req') ->
  st' = st /\ exists u, user req' = Some u /\ User.isActive u = true.
Proof.
  unfold auth.protect. intros H.
  destruct (auth.request_token req) as [token|]; [|discriminate].
  destruct (Js.truthy token); simpl in H; [|discriminate].
  destruct (jwt_verify token _ _) as [e|d]; [discriminate|].
  destruct (User.findById (users st) (tokId d)) as [u|]; simpl in H; [|discriminate].
  destruct (User.isActive u) eqn:Ha; simpl in H; [|discriminate].
  injection H as <- <-. split; [reflexivity|].
  eexists. split; [reflexivity|exact Ha].
Qed.

(** A chain behind [protect] and [authorize('admin')] leaves the store
    alone unless an active administrator was resolved. *)
Lemma admin_gate {B} (rest : list (Middleware B)) env st (req : Request B) :
  out_store (dispatch (auth.protect :: auth.authorize ["admin"] :: rest) env st req)
  <> st ->
  exists req' u,
    auth.protect env st req = (st, Next req')
    /\ user req' = Some u /\ User.role u = "admin" /\ User.isActive u = true.
Proof.
  unfold dispatch. cbn [dispatch_from].
  destruct (auth.protect env st req) as [st' [req'|req' err|res]] eqn:Hp.
  - destruct (protect_next_user _ _ _ _ _ Hp) as (-> & u & Hu & Ha).
    unfold auth.authorize at 1. rewrite Hu.
    destruct (existsb (String.eqb (User.role u)) ["admin"]) eqn:Hr; cbn [negb].
    + intros _. exists req', u. repeat split; try assumption.
      cbn in Hr. rewrite orb_false_r in Hr. now apply String.eqb_eq.
    + cbn [out_store]. intros H. now contradiction H.
  - pose proof (protect_same_store env st req) as Hs. rewrite Hp in Hs.
    cbn in Hs |- *. intros H. now contradiction H.
  - pose proof (protect_same_store env st req) as Hs. rewrite Hp in Hs.
    cbn in Hs |- *. intros H. now contradiction H.
Qed.

(** X22: the PATCH, DELETE and POST routes of the products change the
    store only for a request whose token [protect] resolved to an active
    account with the role [admin]. *)
Theorem catalogue_changes_need_admin env st :
  (forall req,
      out_store (dispatch routes.updateProduct env st req) <> st ->
      exists req' u,
        auth.protect env st req = (st, Next req')
        /\ user req' = Some u /\ User.role u = "admin" /\ User.isActive u = true)
  /\ (forall req : Request unit,
         out_store (dispatch routes.deleteProduct env st req) <> st ->
         exists req' u,
           auth.protect env st req = (st, Next req')
           /\ user req' = Some u /\ User.role u = "admin" /\ User.isActive u = true)
  /\ (forall errors req,
         out_store (dispatch (routes.createProduct errors) env st req) <> st ->
         exists req' u,
           auth.protect env st req = (st, Next req')
           /\ user req' = Some u /\ User.role u = "admin" /\ User.isActive u = true).
Proof.
  split; [|split]; intros; now apply admin_gate in H.
Qed.

End Catalogue.

(** ** Catalogue invariants *)

Lemma validate_created_ok b d :
  Product.validate_created b d = [] -> product_ok d.
Proof.
  intros Hv. unfold Product.validate_created in Hv.
  apply app_eq_nil in Hv as [Vn Hv]. apply app_eq_nil in Hv as [Vd Hv].
  apply app_eq_nil in Hv as [Vp Hv]. apply app_eq_nil in Hv as [Vc Hv].
  apply app_eq_nil in Hv as [Vs Hv]. apply app_eq_nil in Hv as [Vk Vi].
  unfold product_ok.
  split; [field_case Vn; auto|].
  split; [field_case Vd; now apply negb_false_iff|].
  split; [field_case Vd; now apply Z.ltb_ge|].
  split; [destruct (Product.p_price b); [|discriminate];
          apply app_eq_nil in Vp as [Vp _]; field_case Vp; now apply Z.ltb_ge|].
  split; [destruct (Product.p_price b); [|discriminate];
          apply app_eq_nil in Vp as [_ Vp]; field_case Vp; auto|].
  split; [destruct (Product.p_category b); [|discriminate]; field_case Vc; auto|].
  split; [field_case Vs; now apply Z.ltb_ge|].
  split; [field_case Vk; auto|].
  field_case Vi. now apply Z.leb_le.
Qed.

Lemma product_ok_updatedAt t d : product_ok d -> product_ok (Product.set_updatedAt t d).
Proof. intros H. exact H. Qed.

(** Replacing the document of one identifier by one of the same
    identifier, with a key no other document has. *)
Lemma replace_keeps_ids (coll : list Product.doc) i d' :
  Product._id d' = i ->
  map Product._id (map (fun x => if Nat.eqb (Product._id x) i then d' else x) coll)
  = map Product._id coll.
Proof.
  intros Hd. rewrite map_map. apply map_ext. intros x.
  destruct (Nat.eqb (Product._id x) i) eqn:E; [|reflexivity].
  apply Nat.eqb_eq in E. congruence.
Qed.

Lemma replace_keeps_skus (coll : list Product.doc) i d' :
  NoDup (map Product._id coll) -> NoDup (map Product.sku coll) ->
  (forall x, In x coll -> Product._id x <> i -> Product.sku x <> Product.sku d') ->
  NoDup (map Product.sku
           (map (fun x => if Nat.eqb (Product._id x) i then d' else x) coll)).
Proof.
  induction coll as [|a l IH]; intros Hi Hs Hx; cbn [map]; [constructor|].
  cbn [map] in Hi, Hs.
  inversion Hi as [|? ? Hia Hi']; inversion Hs as [|? ? Hsa Hs']; subst.
  constructor.
  - intros Hin. apply in_map_iff in Hin. destruct Hin as (y & Hy & Hin).
    apply in_map_iff in Hin. destruct Hin as (z & Hz & Hzl). subst y.
    destruct (Nat.eqb (Product._id a) i) eqn:Ea, (Nat.eqb (Product._id z) i) eqn:Ez.
    + apply Nat.eqb_eq in Ea, Ez. apply Hia. rewrite Ea, <- Ez. now apply in_map.
    + apply Nat.eqb_neq in Ez. apply (Hx z); [now right|exact Ez|exact Hy].
    + apply Nat.eqb_neq in Ea. apply (Hx a); [now left|exact Ea|now symmetry].
    + apply Hsa. rewrite <- Hy. now apply in_map.
  - apply IH; auto. intros x Hin. apply Hx. now right.
Qed.

Lemma replace_keeps_ok (coll : list Product.doc) i d' :
  Forall product_ok coll -> product_ok d' ->
  Forall product_ok (map (fun x => if Nat.eqb (Product._id x) i then d' else x) coll).
Proof.
  intros Hall Hd. apply Forall_map. eapply Forall_impl; [|exact Hall].
  intros x Hx. now destruct (Nat.eqb _ _).
Qed.

(** A save of a stored product keeps the catalogue well formed. *)
Lemma save_keeps_catalogue t b p st d' coll' :
  catalogue_wf st -> In p (products st) ->
  Product.save t p b (products st) = inr (d', coll') ->
  catalogue_wf (set_products coll' st).
Proof.
  intros Hw Hin Hs.
  destruct (save_success _ _ _ _ _ _ Hs)
    as (Hv & [(Hm & -> & ->)|(Hm & Hsku & Hd & Hc)]); [destruct st; exact Hw|].
  destruct Hw as (W1 & W2 & W3 & W4).
  assert (Hid : Product._id d' = Product._id p) by (now rewrite Hd).
  assert (Hk : Product.sku d' = Product.sku (Product.assign p b)) by (now rewrite Hd).
  unfold catalogue_wf. cbn [products next_oid set_products]. rewrite Hc.
  rewrite Forall_forall in W3.
  assert (Hok : product_ok d').
  { rewrite Hd. apply product_ok_updatedAt, validate_ok, Hv. }
  split; [now rewrite replace_keeps_ids|].
  split.
  - apply replace_keeps_skus; auto.
    intros x Hx Hne. rewrite Hk.
    destruct Hsku as [Hsku|Hsku].
    + rewrite Hsku. intros He. apply Hne. f_equal.
      apply (nodup_key_inj Product.sku (products st)); auto.
    + unfold Product.sku_taken in Hsku.
      intros He.
      assert (Ht : existsb (fun y => negb (Nat.eqb (Product._id y)
                                             (Product._id (Product.assign p b)))
                                    && String.eqb (Product.sku y)
                                         (Product.sku (Product.assign p b)))%bool
                     (products st) = true).
      { apply existsb_exists. exists x. split; [exact Hx|].
        apply andb_true_iff. split.
        - apply negb_true_iff. now apply Nat.eqb_neq.
        - now apply String.eqb_eq. }
      congruence.
  - split; [apply replace_keeps_ok; [now apply Forall_forall|exact Hok]|].
    intros x Hx. apply in_map_iff in Hx. destruct Hx as (y & Hy & Hyin).
    destruct (Nat.eqb (Product._id y) (Product._id p)); subst x.
    + rewrite Hid. now apply W4.
    + now apply W4.
Qed.

Section CatalogueInvariant.
Context {ext : Externals}.

Lemma updateProduct_keeps_catalogue env st req :
  catalogue_wf st -> catalogue_wf (fst (productController.updateProduct env st req)).
Proof.
  intros Hw. unfold productController.updateProduct.
  destruct (Product.findById _ _) as [p|] eqn:Hf; [|exact Hw].
  destruct (Product.save _ _ _ _) as [err|[d' coll']] eqn:Hs; [exact Hw|].
  apply (save_keeps_catalogue _ _ p _ _ _ Hw (findById_In _ _ _ Hf) Hs).
Qed.

Lemma deleteProduct_keeps_catalogue {B} env st (req : Request B) :
  catalogue_wf st -> catalogue_wf (fst (productController.deleteProduct env st req)).
Proof.
  intros Hw. unfold productController.deleteProduct.
  destruct (Product.findById _ _) as [p|] eqn:Hf; [|exact Hw].
  destruct (Product.save _ _ _ _) as [err|[d' coll']] eqn:Hs; [exact Hw|].
  apply (save_keeps_catalogue _ _ p _ _ _ Hw (findById_In _ _ _ Hf) Hs).
Qed.

Lemma createProduct_keeps_catalogue env st req :
  catalogue_wf st -> catalogue_wf (fst (productController.createProduct env st req)).
Proof.
  intros Hw. unfold productController.createProduct.
  destruct (user req) as [u|]; [|exact Hw].
  destruct (Product.create _ _ _ _ _) as [err|[p ps]] eqn:E; [exact Hw|].
  destruct (create_success _ _ _ _ _ _ _ E) as (Hp & Hv & Hex & Hps).
  destruct Hw as (W1 & W2 & W3 & W4).
  assert (Hid : Product._id p = next_oid st) by (now rewrite Hp).
  unfold catalogue_wf. cbn [fst products next_oid]. rewrite Hps, !map_app.
  cbn [map]. repeat split.
  - rewrite Hid. apply NoDup_snoc; [exact W1|]. intros Hin. apply in_map_iff in Hin.
    destruct Hin as (v & Hv' & Hin). apply W4 in Hin. lia.
  - apply NoDup_snoc; [exact W2|]. intros Hin. apply in_map_iff in Hin.
    destruct Hin as (v & Hv' & Hin).
    assert (Ht : existsb (fun x => String.eqb (Product.sku x) (Product.sku p))
                   (products st) = true).
    { apply existsb_exists. exists v. split; [exact Hin|]. now apply String.eqb_eq. }
    congruence.
  - apply Forall_app. split; [exact W3|]. constructor; [|constructor].
    apply (validate_created_ok _ _ Hv).
  - intros x Hx. apply in_app_or in Hx. destruct Hx as [Hx|[<-|[]]].
    + apply W4 in Hx. lia.
    + rewrite Hid. lia.
Qed.

Lemma keeps_catalogue {B} (stage : Middleware B) :
  (forall env st req,
      products (fst (stage env st req)) = products st
      /\ (next_oid st <= next_oid (fst (stage env st req)))%nat) ->
  forall env st req, catalogue_wf st -> catalogue_wf (fst (stage env st req)).
Proof.
  intros H env st req (W1 & W2 & W3 & W4). destruct (H env st req) as [Hp Hn].
  unfold catalogue_wf. rewrite Hp. repeat split; auto.
  intros p Hin. apply W4 in Hin. lia.
Qed.

Lemma register_same_products env st req :
  products (fst (authController.register env st req)) = products st
  /\ (next_oid st <= next_oid (fst (authController.register env st req)))%nat.
Proof.
  unfold authController.register.
  repeat (break_match; simpl); split; auto.
Qed.

Lemma login_same_products env st req :
  products (fst (authController.login env st req)) = products st
  /\ (next_oid st <= next_oid (fst (authController.login env st req)))%nat.
Proof.
  unfold authController.login.
  repeat (break_match; simpl); split; auto.
Qed.

(** X23: the catalogue stays well formed: when the stored products have
    distinct identifiers below the next one, distinct SKUs, and each a
    name, a description of at most 1000 characters, a price and a stock
    that are not negative, a currency and a category of the schema's
    lists, a SKU of capitals, digits and hyphens and at most five
    images, the same holds after any request to a route, after a
    product is created, and after [updateStock]. *)
Theorem catalogue_stays_wellformed env st :
  catalogue_wf st ->
  (forall c, catalogue_wf (out_store (serve env st c)))
  /\ (forall errors req,
         catalogue_wf (out_store (dispatch (routes.createProduct errors) env st req)))
  /\ (forall t q p d' coll',
         In p (products st) ->
         Product.updateStock t q p (products st) = inr (d', coll') ->
         catalogue_wf (set_products coll' st) /\ 0 <= Product.stock d').
Proof.
  intros Hw.
  assert (Hsame : forall B (stage : Middleware B),
             (forall env st req, fst (stage env st req) = st) ->
             forall env st req, catalogue_wf st -> catalogue_wf (fst (stage env st req))).
  { intros B stage H env0 st0 req0 Hw0. now rewrite H. }
  split; [|split].
  - intros c. destruct c; simpl; unfold dispatch;
      apply (dispatch_keeps catalogue_wf); try exact Hw;
      repeat (apply Forall_cons;
              [ first [ apply keeps_catalogue;
                        first [apply register_same_products|apply login_same_products]
                      | apply updateProduct_keeps_catalogue
                      | apply deleteProduct_keeps_catalogue
                      | apply Hsame;
                        first [ apply protect_same_store
                              | apply authorize_same_store
                              | apply getMe_same_store
                              | apply getProduct_same_store
                              | reflexivity ] ] | ]);
      apply Forall_nil.
  - intros errors req. unfold dispatch, routes.createProduct.
    apply (dispatch_keeps catalogue_wf); try exact Hw.
    repeat (apply Forall_cons;
            [ first [ apply createProduct_keeps_catalogue
                    | apply Hsame;
                      first [ apply protect_same_store
                            | apply authorize_same_store
                            | intros env0 st0 req0; destruct errors; reflexivity ] ] | ]).
    apply Forall_nil.
  - intros t q p d' coll' Hin Hu. unfold Product.updateStock in Hu.
    destruct (Product.stock p + q <? 0) eqn:Hq; [discriminate|].
    split; [apply (save_keeps_catalogue _ _ p _ _ _ Hw Hin Hu)|].
    apply Z.ltb_ge in Hq.
    destruct (save_success _ _ _ _ _ _ Hu) as (_ & [(Hm & -> & _)|(_ & _ & -> & _)]).
    + rewrite modified_stock in Hm. apply negb_false_iff, Z.eqb_eq in Hm. lia.
    + exact Hq.
Qed.

End CatalogueInvariant.

(** ** Runs of the further properties on the sample data *)


Lemma register_creates_standard_account_witness :
  exists u,
    users Sample.with_john = [u]
    /\ User._id u = 1%nat /\ User.role u = "user" /\ User.isActive u = true
    /\ User.email u = "john@example.com"
    /\ User.password u = Some (Reference.hash "Password123" (salt Sample.env)).
Proof.
  assert (H : exists res,
             authController.register (ext := Runs.E) Sample.env Sample.empty
               (Sample.request None None 0 Sample.john)
             = (Sample.with_john, Send res)).
  { eexists. vm_compute. reflexivity. }
  destruct H as [res H].
  destruct (register_creates_standard_account (ext := Runs.E) _ _ _ _ _ H)
    as (u & n & e & p & Hu & _ & _ & Hn & He & Hp & Hid & Hr & Ha & _ & Hem & Hpw & _).
  injection He as <-. injection Hp as <-.
  exists u. repeat split; assumption.
Defined.

Lemma reachable_accounts_wellformed_witness :
  NoDup (map User.email (users Sample.with_john))
  /\ (forall u, In u (users Sample.with_john) ->
                User.role u = "user" /\ User.isActive u = true).
Proof.
  assert (Hr : reachable (ext := Runs.E) Sample.with_john).
  { exact (reach_serve (ext := Runs.E) Sample.env Sample.empty
             (CallRegister (Sample.request None None 0 Sample.john))
             (reach_init [] 1)). }
  destruct (reachable_accounts_wellformed (ext := Runs.E) Sample.with_john Hr)
    as (_ & He & Hall).
  split; [exact He|]. intros u Hu. destruct (Hall u Hu) as (_ & _ & _ & _ & R & A).
  split; assumption.
Defined.

Lemma account_lookup_round_trip_witness :
  User.findByEmail (users Sample.with_john) "JOHN@EXAMPLE.COM" = Some Sample.john_doc
  /\ User.findById (users Sample.with_john) 1 = Some Sample.john_doc.
Proof.
  assert (Hr : reachable (ext := Runs.E) Sample.with_john).
  { exact (reach_serve (ext := Runs.E) Sample.env Sample.empty
             (CallRegister (Sample.request None None 0 Sample.john))
             (reach_init [] 1)). }
  assert (Hin : In Sample.john_doc (users Sample.with_john)).
  { left. vm_compute. reflexivity. }
  destruct (account_lookup_round_trip (ext := Runs.E) Sample.with_john
              Sample.john_doc Hr Hin) as (_ & Hup & Hid & _).
  split; [exact Hup|exact Hid].
Defined.


Lemma register_then_protect_witness :
  exists u,
    users Sample.with_john = [u]
    /\ auth.protect (ext := Runs.E) Sample.env Sample.with_john
         (Runs.with_bearer Sample.live_token)
       = (Sample.with_john,
          Next (set_user (Some (User.set_password None u))
                  (Runs.with_bearer Sample.live_token))).
Proof.
  assert (H : exists res,
             authController.register (ext := Runs.E) Sample.env Sample.empty
               (Sample.request None None 0 Sample.john)
             = (Sample.with_john, Send res)).
  { eexists. vm_compute. reflexivity. }
  destruct H as [res H].
  destruct (register_then_protect (ext := Runs.E) Sample.env Sample.env Sample.empty
              (Sample.request None None 0 Sample.john) Sample.with_john res
              (Runs.with_bearer Sample.live_token) Sample.live_token)
    as (u & Hu & _ & Hp).
  - exact H.
  - intros x [].
  - vm_compute. reflexivity.
  - vm_compute. reflexivity.
  - vm_compute. reflexivity.
  - reflexivity.
  - reflexivity.
  - exists u. split; [exact Hu|exact Hp].
Defined.

Lemma login_changes_only_login_stamp_witness :
  exists st',
    fst (authController.login (ext := Runs.E) Sample.env_dev Sample.with_john
           (Runs.credentials "john@example.com" "Password123")) = st'
    /\ map User.core (users st') = map User.core (users Sample.with_john)
    /\ next_oid st' = 2%nat.
Proof.
  assert (H : exists st' res,
             authController.login (ext := Runs.E) Sample.env_dev Sample.with_john
               (Runs.credentials "john@example.com" "Password123")
             = (st', Send res)).
  { eexists. eexists. vm_compute. reflexivity. }
  destruct H as (st' & res & H).
  assert (Hn : NoDup (map User._id (users Sample.with_john))).
  { vm_compute. apply NoDup_cons; [intros []|apply NoDup_nil]. }
  destruct (login_changes_only_login_stamp (ext := Runs.E) _ _ _ _ _ H Hn)
    as (Hc & _ & Ho & _).
  exists st'. split; [now rewrite H|]. split; [exact Hc|exact Ho].
Defined.

Lemma optionalAuth_agrees_with_protect_witness :
  auth.optionalAuth (ext := Runs.E) Sample.env Sample.with_john
    (Runs.with_bearer Sample.live_token)
  = (Sample.with_john,
     Next (set_user (Some (User.set_password None Sample.john_doc))
             (Runs.with_bearer Sample.live_token))).
Proof.
  apply (optionalAuth_agrees_with_protect (ext := Runs.E)).
  vm_compute. reflexivity.
Defined.

Lemma me_returns_stored_account_witness :
  exists u,
    In u (users Sample.with_john)
    /\ resStatus (out_response (dispatch (routes.me (ext := Runs.E)) Sample.env
                                  Sample.with_john
                                  (Runs.with_bearer Sample.live_token))) = 200
    /\ out_invoked (dispatch (routes.me (ext := Runs.E)) Sample.env Sample.with_john
                      (Runs.with_bearer Sample.live_token)) = 2%nat.
Proof.
  destruct (me_returns_stored_account (ext := Runs.E) Sample.env Sample.with_john
              (Runs.with_bearer Sample.live_token)
              (set_user (Some (User.set_password None Sample.john_doc))
                 (Runs.with_bearer Sample.live_token)))
    as (u & Hin & _ & _ & Hd & _).
  - vm_compute. reflexivity.
  - exists u. split; [exact Hin|]. rewrite Hd. split; reflexivity.
Defined.

Lemma error_answers_change_nothing_witness :
  out_store (serve (ext := Runs.E) Sample.env Sample.with_john
               (CallRegister (Sample.request None None 0 Sample.john)))
  = Sample.with_john.
Proof.
  destruct (error_answers_change_nothing (ext := Runs.E) Sample.env Sample.with_john)
    as (H & _).
  destruct H as (H & _); [intros payload; reflexivity|].
  apply H. vm_compute. discriminate.
Defined.

Lemma deleted_product_is_hidden_witness :
  exists st',
    productController.deleteProduct Sample.env More.stocked
      (Sample.request None None 8 tt)
    = (st', Send productController.deleted_answer)
    /\ productController.getProduct Sample.env_dev st' (Sample.request None None 8 tt)
       = (st', Fail (Sample.request None None 8 tt) (AppError "Product not found" 404))
    /\ (forall x, In x (Product.findLowStock (products st') (Some 10)) ->
                  Product._id x <> 8%nat).
Proof.
  destruct (deleted_product_is_hidden (fun _ _ => true) Sample.env Sample.env_dev
              More.stocked (Sample.request None None 8 tt) More.gizmo)
    as (st' & Hd & _ & _ & _ & Hg & _ & _ & Hl & _).
  - vm_compute. reflexivity.
  - vm_compute. reflexivity.
  - vm_compute. repeat (apply NoDup_cons; [simpl; intuition discriminate|]).
    apply NoDup_nil.
  - exists st'. split; [exact Hd|]. split; [exact Hg|]. apply Hl.
Defined.

Lemma patch_can_restore_witness :
  exists st' p,
    productController.updateProduct Sample.env Sample.with_deleted_widget
      (Sample.request None None 7 More.restore)
    = (st', Send (productController.product_response None p))
    /\ Product.isActive p = true /\ Product.updatedAt p = now Sample.env
    /\ productController.getProduct Sample.env st' (Sample.request None None 7 tt)
       = (st', Send (productController.product_response
                       (Some (productController.populate_createdBy
                                (users Sample.with_deleted_widget) p)) p)).
Proof.
  destruct (patch_can_restore Sample.env Sample.env Sample.with_deleted_widget
              (Sample.request None None 7 More.restore)
              (Sample.request None None 7 tt) Sample.widget)
    as (st' & d & Hu & Ha & _ & Ht & Hg).
  - vm_compute. reflexivity.
  - reflexivity.
  - vm_compute. reflexivity.
  - left. reflexivity.
  - reflexivity.
  - exists st', d. split; [exact Hu|]. split; [exact Ha|].
    split; [apply Ht; reflexivity|exact Hg].
Defined.



Lemma catalogue_changes_need_admin_witness :
  exists req' u,
    auth.protect (ext := Runs.E) Sample.env More.stocked (More.as_admin 8 tt)
    = (More.stocked, Next req')
    /\ user req' = Some u /\ User.role u = "admin" /\ User.isActive u = true.
Proof.
  apply (proj1 (proj2 (catalogue_changes_need_admin (ext := Runs.E) Sample.env
                         More.stocked))).
  vm_compute. intros H. discriminate H.
Defined.

Lemma catalogue_stays_wellformed_witness :
  catalogue_wf (out_store (serve (ext := Runs.E) Sample.env More.stocked
                             (CallUpdateProduct (More.as_admin 7 Sample.restock))))
  /\ catalogue_wf (out_store (dispatch (routes.createProduct (ext := Runs.E) [])
                                Sample.env More.stocked
                                (More.as_admin 0 More.gadget))).
Proof.
  assert (Hw : catalogue_wf More.stocked).
  { unfold catalogue_wf. split; [|split; [|split]].
    - vm_compute. repeat (apply NoDup_cons; [simpl; intuition discriminate|]).
      apply NoDup_nil.
    - vm_compute. repeat (apply NoDup_cons; [simpl; intuition discriminate|]).
      apply NoDup_nil.
    - repeat (apply Forall_cons;
              [unfold product_ok; repeat split; vm_compute;
               first [reflexivity|discriminate]|]).
      apply Forall_nil.
    - intros p [<-|[<-|[]]]; vm_compute; lia. }
  destruct (catalogue_stays_wellformed (ext := Runs.E) Sample.env More.stocked Hw)
    as (Hs & Hc & _).
  split; [apply Hs|apply Hc].
Defined.
